(** * Configuration and credential lifecycle of the VoipNow provisioning server

    A shallow embedding of [provisioning/src/main.py] (ConfigManager,
    ConfigFileHandler, call_tool), [provisioning/src/utils/token.py] (token
    file access, token issue, fingerprint check, TokenExpirationChecker),
    [provisioning/src/auth/auth.py], [provisioning/src/utils/utils.py] (the
    SOAP requests), [provisioning/src/utils/tool_registry.py] and the log
    filter of [provisioning/src/utils/server.py], and the properties of the
    specification and of the code that concern them.

    Modelling conventions.
    - Python [str] is [string]; every character is read as a code point
      below 256.
    - A parsed JSON configuration is a finite map from keys to scalar values
      (the order of the keys, used only in two log messages, is the map's).
    - [time.time()] is a rational number of seconds; operations take no time
      except [time.sleep].
    - The file system is a finite map from paths to file contents.  Paths are
      absolute and normalised, so [os.path.abspath] is the identity.  File
      modes, advisory locks and I/O faults other than a missing file are not
      represented.
    - The OAuth endpoint is a stream of replies, one per POST request.  A
      success reply is a JSON object in which expires_in, when present, is an
      integer and access_token, when present, is a string.
    - The logger is seen through the calls made into it; its level is not
      kept.
    - Exceptions are values; a computation returns, raises, or blocks
      for ever on a lock that is never released.  [OutOfFuel] ends the
      unfolding of the one recursive definition and is never reached
      ([load_config_fuel_enough]).
    - [utils/vars.py] is not among the sources: its two tables are
      parameters, Python dicts given by their items in order.  The SOAP
      service is seen through the operations that a WSDL declares and the
      answers to the calls made.
    - A package of tool modules is the tree of what [pkgutil.iter_modules]
      finds in it and of what importing each entry gives. *)

From Stdlib Require Import ZArith QArith Qround String Ascii List DecimalString DecimalZ DecimalPos Lia Lqa.
From stdpp Require Import gmap strings list fin_maps.

Open Scope string_scope.
Open Scope Z_scope.

(** ** Python primitives used by the two modules *)

Module Py.

(** [s.startswith(p)] *)
Fixpoint startswith (s p : string) {struct p} : bool :=
  match p with
  | EmptyString => true
  | String a p' =>
      match s with
      | EmptyString => false
      | String b s' => Ascii.eqb a b && startswith s' p'
      end
  end.

(** [needle in hay] for strings *)
Fixpoint contains (hay needle : string) : bool :=
  startswith hay needle ||
  match hay with
  | EmptyString => false
  | String _ hay' => contains hay' needle
  end.

(** [s.split(sep)] for a one-character separator; the result is never empty. *)
Fixpoint split (sep : ascii) (s : string) : list string :=
  match s with
  | EmptyString => [EmptyString]
  | String a s' =>
      if Ascii.eqb a sep then EmptyString :: split sep s'
      else match split sep s' with
           | h :: t => String a h :: t
           | [] => [String a EmptyString]
           end
  end.

(** [l[-1]] on a non-empty list; [d] stands for the IndexError case. *)
Definition last_item (l : list string) (d : string) : string := List.last l d.

(** Characters for which [str.isspace] holds (code points below 256). *)
Definition isspace (c : ascii) : bool :=
  let n := nat_of_ascii c in
  ((9 <=? n) && (n <=? 13) || (28 <=? n) && (n <=? 32) || (n =? 133) || (n =? 160))%nat.

Fixpoint lstrip (s : string) : string :=
  match s with
  | EmptyString => EmptyString
  | String a s' => if isspace a then lstrip s' else s
  end.

Fixpoint rstrip (s : string) : string :=
  match s with
  | EmptyString => EmptyString
  | String a s' =>
      match rstrip s' with
      | EmptyString => if isspace a then EmptyString else String a EmptyString
      | r => String a r
      end
  end.

(** [s.strip()] *)
Definition strip (s : string) : string := rstrip (lstrip s).

(** [s.lower()] *)
Definition lower_char (c : ascii) : ascii :=
  let n := nat_of_ascii c in
  if ((65 <=? n) && (n <=? 90) ||
      (192 <=? n) && (n <=? 222) && negb (n =? 215))%nat
  then ascii_of_nat (n + 32) else c.

Fixpoint lower (s : string) : string :=
  match s with
  | EmptyString => EmptyString
  | String a s' => String (lower_char a) (lower s')
  end.

(** [s.upper()], on the letters whose upper case is below 256. *)
Definition upper_char (c : ascii) : ascii :=
  let n := nat_of_ascii c in
  if ((97 <=? n) && (n <=? 122) ||
      (224 <=? n) && (n <=? 254) && negb (n =? 247))%nat
  then ascii_of_nat (n - 32) else c.

Fixpoint upper (s : string) : string :=
  match s with
  | EmptyString => EmptyString
  | String a s' => String (upper_char a) (upper s')
  end.

(** [str(n)] and the [{n}] of an f-string, for an integer. *)
Definition str_of_int (z : Z) : string := NilZero.string_of_int (Z.to_int z).

Definition isdigit (c : ascii) : bool :=
  let n := nat_of_ascii c in ((48 <=? n) && (n <=? 57))%nat.

(** Digit groups of [int(s)]: digits, with single underscores between
    digits.  [prev] tells whether the previous character was a digit.  The
    result is the digit string without the underscores. *)
Fixpoint digit_groups (prev : bool) (s : string) : option string :=
  match s with
  | EmptyString => if prev then Some EmptyString else None
  | String c s' =>
      if isdigit c then String c <$> digit_groups true s'
      else if Ascii.eqb c "_" then
             if prev then digit_groups false s' else None
           else None
  end.

Definition nat_of_str (s : string) : option Z :=
  d ← digit_groups false s;
  u ← NilEmpty.uint_of_string d;
  Some (Z.of_uint u).

(** [int(s)] for a string: [None] stands for ValueError. *)
Definition int_of_str (s : string) : option Z :=
  match strip s with
  | String c r =>
      if Ascii.eqb c "-" then Z.opp <$> nat_of_str r
      else if Ascii.eqb c "+" then nat_of_str r
      else nat_of_str (String c r)
  | EmptyString => None
  end.

(** Do all characters of [s] satisfy [f]? *)
Fixpoint all_chars (f : ascii → bool) (s : string) : bool :=
  match s with
  | EmptyString => true
  | String a s' => f a && all_chars f s'
  end.

Definition no_colon (s : string) : bool :=
  all_chars (λ a, negb (Ascii.eqb a ":")) s.

(** [os.path.abspath]: paths are absolute and normalised. *)
Definition abspath (path : string) : string := path.

(** [int(x)] for a float: truncation towards zero. *)
Definition int_of_float (q : Q) : Z := Z.quot (Qnum q) (Z.pos (Qden q)).

(** [min(a, b)]: the first argument unless the second is strictly smaller. *)
Definition min (a b : Q) : Q := if Qle_bool a b then a else b.

(** Neither white space nor a colon. *)
Definition plain (a : ascii) : bool := negb (isspace a) && negb (Ascii.eqb a ":").

End Py.

(** ** Values, exceptions and the environment *)

(** Scalar JSON values as [json.load] returns them. *)
Inductive jvalue :=
| JNull
| JBool (b : bool)
| JNum (n : Z)
| JStr (s : string).

#[global] Instance jvalue_eq_dec : EqDecision jvalue.
Proof. solve_decision. Defined.

(** Truth value of a JSON scalar in a Python condition. *)
Definition truthy (v : jvalue) : bool :=
  match v with
  | JNull => false
  | JBool b => b
  | JNum n => negb (n =? 0)
  | JStr s => negb (String.eqb s "")
  end.

(** What [e.response.json()] gives for an error reply: not JSON at all, or
    an object with an optional ["error"] member. *)
Inductive error_body :=
| NotJson
| ErrorObject (error : option string).

Inductive exn :=
| ConfigurationError (msg : string)
| SSLError
| HTTPError (status_code : Z) (body : error_body)
| ConnectionError
| Timeout
| RequestException
| ValueError (msg : string)
| JSONDecodeError (msg : string)
| KeyError (key : string)
| RuntimeError (msg : string)
| OSError (msg : string)
| AttributeError
| TypeError
| IndexError.

(** The classes named in the [except] clauses of the two modules. *)
Inductive exn_class :=
| CConfigurationError | CSSLError | CHTTPError | CConnectionError | CTimeout
| CRequestException | CValueError | CJSONDecodeError | CKeyError
| CRuntimeError | COSError | CIndexError.

(** [isinstance(e, c)], following the class hierarchy of Python and of
    [requests]: SSLError < ConnectionError < RequestException < OSError,
    HTTPError and Timeout < RequestException, JSONDecodeError < ValueError;
    IOError is OSError. *)
Definition isinstance (e : exn) (c : exn_class) : bool :=
  match c, e with
  | CConfigurationError, ConfigurationError _ => true
  | CSSLError, SSLError => true
  | CHTTPError, HTTPError _ _ => true
  | CConnectionError, (ConnectionError | SSLError) => true
  | CTimeout, Timeout => true
  | CRequestException,
    (SSLError | HTTPError _ _ | ConnectionError | Timeout | RequestException) => true
  | CValueError, (ValueError _ | JSONDecodeError _) => true
  | CJSONDecodeError, JSONDecodeError _ => true
  | CKeyError, KeyError _ => true
  | CRuntimeError, RuntimeError _ => true
  | CIndexError, IndexError => true
  | COSError,
    (OSError _ | SSLError | HTTPError _ _ | ConnectionError | Timeout
     | RequestException) => true
  | _, _ => false
  end.

Definition isinstance_any (e : exn) (cs : list exn_class) : bool :=
  existsb (isinstance e) cs.

(** [type(e).__name__] *)
Definition exn_name (e : exn) : string :=
  match e with
  | ConfigurationError _ => "ConfigurationError"
  | SSLError => "SSLError"
  | HTTPError _ _ => "HTTPError"
  | ConnectionError => "ConnectionError"
  | Timeout => "Timeout"
  | RequestException => "RequestException"
  | ValueError _ => "ValueError"
  | JSONDecodeError _ => "JSONDecodeError"
  | KeyError _ => "KeyError"
  | RuntimeError _ => "RuntimeError"
  | OSError _ => "OSError"
  | AttributeError => "AttributeError"
  | TypeError => "TypeError"
  | IndexError => "IndexError"
  end.

(** [str(e)].  A KeyError prints the repr of its key; the keys raised here
    are identifiers, whose repr is the key between single quotes.  The text
    of the [requests] exceptions is left empty. *)
Definition exn_str (e : exn) : string :=
  match e with
  | ConfigurationError m | ValueError m | JSONDecodeError m
  | RuntimeError m | OSError m => m
  | KeyError k => "'" ++ k ++ "'"
  | IndexError => "list index out of range"
  | _ => ""
  end.

(** One reply of the OAuth endpoint to [requests.post]. *)
Inductive reply :=
| Reply200 (expires_in : option Z) (access_token : option string)
| ReplyError (status_code : Z) (body : error_body)
| NoReplySSL
| NoReplyConnection
| NoReplyTimeout
| NoReplyOther.

Inductive level := DEBUG | INFO | WARNING | ERROR.

(** Observable actions, most recent first in a trace.  [EvEnterLoadConfig]
    marks an entry into [load_config]; the others are calls into the logger,
    [requests], [os] and [threading]. *)
Inductive event :=
| EvLog (lvl : level) (msg : string)
| EvPost (url : string) (client_id client_secret : jvalue) (verify : bool)
| EvRemove (path : string)
| EvTimerStart (delay : Q)
| EvTimerCancel
| EvEnterLoadConfig.

(** What [open(config_file)] followed by [json.load] gives. *)
Inductive config_read :=
| ReadFails (msg : string)
| ReadNotJson (msg : string)
| ReadDoc (doc : gmap string jvalue).

Record world := mkWorld {
  clock : Q;
  fs : gmap string string;
  config_source : config_read;
  issuer : nat → reply;
  posts : nat;
  trace : list event
}.

Definition set_fs (f : gmap string string → gmap string string) (w : world) : world :=
  mkWorld (clock w) (f (fs w)) (config_source w) (issuer w) (posts w) (trace w).
Definition set_clock (t : Q) (w : world) : world :=
  mkWorld t (fs w) (config_source w) (issuer w) (posts w) (trace w).
Definition emit (e : event) (w : world) : world :=
  mkWorld (clock w) (fs w) (config_source w) (issuer w) (posts w) (e :: trace w).
Definition next_post (w : world) : world :=
  mkWorld (clock w) (fs w) (config_source w) (issuer w) (S (posts w)) (trace w).

(** ** Computations: state passing with exceptions *)

Inductive outcome (A : Type) :=
| Ok (a : A)
| Raise (e : exn)
| Hang
| OutOfFuel.
Arguments Ok {A} a.
Arguments Raise {A} e.
Arguments Hang {A}.
Arguments OutOfFuel {A}.

Definition M (S A : Type) : Type := S → S * outcome A.

Definition ret {S A} (a : A) : M S A := λ s, (s, Ok a).
Definition bind {S A B} (m : M S A) (k : A → M S B) : M S B :=
  λ s, match m s with
       | (s', Ok a) => k a s'
       | (s', Raise e) => (s', Raise e)
       | (s', Hang) => (s', Hang)
       | (s', OutOfFuel) => (s', OutOfFuel)
       end.
Definition raise {S A} (e : exn) : M S A := λ s, (s, Raise e).
Definition get {S} : M S S := λ s, (s, Ok s).
Definition modify {S} (f : S → S) : M S unit := λ s, (f s, Ok tt).

Declare Scope py_scope.
Delimit Scope py_scope with py.
Notation "x ← y ; z" := (bind y (λ x : _, z))
  (at level 20, y at level 100, z at level 200, only parsing) : py_scope.
Notation "' x ← y ; z" := (bind y (λ x : _, z))
  (at level 20, x pattern, y at level 100, z at level 200, only parsing) : py_scope.
Notation "x ;; z" := (bind x (λ _, z))
  (at level 100, z at level 200, only parsing, right associativity) : py_scope.
Open Scope py_scope.

(** [try: body except cs: handler]; an exception raised by the handler
    leaves the statement. *)
Definition try_except {S A} (body : M S A) (cs : list exn_class)
    (handler : exn → M S A) : M S A :=
  λ s, match body s with
       | (s', Raise e) => if isinstance_any e cs then handler e s' else (s', Raise e)
       | r => r
       end.

(** A [try] with several [except] clauses: the first matching one runs. *)
Fixpoint dispatch {S A} (clauses : list (list exn_class * (exn → M S A)))
    (e : exn) : M S A :=
  match clauses with
  | [] => raise e
  | (cs, h) :: rest => if isinstance_any e cs then h e else dispatch rest e
  end.

Definition try_clauses {S A} (body : M S A)
    (clauses : list (list exn_class * (exn → M S A))) : M S A :=
  λ s, match body s with
       | (s', Raise e) => dispatch clauses e s'
       | r => r
       end.

(** [d[k]] and [d.get(k, default)] on a configuration. *)
Definition item {S} (d : gmap string jvalue) (k : string) : M S jvalue :=
  match d !! k with
  | Some v => ret v
  | None => raise (KeyError k)
  end.
Definition get_default (d : gmap string jvalue) (k : string) (v : jvalue) : jvalue :=
  default v (d !! k).

(** A value on which a [str] method or path operation is used. *)
Definition as_str {S} (v : jvalue) (otherwise : exn) : M S string :=
  match v with
  | JStr s => ret s
  | _ => raise otherwise
  end.

(** [if b: m] *)
Definition when {S} (b : bool) (m : M S unit) : M S unit :=
  if b then m else ret tt.

Definition log (lvl : level) (msg : string) : M world unit :=
  modify (emit (EvLog lvl msg)).

Definition join (sep : string) (l : list string) : string :=
  match l with
  | [] => ""
  | x :: r => x ++ fold_right (λ y acc, sep ++ y ++ acc) "" r
  end.

(** ** utils/token.py *)

Module Token.
Import Py.

Definition os_path_exists (path : string) : M world bool :=
  λ w, (w, Ok (bool_decide (is_Some (fs w !! path)))).

(** [open(path, "w")], [write], [flush], [fsync], close. *)
Definition write_file (path content : string) : M world unit :=
  modify (set_fs (<[path := content]>)).

Definition os_rename (src dst : string) : M world unit :=
  λ w, match fs w !! src with
       | Some c => (set_fs (λ f, <[dst := c]> (delete src f)) w, Ok tt)
       | None => (w, Raise (OSError "FileNotFoundError"))
       end.

Definition os_remove (path : string) : M world unit :=
  λ w, match fs w !! path with
       | Some _ => (emit (EvRemove path) (set_fs (delete path) w), Ok tt)
       | None => (w, Raise (OSError "FileNotFoundError"))
       end.

(** [int(time.time())] *)
Definition now_seconds : M world Z := λ w, (w, Ok (int_of_float (clock w))).

(** [_safe_read_token_file] *)
Definition _safe_read_token_file (token_file_path : string) : M world string :=
  w ← get;
  match fs w !! token_file_path with
  | None => raise (ValueError "Failed to read token file: FileNotFoundError")
  | Some content =>
      let token_data := strip content in
      if String.eqb token_data "" then raise (ValueError "Token file is empty")
      else
        let parts := split ":" token_data in
        if (length parts <? 3)%nat then
          raise (ValueError
                   ("Invalid token format: expected 3 colon-separated parts, got "
                    ++ str_of_int (Z.of_nat (length parts))))
        else ret token_data
  end.

(** [requests.post(...)] followed by [response.raise_for_status()]: the
    members of the JSON body of a successful reply. *)
Definition post_token_request (url : string) (client_id client_secret : jvalue)
    (verify : bool) : M world (option Z * option string) :=
  λ w,
    let w' := next_post (emit (EvPost url client_id client_secret verify) w) in
    match issuer w (posts w) with
    | Reply200 expires_in access_token => (w', Ok (expires_in, access_token))
    | ReplyError status_code body => (w', Raise (HTTPError status_code body))
    | NoReplySSL => (w', Raise SSLError)
    | NoReplyConnection => (w', Raise ConnectionError)
    | NoReplyTimeout => (w', Raise Timeout)
    | NoReplyOther => (w', Raise RequestException)
    end.

(** [generate_token] *)
Definition generate_token (config_mcp : gmap string jvalue) : M world unit :=
  host ← item config_mcp "voipnowHost";
  voipnow_host ← as_str host AttributeError;
  let voipnow_host :=
    if startswith voipnow_host "https://" then voipnow_host
    else "https://" ++ voipnow_host in
  client_id ← item config_mcp "appId";
  client_secret ← item config_mcp "appSecret";
  let verify_ssl := negb (truthy (get_default config_mcp "insecure" (JBool false))) in
  '(expires_in, access_token) ←
    post_token_request (voipnow_host ++ "/oauth/token.php") client_id client_secret verify_ssl;
  now ← now_seconds;
  match expires_in with
  | None => raise (KeyError "expires_in")
  | Some expires_in =>
      match access_token with
      | None => raise (KeyError "access_token")
      | Some access_token =>
          let token_data :=
            str_of_int now ++ ":" ++ str_of_int (now + expires_in) ++ ":" ++ access_token in
          path ← item config_mcp "voipnowTokenFile";
          token_file_path ← as_str path TypeError;
          let temp_file_path := token_file_path ++ ".tmp" in
          write_file temp_file_path token_data;;
          os_rename temp_file_path token_file_path
      end
  end.

Definition parse_int (s : string) : M world Z :=
  match int_of_str s with
  | Some z => ret z
  | None => raise (ValueError ("invalid literal for int() with base 10: '" ++ s ++ "'"))
  end.

(** [parts[1]] *)
Definition second_part (parts : list string) : M world string :=
  match parts !! 1%nat with
  | Some p => ret p
  | None => raise IndexError
  end.

Definition reraise_parse_failure {A} (e : exn) : M world A :=
  raise (ValueError ("Failed to read or parse token file: " ++ exn_str e)).

(** [check_token]: has the token expired, or will it in the next 5 minutes? *)
Definition check_token (token_file_path : string) : M world bool :=
  try_except
    (token_data ← _safe_read_token_file token_file_path;
     let parts := split ":" token_data in
     expiration_timestamp ← second_part parts;
     expires ← parse_int expiration_timestamp;
     now ← now_seconds;
     ret (now >=? expires - 300))
    [CIndexError; CValueError]
    reraise_parse_failure.

(** [get_expiration_timestamp] *)
Definition get_expiration_timestamp (token_file_path : string) : M world Z :=
  try_except
    (token_data ← _safe_read_token_file token_file_path;
     let parts := split ":" token_data in
     expiration_timestamp ← second_part parts;
     parse_int expiration_timestamp)
    [CIndexError; CValueError]
    reraise_parse_failure.

Section Fingerprint.

(** [hashlib.sha256(str(auth_config).encode()).hexdigest()] as a function of
    the three values of [auth_config]. *)
Context (fingerprint : jvalue → jvalue → jvalue → string).

(** [check_config_change] *)
Definition check_config_change (config_mcp : gmap string jvalue)
    (config_hash_file : string) : M world bool :=
  let current_hash :=
    fingerprint (get_default config_mcp "appId" (JStr ""))
                (get_default config_mcp "appSecret" (JStr ""))
                (get_default config_mcp "voipnowHost" (JStr "")) in
  w ← get;
  match fs w !! config_hash_file with
  | Some content =>
      let stored_hash := strip content in
      if negb (String.eqb stored_hash current_hash) then
        let temp_file := config_hash_file ++ ".tmp" in
        write_file temp_file current_hash;;
        os_rename temp_file config_hash_file;;
        leftover ← os_path_exists temp_file;
        when leftover (os_remove temp_file);;
        match config_mcp !! "voipnowTokenFile" with
        | Some (JStr token_file) =>
            present ← os_path_exists token_file;
            when (negb (String.eqb token_file "") && present) (os_remove token_file)
        | Some v => when (truthy v) (raise TypeError)
        | None => ret tt
        end;;
        ret true
      else ret false
  | None =>
      write_file config_hash_file current_hash;;
      ret false
  end.

End Fingerprint.

(** *** TokenExpirationChecker *)

Record TokenExpirationChecker := mkChecker {
  config_mcp : gmap string jvalue;
  interval : Q;
  callback : option (M world unit);
  _timer : option Q;
  _running : bool
}.

Definition with_running (b : bool) (self : TokenExpirationChecker) :=
  mkChecker (config_mcp self) (interval self) (callback self) (_timer self) b.
Definition with_timer (t : option Q) (self : TokenExpirationChecker) :=
  mkChecker (config_mcp self) (interval self) (callback self) t (_running self).

(** [__init__] *)
Definition new_checker (config_mcp : gmap string jvalue) (interval : Q)
    (callback : option (M world unit)) : TokenExpirationChecker :=
  mkChecker config_mcp interval callback None false.

(** [_schedule_next_check]: a new [threading.Timer] is created and started;
    [_timer] keeps its delay. *)
Definition _schedule_next_check (delay : Q) (self : TokenExpirationChecker)
    : M world TokenExpirationChecker :=
  if negb (_running self) then ret self
  else
    modify (emit (EvTimerStart delay));;
    ret (with_timer (Some delay) self).

(** [start]; the interval is left out of the message. *)
Definition start (initial_delay : Q) (self : TokenExpirationChecker)
    : M world TokenExpirationChecker :=
  if _running self then
    log WARNING "Token expiration checker already running";; ret self
  else
    self ← _schedule_next_check initial_delay (with_running true self);
    log DEBUG "Token expiration checker started";;
    ret self.

(** [stop] *)
Definition stop (self : TokenExpirationChecker) : M world TokenExpirationChecker :=
  let self := with_running false self in
  self ← match _timer self with
         | Some _ => modify (emit EvTimerCancel);; ret (with_timer None self)
         | None => ret self
         end;
  log DEBUG "Token expiration checker stopped";;
  ret self.

(** [min(60, self.interval / 5)] *)
Definition retry_delay (self : TokenExpirationChecker) : Q :=
  Py.min (60 # 1) (interval self / (5 # 1)).

(** Does the 401 reply carry ["error": "invalid_client"]? *)
Definition is_invalid_client (e : exn) : bool :=
  match e with
  | HTTPError 401 (ErrorObject (Some error)) => String.eqb error "invalid_client"
  | _ => false
  end.

Definition fail_and_retry (msg : string) (self : TokenExpirationChecker)
    : M world (TokenExpirationChecker * bool) :=
  log ERROR msg;;
  self ← _schedule_next_check (retry_delay self) self;
  ret (self, false).

(** The [try] around [generate_token] in [_check_token].  The boolean is
    false when the handler has returned from [_check_token].  In the HTTP
    message the status is printed as unknown, an error response being
    false in a condition. *)
Definition regenerate (self : TokenExpirationChecker)
    : M world (TokenExpirationChecker * bool) :=
  try_clauses
    (generate_token (config_mcp self);;
     log DEBUG "Token regenerated successfully";;
     ret (self, true))
    [ ([CHTTPError], λ e,
        if is_invalid_client e then
          log ERROR "Invalid client credentials (appId/appSecret)";;
          self ← stop self;
          ret (self, false)
        else fail_and_retry "HTTP error generating token: unknown" self);
      ([CConnectionError], λ e,
        fail_and_retry ("Cannot connect to OAuth server: " ++ exn_name e) self);
      ([CTimeout], λ _, fail_and_retry "OAuth request timed out" self);
      ([CRequestException], λ e,
        fail_and_retry ("OAuth request failed: " ++ exn_name e) self);
      ([COSError], λ e,
        fail_and_retry ("Failed to write token file: " ++ exn_name e) self) ].

(** The first [try] of [_check_token]. *)
Definition refresh_if_expiring (voipnow_token_file : string)
    (self : TokenExpirationChecker) : M world (TokenExpirationChecker * bool) :=
  try_except
    (expiring ← check_token voipnow_token_file;
     if expiring then
       log DEBUG "Token expired or expiring, regenerating...";;
       regenerate self
     else ret (self, true))
    [CValueError]
    (λ e,
      log ERROR ("Error checking token: " ++ exn_name e);;
      self ← _schedule_next_check (interval self) self;
      ret (self, false)).

(** The second [try] of [_check_token]: the next delay and the callback. *)
Definition schedule_from_expiration (voipnow_token_file : string)
    (self : TokenExpirationChecker) : M world TokenExpirationChecker :=
  try_except
    (expiration_timestamp ← get_expiration_timestamp voipnow_token_file;
     w ← get;
     let current_time := clock w in
     let time_until_expiration := (inject_Z expiration_timestamp - current_time)%Q in
     let next_check :=
       if negb (Qle_bool time_until_expiration 0)
       then Py.min time_until_expiration (interval self)
       else interval self in
     (match callback self with
      | Some cb =>
          λ w, match cb w with
               | (w', Raise e) =>
                   log WARNING ("Token check callback failed: " ++ exn_name e) w'
               | r => r
               end
      | None => ret tt
      end : M world unit);;
     _schedule_next_check next_check self)
    [CValueError]
    (λ e,
      log ERROR ("Error reading token expiration: " ++ exn_name e);;
      _schedule_next_check (interval self) self).

(** [_check_token], run when the timer fires. *)
Definition _check_token (self : TokenExpirationChecker)
    : M world TokenExpirationChecker :=
  if negb (_running self) then ret self
  else
    match config_mcp self !! "voipnowTokenFile" with
    | Some v =>
        if truthy v then
          voipnow_token_file ← as_str v TypeError;
          '(self, continue) ← refresh_if_expiring voipnow_token_file self;
          if continue then schedule_from_expiration voipnow_token_file self
          else ret self
        else log ERROR "Token file path not configured";; ret self
    | None => log ERROR "Token file path not configured";; ret self
    end.

(** What can happen to a checker: its timer fires, or one of its methods is
    called. *)
Inductive action :=
| Fire
| CallStop
| CallSchedule (delay : Q)
| CallStart (initial_delay : Q).

Definition perform (a : action) (self : TokenExpirationChecker)
    : M world TokenExpirationChecker :=
  match a with
  | Fire => _check_token self
  | CallStop => stop self
  | CallSchedule delay => _schedule_next_check delay self
  | CallStart initial_delay => start initial_delay self
  end.

Fixpoint perform_all (l : list action) (self : TokenExpirationChecker)
    : M world TokenExpirationChecker :=
  match l with
  | [] => ret self
  | a :: l' => self ← perform a self; perform_all l' self
  end.

End Token.

(** ** utils/logger.py *)

Module Logger.

(** The keys of [logging._nameToLevel]. *)
Definition level_names : list string :=
  ["CRITICAL"; "FATAL"; "ERROR"; "WARN"; "WARNING"; "INFO"; "DEBUG"; "NOTSET"].

(** [set_log_level]; the level of the logger itself is not kept, the trace
    records every call into it. *)
Definition set_log_level (log_level : jvalue) : M world unit :=
  name ← as_str log_level AttributeError;
  let log_level := Py.upper name in
  if bool_decide (log_level ∈ level_names) then ret tt
  else log WARNING ("Invalid log level: " ++ log_level
                    ++ " [DEBUG, INFO, WARNING, ERROR, CRITICAL], defaulting to 'INFO'").

End Logger.

(** ** main.py *)

Module Main.
Import Py.

Definition required_keys : list string :=
  ["appId"; "appSecret"; "voipnowHost"; "voipnowTokenFile"].
Definition allowed_keys : list string :=
  required_keys ++ ["authTokenMCP"; "logLevel"; "insecure"].

Definition TOKEN_CHECK_INTERVAL_SECONDS : Q := 300 # 1.
Definition INITIAL_TOKEN_CHECK_DELAY_SECONDS : Q := 10 # 1.

(** The attributes of a ConfigManager other than its lock. *)
Record manager := mkManager {
  config_file : string;
  config_data : gmap string jvalue;
  voipnow_token : option string;
  voipnow_config : gmap string jvalue;
  _token_checker : option Token.TokenExpirationChecker
}.

Record ConfigManager := mkConfigManager {
  lock : bool;
  attrs : manager
}.

(** [__init__], before its call of [load_config]. *)
Definition new_manager (config_file : string) : ConfigManager :=
  mkConfigManager false (mkManager config_file ∅ None ∅ None).

Definition with_config_data (d : gmap string jvalue) (m : manager) : manager :=
  mkManager (config_file m) d (voipnow_token m) (voipnow_config m) (_token_checker m).
Definition with_voipnow_token (t : option string) (m : manager) : manager :=
  mkManager (config_file m) (config_data m) t (voipnow_config m) (_token_checker m).
Definition with_voipnow_config (c : gmap string jvalue) (m : manager) : manager :=
  mkManager (config_file m) (config_data m) (voipnow_token m) c (_token_checker m).
Definition with_token_checker (c : option Token.TokenExpirationChecker) (m : manager)
    : manager :=
  mkManager (config_file m) (config_data m) (voipnow_token m) (voipnow_config m) c.

(** The code inside [with self.lock] runs on the attributes and the world. *)
Definition body (A : Type) : Type := M (manager * world) A.

Definition lift {A} (m : M world A) : body A :=
  λ '(self, w), let '(w', r) := m w in ((self, w'), r).
Definition self_get : body manager := λ '(self, w), ((self, w), Ok self).
Definition self_set (f : manager → manager) : body unit :=
  λ '(self, w), ((f self, w), Ok tt).

Definition logger (lvl : level) (msg : string) : body unit := lift (log lvl msg).

(** [not self.config_data] *)
Definition no_config (self : manager) : bool := bool_decide (config_data self = ∅).

(** [open(self.config_file)] and [json.load] *)
Definition read_config : body (gmap string jvalue) :=
  λ '(self, w),
    match config_source w with
    | ReadDoc doc => ((self, w), Ok doc)
    | ReadFails msg => ((self, w), Raise (OSError msg))
    | ReadNotJson msg => ((self, w), Raise (JSONDecodeError msg))
    end.

(** A check that is fatal on the first load and skips the reload later:
    [true] lets [load_config] go on, [false] is its early [return]. *)
Definition fatal_or_skip (bad : bool) (error_msg warning_msg : string) : body bool :=
  self ← self_get;
  if no_config self && bad then
    logger ERROR error_msg;;
    raise (ConfigurationError error_msg)
  else if bad then
    logger WARNING warning_msg;;
    ret false
  else ret true.

Section LoadConfig.

(** [args.secure] and the digest used by [check_config_change]. *)
Context (secure : bool) (fingerprint : jvalue → jvalue → jvalue → string).

(** The checks of [load_config] on the document just read, up to and
    including the one on [voipnowTokenFile]. *)
Definition check_document (new_config_mcp : gmap string jvalue) : body bool :=
  let missing_keys :=
    filter (λ key, new_config_mcp !! key = None) required_keys in
  go ← fatal_or_skip (negb (bool_decide (missing_keys = [])))
         ("Missing keys in config file during initial load: " ++ join ", " missing_keys)
         ("Skipping config reload due to missing keys: " ++ join ", " missing_keys);
  if negb go then ret false else
  let extra_keys :=
    filter (λ key, key ∉ allowed_keys) (map_to_list new_config_mcp).*1 in
  go ← fatal_or_skip (negb (bool_decide (extra_keys = [])))
         ("Extra keys in config file during initial load: " ++ join ", " extra_keys)
         ("Skipping config reload due to extra keys: " ++ join ", " extra_keys);
  if negb go then ret false else
  lift (Logger.set_log_level (get_default new_config_mcp "logLevel" (JStr "INFO")));;
  host ← as_str (get_default new_config_mcp "voipnowHost" (JStr "")) AttributeError;
  if negb (startswith host "https://") && negb (startswith host "http://") then
    let error_msg := "Invalid URL format. Please provide a valid URL in the format 'https://voipnow.com' or 'http://voipnow.com'." in
    logger ERROR error_msg;;
    raise (ConfigurationError error_msg)
  else
  go ← fatal_or_skip (secure && bool_decide (new_config_mcp !! "authTokenMCP" = None))
         "authTokenMCP is missing in config file. Please set authTokenMCP when using --secure flag."
         "Skipping config reload due to missing authTokenMCP.";
  if negb go then ret false else
  fatal_or_skip (bool_decide (new_config_mcp !! "voipnowTokenFile" = None))
    "voipnowTokenFile is missing in config file. Please set voipnowTokenFile."
    "Skipping config reload due to missing voipnowTokenFile.".

(** [new_config_mcp["insecure"] = v is True or v == "true"], when present *)
Definition normalize_insecure (new_config_mcp : gmap string jvalue)
    : gmap string jvalue :=
  match new_config_mcp !! "insecure" with
  | Some v =>
      <["insecure" := JBool (bool_decide (v = JBool true) || bool_decide (v = JStr "true"))]>
        new_config_mcp
  | None => new_config_mcp
  end.

(** Is a new token needed?  (The token file is missing, expiring or
    corrupted.) *)
Definition needs_regeneration (token_path : string) (config_changed : bool) : body bool :=
  present ← lift (Token.os_path_exists token_path);
  if negb present then
    when (negb config_changed)
         (logger DEBUG "Token file not found. Generating new token...");;
    ret true
  else
    try_except
      (expiring ← lift (Token.check_token token_path);
       if expiring then
         when (negb config_changed)
              (logger DEBUG "Token file expired. Generating new token...");;
         ret true
       else ret false)
      [CValueError]
      (λ _, logger WARNING "Token file corrupted, regenerating...";; ret true).

(** [start_token_expiration_check] *)
Definition start_token_expiration_check : body unit :=
  self ← self_get;
  match _token_checker self with
  | Some checker => lift (Token.stop checker);; ret tt
  | None => ret tt
  end;;
  let token_check_callback := log DEBUG "Token is still valid. Callback executed." in
  checker ← lift (Token.start INITIAL_TOKEN_CHECK_DELAY_SECONDS
                    (Token.new_checker (config_data self) TOKEN_CHECK_INTERVAL_SECONDS
                       (Some token_check_callback)));
  self_set (with_token_checker (Some checker)).

(** The token is read back and its last colon-separated part is kept. *)
Definition read_token (token_path : string) : body unit :=
  try_except
    (token_data ← lift (Token._safe_read_token_file token_path);
     self_set (with_voipnow_token (Some (last_item (split ":" token_data) ""))))
    [CValueError]
    (λ _, logger ERROR "Token file still invalid after regeneration";;
          raise (RuntimeError "Failed to generate valid token")).

(** The derived configuration read by the tools. *)
Definition derived_config (self : manager) : gmap string jvalue :=
  <["voipnowUrl" := get_default (config_data self) "voipnowHost" (JStr "")]>
    (<["voipnowToken" := from_option JStr JNull (voipnow_token self)]>
       (<["insecure" := get_default (config_data self) "insecure" (JBool false)]> ∅)).

(** The part of [load_config] after the checks: the new configuration is
    stored, the token is refreshed when needed and read, the derived
    configuration is published and the expiration check is restarted. *)
Definition install (new_config_mcp : gmap string jvalue) : body unit :=
  self_set (with_config_data (normalize_insecure new_config_mcp));;
  self ← self_get;
  let token_file_path := get_default (config_data self) "voipnowTokenFile" JNull in
  (if truthy token_file_path then
     token_file_path ← as_str token_file_path TypeError;
     let token_path := abspath token_file_path in
     let config_hash_file := token_path ++ ".config_hash" in
     config_changed ←
       lift (Token.check_config_change fingerprint (config_data self) config_hash_file);
     when config_changed
          (logger INFO "Authentication configuration changed. Token file deleted, generating new token...");;
     regenerate ← needs_regeneration token_path config_changed;
     when regenerate (lift (Token.generate_token (config_data self)));;
     read_token token_path
   else
     logger ERROR "Token file not specified in config.";;
     raise (ConfigurationError "Token file not specified in config."));;
  self ← self_get;
  self_set (with_voipnow_config (derived_config self));;
  logger INFO "Configuration reloaded.";;
  start_token_expiration_check.

(** [if not self.config_data: raise ConfigurationError(error_msg)] after the
    error has been logged. *)
Definition log_and_fail_if_first (error_msg : string) : body unit :=
  logger ERROR error_msg;;
  self ← self_get;
  when (no_config self) (raise (ConfigurationError error_msg)).

(** The [except] clause for [requests.exceptions.HTTPError]. *)
Definition on_http_error (e : exn) : body unit :=
  when (Token.is_invalid_client e)
       (log_and_fail_if_first "Invalid client credentials (appId/appSecret)");;
  log_and_fail_if_first "HTTP error: unknown".

(** The [except] clause for ValueError, KeyError and RuntimeError: on a
    token error one more token is requested and [load_config] calls
    itself. *)
Definition on_token_error (load_config : body unit) (e : exn) : body unit :=
  self ← self_get;
  retried ←
    (if contains (lower (exn_str e)) "token" && negb (no_config self) then
       try_except
         (logger WARNING "Token error detected, attempting to regenerate token...";;
          lift (Token.generate_token (config_data self));;
          load_config;;
          ret true)
         [CRequestException; COSError; CValueError]
         (λ regen_error,
           logger ERROR ("Failed to regenerate token: " ++ exn_name regen_error);;
           ret false)
     else ret false);
  if retried then ret tt
  else
    logger ERROR ("Error reloading config, continuing with previous configuration: "
                  ++ exn_name e);;
    self ← self_get;
    when (no_config self)
         (raise (ConfigurationError
                   ("Failed to load initial configuration: " ++ exn_name e))).

(** The [except] clauses of [load_config], in their order. *)
Definition handlers (load_config : body unit)
    : list (list exn_class * (exn → body unit)) :=
  [ ([CSSLError], λ e,
      log_and_fail_if_first ("SSL certificate verification failed: " ++ exn_str e));
    ([CHTTPError], on_http_error);
    ([CConnectionError], λ e,
      log_and_fail_if_first
        ("Connection error: Cannot connect to VoipNow server: " ++ exn_str e));
    ([CTimeout], λ _, log_and_fail_if_first "Token generation timed out");
    ([CRequestException], λ e,
      log_and_fail_if_first ("Token generation request failed: " ++ exn_name e));
    ([CValueError; CKeyError; CRuntimeError], on_token_error load_config);
    ([CConfigurationError], λ e, raise e);
    ([COSError; CJSONDecodeError], λ e,
      log_and_fail_if_first ("Failed to load configuration file: " ++ exn_name e)) ].

(** The [try] statement of [load_config]. *)
Definition load_config_body (load_config : body unit) : body unit :=
  try_clauses
    (new_config_mcp ← read_config;
     go ← check_document new_config_mcp;
     if go then install new_config_mcp else ret tt)
    (handlers load_config).

(** [with self.lock]: the lock is not reentrant, a holder that asks for it
    again waits for ever. *)
Definition with_lock {A} (critical : body A) : M (ConfigManager * world) A :=
  λ '(cm, w),
    if lock cm then ((cm, w), Hang)
    else
      match critical (attrs cm, w) with
      | ((self, w'), Hang) => ((mkConfigManager true self, w'), Hang)
      | ((self, w'), OutOfFuel) => ((mkConfigManager true self, w'), OutOfFuel)
      | ((self, w'), r) => ((mkConfigManager false self, w'), r)
      end.

(** A call of a method of the manager from inside [with self.lock]. *)
Definition from_inside {A} (method : M (ConfigManager * world) A) : body A :=
  λ '(self, w),
    let '((cm, w'), r) := method (mkConfigManager true self, w) in
    ((attrs cm, w'), r).

Definition enter : M (ConfigManager * world) unit :=
  λ '(cm, w), ((cm, emit EvEnterLoadConfig w), Ok tt).

(** [load_config], unfolded [fuel] times. *)
Fixpoint load_config_fuel (fuel : nat) : M (ConfigManager * world) unit :=
  match fuel with
  | O => λ s, (s, OutOfFuel)
  | S fuel' =>
      enter;;
      with_lock (load_config_body (from_inside (load_config_fuel fuel')))
  end.

(** [load_config]: one call and the call it can make of itself. *)
Definition load_config : M (ConfigManager * world) unit := load_config_fuel 2.

(** [get_config] *)
Definition get_config : M (ConfigManager * world) manager := with_lock self_get.

(** *** ConfigFileHandler *)

(** [reload_calls] is not an attribute of the source: it counts the calls
    of [load_config] that [on_modified] has made. *)
Record ConfigFileHandler := mkHandler {
  last_reload_time : gmap string Q;
  reload_calls : nat
}.

Definition watcher (A : Type) : Type :=
  M (ConfigFileHandler * (ConfigManager * world)) A.

Definition on_manager {A} (m : M (ConfigManager * world) A) : watcher A :=
  λ '(h, s), let '(s', r) := m s in ((h, s'), r).

Definition time_time : watcher Q := λ '(h, (cm, w)), ((h, (cm, w)), Ok (clock w)).

Definition time_sleep (seconds : Q) : watcher unit :=
  λ '(h, (cm, w)), ((h, (cm, set_clock (clock w + seconds)%Q w)), Ok tt).

(** [on_modified] *)
Definition on_modified (src_path : string) : watcher unit :=
  let modified_path := abspath src_path in
  current ← on_manager get_config;
  let current_config := config_data current in
  token_path ←
    (match current_config !! "voipnowTokenFile" with
     | Some v =>
         if truthy v then
           token_file_path ← as_str v TypeError;
           ret (Some (abspath token_file_path))
         else ret None
     | None => ret None
     end : watcher (option string));
  let config_path := config_file current in
  if String.eqb modified_path config_path
     || from_option (String.eqb modified_path) false token_path
  then
    current_time ← time_time;
    '(h, _) ← get;
    let debounced :=
      match last_reload_time h !! modified_path with
      | Some last => negb (Qle_bool 1 (current_time - last))
      | None => false
      end in
    if debounced then ret tt
    else
      modify (λ '(h, s),
                (mkHandler (<[modified_path := current_time]> (last_reload_time h))
                   (reload_calls h), s));;
      time_sleep (1 # 10);;
      on_manager (λ '(cm, w),
                    ((cm, emit (EvLog INFO "Config or token file changed, reloading...") w),
                     Ok tt));;
      modify (λ '(h, s), (mkHandler (last_reload_time h) (S (reload_calls h)), s));;
      on_manager load_config
  else ret tt.

(** The observer thread: each event is handled at the time it carries; the
    thread ends when a handler raises and stays blocked when one blocks. *)
Fixpoint dispatch_events (events : list (string * Q)) : watcher unit :=
  match events with
  | [] => ret tt
  | (src_path, t) :: rest =>
      modify (λ '(h, (cm, w)), (h, (cm, set_clock t w)));;
      on_modified src_path;;
      dispatch_events rest
  end.

End LoadConfig.

End Main.

(** ** main.py: the dispatch of tool calls *)

Module Dispatch.
Import Py Main.

(** A tool handler, applied to the arguments and the derived
    configuration: the text it returns, or the exception it raises. *)
Definition ToolHandler : Type :=
  gmap string jvalue → gmap string jvalue → world → world * (exn + string).

(** How a call of [call_tool] ends.  [RaisesNameError] is the NameError
    that the evaluation of an unbound name raises. *)
Inductive tool_outcome :=
| Returns (content : string)
| Raises (e : exn)
| RaisesNameError (name : string)
| Blocks.

(** What an [except] clause names: exception classes, or a name that the
    module does not bind. *)
Inductive clause_head :=
| Classes (matches : exn → bool)
| Unbound (name : string).

(** The first clause whose classes match runs; a head that cannot be
    evaluated raises NameError when the search reaches it. *)
Fixpoint except_clauses
    (clauses : list (clause_head * (exn → world → world * tool_outcome)))
    (e : exn) (w : world) : world * tool_outcome :=
  match clauses with
  | [] => (w, Raises e)
  | (Unbound name, _) :: _ => (w, RaisesNameError name)
  | (Classes matches, handler) :: rest =>
      if matches e then handler e w else except_clauses rest e w
  end.

Definition log_and_raise (msg : string) (e : exn) (w : world) : world * tool_outcome :=
  (emit (EvLog ERROR msg) w, Raises e).

(** The [except] clauses of [call_tool].  main.py neither imports nor
    defines ValidationError. *)
Definition tool_clauses (name : string)
    : list (clause_head * (exn → world → world * tool_outcome)) :=
  [ (Unbound "ValidationError", λ exc,
      log_and_raise ("Tool '" ++ name ++ "' validation failed: " ++ exn_str exc)
        (ValueError ("Invalid arguments for tool '" ++ name ++ "'")));
    (Classes (λ e, isinstance e CKeyError
                   || match e with AttributeError => true | _ => false end), λ exc,
      log_and_raise ("Tool '" ++ name ++ "' configuration error: " ++ exn_str exc)
        (ValueError ("Tool '" ++ name ++ "' misconfigured")));
    (Classes (λ e, isinstance e CTimeout), λ _,
      log_and_raise ("Tool '" ++ name ++ "' timed out")
        (RuntimeError ("Tool '" ++ name ++ "' timed out")));
    (Classes (λ e, isinstance e CRequestException), λ exc,
      log_and_raise ("Tool '" ++ name ++ "' network request failed: " ++ exn_name exc)
        (RuntimeError ("Failed to execute '" ++ name ++ "': Network error")));
    (Classes (λ e, isinstance e CValueError), λ exc,
      log_and_raise ("Tool '" ++ name ++ "' value error: " ++ exn_str exc) exc);
    (Classes (λ _, true), λ exc,
      log_and_raise ("Tool '" ++ name ++ "' unexpected error: " ++ exn_name exc
                     ++ ": " ++ exn_str exc)
        (RuntimeError ("Tool '" ++ name ++ "' failed unexpectedly"))) ].

(** [call_tool]; [TOOL_HANDLERS] is the dictionary built when the module is
    loaded. *)
Definition call_tool (TOOL_HANDLERS : gmap string ToolHandler)
    (name : string) (arguments : gmap string jvalue)
    : ConfigManager * world → (ConfigManager * world) * tool_outcome :=
  λ s,
    match get_config s with
    | ((cm, w), Ok config) =>
        let voipnow_config := voipnow_config config in
        match TOOL_HANDLERS !! name with
        | None =>
            ((cm, emit (EvLog ERROR ("Tool not found: " ++ name)) w),
             Raises (ValueError ("Tool not found: " ++ name)))
        | Some handler =>
            match handler arguments voipnow_config w with
            | (w', inr content) => ((cm, w'), Returns content)
            | (w', inl e) =>
                let (w'', r) := except_clauses (tool_clauses name) e w' in ((cm, w''), r)
            end
        end
    | (s', Raise e) => (s', Raises e)
    | (s', _) => (s', Blocks)
    end.

End Dispatch.

(** ** utils/server.py: the log filter *)

Module Server.
Import Py.

(** The fields of a log record that the filter reads: [exc_info] is absent
    or empty, or holds the text of [str(exc_info[0])], absent when the
    type is None. *)
Record LogRecord := mkRecord {
  levelno : Z;
  exc_info : option (option string);
  getMessage : string
}.

Definition ERROR_LEVEL : Z := 40.

(** [ClosedResourceErrorFilter.filter] *)
Definition filter (record : LogRecord) : bool :=
  if levelno record >=? ERROR_LEVEL then
    if match exc_info record with
       | Some (Some exc_type) => contains exc_type "ClosedResourceError"
       | _ => false
       end
    then false
    else if contains (getMessage record) "ClosedResourceError" then false
    else true
  else true.

End Server.

(** ** auth/auth.py *)

Module Auth.
Import Py.

Definition AUTH_TYPE : string := "bearer".

(** The first word of a string that does not start with white space, and
    what follows it. *)
Fixpoint first_word (s : string) : string * string :=
  match s with
  | EmptyString => (EmptyString, EmptyString)
  | String a s' =>
      if isspace a then (EmptyString, s)
      else let (word, rest) := first_word s' in (String a word, rest)
  end.

(** [s.split(maxsplit=1)]: the first word and, when something other than
    white space follows it, the rest of the string from there on. *)
Definition split_once (s : string) : list string :=
  match lstrip s with
  | EmptyString => []
  | s1 =>
      let (word, rest) := first_word s1 in
      match lstrip rest with
      | EmptyString => [word]
      | rest' => [word; rest']
      end
  end.

(** [get_auth_token]: the value of authTokenMCP in the configuration file,
    or None; every failure is logged and gives None. *)
Definition get_auth_token (file_path : string) : world → world * option jvalue :=
  λ w,
    let w := emit (EvLog DEBUG ("Reading auth token from " ++ file_path)) w in
    match config_source w with
    | ReadDoc config_data =>
        match config_data !! "authTokenMCP" with
        | Some v =>
            if truthy v then (w, Some v)
            else (emit (EvLog ERROR "AUTH TOKEN not found in .config file") w, None)
        | None =>
            (emit (EvLog ERROR ("Error reading token from file: "
                                ++ exn_str (KeyError "authTokenMCP"))) w, None)
        end
    | ReadFails msg =>
        (emit (EvLog ERROR ("Error reading token from file: " ++ msg)) w, None)
    | ReadNotJson msg =>
        (emit (EvLog ERROR ("Error reading token from file: " ++ msg)) w, None)
    end.

Record BasicAuthBackend := mkBackend { config_file : string }.

(** What [authenticate] gives: the credentials and the user, or the
    exception AuthenticationError("Unauthorized"). *)
Inductive verdict :=
| Authenticated (scopes : list string) (username : string)
| Unauthorized.

Definition reject (msg : string) (w : world) : world * verdict :=
  (emit (EvLog ERROR msg) w, Unauthorized).

(** [authenticate]; [authorization] is [conn.headers.get("Authorization")]. *)
Definition authenticate (self : BasicAuthBackend) (authorization : option string)
    : world → world * verdict :=
  λ w,
    match authorization with
    | None => reject "Authorization header is missing" w
    | Some auth =>
        if String.eqb auth "" then reject "Authorization header is missing" w
        else
          match split_once auth with
          | [scheme; credentials] =>
              if negb (String.eqb (lower scheme) AUTH_TYPE) then
                reject ("Invalid Authorization scheme: " ++ scheme) w
              else
                let (w, safe_token) := get_auth_token (config_file self) w in
                match safe_token with
                | None => reject "No stored token found" w
                | Some token =>
                    if negb (bool_decide (JStr credentials = token)) then
                      reject "Invalid token provided" w
                    else (emit (EvLog DEBUG "Token is valid") w,
                          Authenticated ["authenticated"] "")
                end
          | _ => reject "Invalid Authorization header format - cannot split" w
          end
    end.

End Auth.

(** ** utils/utils.py: requests to the SOAP service *)

Module Utils.
Import Py.

(** A Python dict whose keys are strings: its items in insertion order,
    the keys distinct. *)
Definition dict (V : Type) : Type := list (string * V).

(** [d.get(k)] *)
Fixpoint dict_get {V} (d : dict V) (k : string) : option V :=
  match d with
  | [] => None
  | (k', v) :: rest => if String.eqb k' k then Some v else dict_get rest k
  end.

(** [d[k] = v]: a key that is there keeps its place. *)
Fixpoint dict_set {V} (d : dict V) (k : string) (v : V) : dict V :=
  match d with
  | [] => [(k, v)]
  | (k', v') :: rest =>
      if String.eqb k' k then (k, v) :: rest else (k', v') :: dict_set rest k v
  end.

(** [sorted(set(l))] for strings *)
Fixpoint insert_sorted (x : string) (l : list string) : list string :=
  match l with
  | [] => [x]
  | y :: rest =>
      if String.eqb x y then l
      else if String.ltb x y then x :: l
      else y :: insert_sorted x rest
  end.
Definition sorted_set (l : list string) : list string :=
  fold_right insert_sorted [] l.

(** [str(l)] for a list of strings that are printable and have neither a
    quote nor a backslash *)
Definition repr_list (l : list string) : string :=
  "[" ++ join ", " (map (λ s, "'" ++ s ++ "'") l) ++ "]".

(** One call of a method of the SOAP service. *)
Record soap_call := mkCall {
  wsdl_url : string;
  verify : bool;
  method_called : string;
  positional : list string;
  parameters : dict jvalue;
  accessToken : jvalue
}.

(** The service and what has been asked of it: the operations that the WSDL
    at a URL declares (or the failure to load it), the serialized body of
    the answer to a call (or the exception of the call), the calls made,
    most recent first, and the debug messages. *)
Record soap := mkSoap {
  wsdl : string → exn + list string;
  answer : soap_call → exn + string;
  sent : list soap_call;
  debug : list string
}.

Section Vars.

(** [vars.SCHEMA_NAME] (entity to schema) and [vars.METHOD_NAME] (entity to
    method type to method), of a module that is not among the sources. *)
Context (SCHEMA_NAME : dict string) (METHOD_NAME : dict (dict string)).

(** [{vars.SCHEMA_NAME.get(entity): entity for entity in vars.SCHEMA_NAME}] *)
Definition schema_to_entity : dict string :=
  fold_left (λ acc '(entity, schema), dict_set acc schema entity) SCHEMA_NAME [].

(** The methods allowed for an entity type. *)
Definition allowed_methods (entity_type : string) : list string :=
  match dict_get METHOD_NAME entity_type with
  | Some methods => methods.*2
  | None => []
  end.

(** [_validate_soap_method] *)
Definition _validate_soap_method {S} (schema method : string) : M S unit :=
  match dict_get schema_to_entity schema with
  | None => raise (ValueError ("Unknown schema: " ++ schema))
  | Some entity_type =>
      if String.eqb entity_type "" then raise (ValueError ("Unknown schema: " ++ schema))
      else if bool_decide (method ∈ allowed_methods entity_type) then ret tt
      else raise (ValueError ("Method '" ++ method ++ "' not allowed for schema '" ++ schema
                              ++ "'. Allowed methods: "
                              ++ repr_list (sorted_set (allowed_methods entity_type))))
  end.

(** What [create_soap_client] gives: the URL of the WSDL, whether the
    session verifies certificates, and the operations of the service. *)
Record client := mkClient {
  client_url : string;
  client_verify : bool;
  operations : list string
}.

(** [create_soap_client], with [create_soap_session] *)
Definition create_soap_client (config : gmap string jvalue) (schema : string)
    : M soap client :=
  if negb (bool_decide (is_Some (dict_get schema_to_entity schema))) then
    raise (ValueError ("Invalid schema: " ++ schema ++ ". Must be one of "
                       ++ repr_list (schema_to_entity.*1)))
  else
    let verify := negb (truthy (get_default config "insecure" (JBool false))) in
    url ← item config "voipnowUrl";
    url ← as_str url TypeError;
    let wsdl_url := url ++ "/soap2/schema/latest/" ++ schema in
    net ← get;
    match wsdl net wsdl_url with
    | inl e => raise e
    | inr ops => ret (mkClient wsdl_url verify ops)
    end.

(** [create_auth_header]: the token that the header carries *)
Definition create_auth_header {S} (config : gmap string jvalue) : M S jvalue :=
  url ← item config "voipnowUrl";
  _ ← as_str url TypeError;
  item config "voipnowToken".

(** The methods that are called with an empty string when there is no
    parameter. *)
Definition wants_empty_string : list string :=
  ["GetPhoneLang"; "GetInterfaceLang"; "GetEquipmentList"; "GetSchemaVersions"].

(** The call of the service method, and the body of its answer as JSON
    text. *)
Definition invoke (call : soap_call) : M soap string :=
  λ net,
    let net' := mkSoap (wsdl net) (answer net) (call :: sent net) (debug net) in
    match answer net call with
    | inl e => (net', Raise e)
    | inr body => (net', Ok body)
    end.

(** The parameters of the request: the arguments whose key is allowed and
    whose value is not None.  [allowed_arguments] is None when the caller
    gives none. *)
Definition select_parameters {S} (arguments : dict jvalue)
    (allowed_arguments : option (list string)) : M S (dict jvalue) :=
  match arguments, allowed_arguments with
  | [], _ => ret []
  | _, None => raise TypeError
  | _, Some allowed =>
      ret (filter (λ item, item.1 ∈ allowed ∧ item.2 ≠ JNull) arguments)
  end.

(** [make_soap_request].  The debug message is kept without its
    parameters. *)
Definition make_soap_request (config : gmap string jvalue) (schema method : string)
    (arguments : dict jvalue) (allowed_arguments : option (list string)) : M soap string :=
  _validate_soap_method schema method;;
  client ← create_soap_client config schema;
  parameters ← select_parameters arguments allowed_arguments;
  modify (λ net, mkSoap (wsdl net) (answer net) (sent net)
                   (("Parameters used for method " ++ method ++ " with schema " ++ schema)
                    :: debug net));;
  if negb (bool_decide (method ∈ operations client)) then
    raise (ValueError ("Method '" ++ method ++ "' not found in SOAP service for schema '"
                       ++ schema ++ "'"))
  else
    token ← create_auth_header config;
    let pos := match parameters with
               | [] => if bool_decide (method ∈ wants_empty_string) then [""] else []
               | _ => []
               end in
    invoke (mkCall (client_url client) (client_verify client) method pos parameters token).

(** [jsonschema.validate]: the message of the ValidationError, if any. *)
Context {Schema : Type} (validate : dict jvalue → Schema → option string).

(** [_execute_operation]: the text of the answer. *)
Definition _execute_operation (arguments : dict jvalue) (config : gmap string jvalue)
    (method_type : string) (allowed_keys : list string) (inputSchema : Schema)
    (operation_type : string) : M soap string :=
  match validate arguments inputSchema with
  | Some message => raise (ValueError ("Invalid input: " ++ message))
  | None =>
      match dict_get SCHEMA_NAME operation_type with
      | None => raise (KeyError operation_type)
      | Some schema =>
          match dict_get METHOD_NAME operation_type with
          | None => raise (KeyError operation_type)
          | Some methods =>
              match dict_get methods method_type with
              | None => raise (KeyError method_type)
              | Some method =>
                  make_soap_request config schema method arguments (Some allowed_keys)
              end
          end
      end
  end.

End Vars.

End Utils.

(** ** utils/tool_registry.py: the discovery of tools *)

Module Registry.
Import Py.

(** [s.removeprefix(p)] when [s] starts with [p] *)
Fixpoint strip_prefix (p s : string) : option string :=
  match p with
  | EmptyString => Some s
  | String a p' =>
      match s with
      | EmptyString => None
      | String b s' => if Ascii.eqb a b then strip_prefix p' s' else None
      end
  end.

(** The end of a match of [$]: a newline that ends the string is left
    out. *)
Fixpoint drop_final_newline (s : string) : string :=
  match s with
  | EmptyString => EmptyString
  | String a s' =>
      match s' with
      | EmptyString => if Ascii.eqb a "010" then EmptyString else s
      | _ => String a (drop_final_newline s')
      end
  end.

(** [[a-z_]] *)
Definition name_char (c : ascii) : bool :=
  let n := nat_of_ascii c in ((97 <=? n) && (n <=? 122))%nat || Ascii.eqb c "_".

(** [[a-z_]+] *)
Definition segment_ok (s : string) : bool :=
  negb (String.eqb s "") && all_chars name_char s.

(** [re.match(r'^tools\.[a-z_]+(?:\.[a-z_]+)*$', modname)] *)
Definition module_name_ok (modname : string) : bool :=
  match strip_prefix "tools." modname with
  | Some rest => forallb segment_ok (split "." (drop_final_newline rest))
  | None => false
  end.

Section Tools.

(** The JSON schema of the input of a tool, and the handler functions. *)
Context {Schema Handler : Type}.

(** [types.Tool] *)
Record Tool := mkTool {
  name : string;
  description : string;
  inputSchema : Schema
}.

(** The entries of a tool configuration that the registry reads; each is
    absent, or a string, a string and a schema. *)
Record tool_config := mkToolConfig {
  tool_name : option string;
  tool_description : option string;
  input_schema : option Schema
}.

(** An attribute of a module, as [callable] sees it. *)
Inductive attribute :=
| Function (handler : Handler)
| NotCallable.

(** The attribute TOOL_REGISTRY of a module: absent, not a dict, or the
    items of the dict in their order. *)
Inductive registry_attribute :=
| NoRegistry
| NotADict
| Items (items : list (string * tool_config)).

Record module_ := mkModule {
  TOOL_REGISTRY : registry_attribute;
  attributes : gmap string attribute
}.

(** What [pkgutil.iter_modules] finds in a package, and what importing it
    gives: a module, or a package with what it holds.  [None] and [false]
    stand for an import that raises. *)
#[local] Unset Elimination Schemes.
Inductive node :=
| ModuleFile (short_name : string) (imported : option module_)
| Package (short_name : string) (imported : bool) (children : list node).
#[local] Set Elimination Schemes.

Record DynamicToolRegistry := mkRegistry {
  tools_package_path : string;
  tool_schemas : list Tool;
  tool_handlers : gmap string Handler;
  _discovered_modules : gset string;
  messages : list (level * string)
}.

(** [__init__] *)
Definition new_registry (tools_package_path : string) : DynamicToolRegistry :=
  mkRegistry tools_package_path [] ∅ ∅ [].

Definition say (lvl : level) (msg : string) (self : DynamicToolRegistry)
    : DynamicToolRegistry :=
  mkRegistry (tools_package_path self) (tool_schemas self) (tool_handlers self)
    (_discovered_modules self) ((lvl, msg) :: messages self).
Definition add_schema (t : Tool) (self : DynamicToolRegistry) : DynamicToolRegistry :=
  mkRegistry (tools_package_path self) (tool_schemas self ++ [t]) (tool_handlers self)
    (_discovered_modules self) (messages self).
Definition set_handler (k : string) (h : Handler) (self : DynamicToolRegistry)
    : DynamicToolRegistry :=
  mkRegistry (tools_package_path self) (tool_schemas self) (<[k := h]> (tool_handlers self))
    (_discovered_modules self) (messages self).
Definition add_module (modname : string) (self : DynamicToolRegistry)
    : DynamicToolRegistry :=
  mkRegistry (tools_package_path self) (tool_schemas self) (tool_handlers self)
    ({[modname]} ∪ _discovered_modules self) (messages self).

(** [_create_tool_schema]: the tool, or the key of the KeyError. *)
Definition _create_tool_schema (cfg : tool_config) : string + Tool :=
  match tool_name cfg with
  | None => inl "tool_name"
  | Some name =>
      match tool_description cfg with
      | None => inl "tool_description"
      | Some description =>
          match input_schema cfg with
          | None => inl "input_schema"
          | Some schema => inr (mkTool name description schema)
          end
      end
  end.

(** One round of the loop of [_process_module]. *)
Definition process_tool (module : module_) (module_name : string)
    (self : DynamicToolRegistry) (entry : string * tool_config) : DynamicToolRegistry :=
  let (tool_func_name, cfg) := entry in
  match _create_tool_schema cfg with
  | inl key =>
      say DEBUG ("Error processing tool '" ++ tool_func_name ++ "' in " ++ module_name
                 ++ ": " ++ exn_str (KeyError key)) self
  | inr schema =>
      let self := add_schema schema self in
      match attributes module !! tool_func_name with
      | Some (Function handler_func) =>
          let tool_name := default tool_func_name (tool_name cfg) in
          say DEBUG ("Registered tool: " ++ tool_name ++ " (handler: " ++ tool_func_name ++ ")")
            (set_handler tool_name handler_func self)
      | _ =>
          say DEBUG ("Handler function '" ++ tool_func_name ++ "' not found in "
                     ++ module_name) self
      end
  end.

(** [_process_module] *)
Definition _process_module (module : module_) (module_name : string)
    (self : DynamicToolRegistry) : DynamicToolRegistry :=
  match TOOL_REGISTRY module with
  | Items items =>
      fold_left (process_tool module module_name) items
        (say DEBUG ("Processing tools from module: " ++ module_name) self)
  | _ => self
  end.

(** One round of the loop of [_walk_package], for the package
    [package_name].  The text of the exception of a failed import is left
    out of the message. *)
Fixpoint walk (package_name : string) (n : node) (self : DynamicToolRegistry)
    {struct n} : DynamicToolRegistry :=
  match n with
  | ModuleFile short_name imported =>
      let modname := package_name ++ "." ++ short_name in
      if negb (module_name_ok modname) then
        say WARNING ("Skipping suspicious module name: " ++ modname) self
      else
        match imported with
        | None => say DEBUG ("Could not import module '" ++ modname ++ "'") self
        | Some module => _process_module module modname (add_module modname self)
        end
  | Package short_name imported children =>
      let modname := package_name ++ "." ++ short_name in
      if negb (module_name_ok modname) then
        say WARNING ("Skipping suspicious module name: " ++ modname) self
      else if imported then
        fold_left (λ self child, walk modname child self) children (add_module modname self)
      else say DEBUG ("Could not import module '" ++ modname ++ "'") self
  end.

(** [_walk_package] *)
Definition _walk_package (package_name : string) (found : list node)
    (self : DynamicToolRegistry) : DynamicToolRegistry :=
  fold_left (λ self child, walk package_name child self) found self.

(** [discover_and_register_tools]; [tools_package] is what the import of
    the tools package gives, [None] when it raises ImportError, which is
    raised again. *)
Definition discover_and_register_tools (tools_package : option (list node))
    (self : DynamicToolRegistry) : option DynamicToolRegistry :=
  let self := mkRegistry (tools_package_path self) [] ∅ ∅ (messages self) in
  match tools_package with
  | None => None
  | Some found =>
      let self := _walk_package (tools_package_path self) found self in
      Some (say DEBUG ("Dynamically discovered "
                       ++ str_of_int (Z.of_nat (length (tool_schemas self)))
                       ++ " tools from "
                       ++ str_of_int (Z.of_nat (size (_discovered_modules self)))
                       ++ " modules") self)
  end.

(** [get_tool_handler]: the handler, or the KeyError. *)
Definition get_tool_handler (tool_name : string) (self : DynamicToolRegistry)
    : exn + Handler :=
  match tool_handlers self !! tool_name with
  | Some handler => inr handler
  | None => inl (KeyError ("Tool '" ++ tool_name ++ "' not found in registry"))
  end.

End Tools.

Arguments Tool : clear implicits.
Arguments tool_config : clear implicits.
Arguments attribute : clear implicits.
Arguments module_ : clear implicits.
Arguments node : clear implicits.
Arguments registry_attribute : clear implicits.
Arguments DynamicToolRegistry : clear implicits.

End Registry.

(** ** The credential record and counters over traces *)

Record Credential := mkCredential {
  issuedAt : Z;
  expiresAt : Z;
  secret : string
}.

(** The line that [generate_token] writes for a credential. *)
Definition token_line (c : Credential) : string :=
  Py.str_of_int (issuedAt c) ++ ":" ++ Py.str_of_int (expiresAt c) ++ ":" ++ secret c.

(** The fields of the stored credential as the program reads them back: the
    expiry as [get_expiration_timestamp] does, the secret as [load_config]
    does.  No function of the source reads the first field; it is decoded
    here the way the second is. *)
Definition load_credential (token_file_path : string) : M world Credential :=
  token_data ← Token._safe_read_token_file token_file_path;
  let parts := Py.split ":" token_data in
  issued ← Token.parse_int (default "" (head parts));
  expires ← Token.get_expiration_timestamp token_file_path;
  ret (mkCredential issued expires (Py.last_item parts "")).

(** The line kept by a read: the white space at the end is dropped. *)
Definition stripped_line (c : Credential) : string :=
  Py.str_of_int (issuedAt c) ++ ":" ++ Py.str_of_int (expiresAt c) ++ ":"
  ++ Py.rstrip (secret c).

(** The address to which [generate_token] sends its request. *)
Definition token_url (host : string) : string :=
  (if Py.startswith host "https://" then host else "https://" ++ host)
  ++ "/oauth/token.php".

(** The world after the POST request of [generate_token]. *)
Definition posted (cfg : gmap string jvalue) (url : string) (w : world) : world :=
  next_post
    (emit (EvPost url (get_default cfg "appId" JNull) (get_default cfg "appSecret" JNull)
             (negb (truthy (get_default cfg "insecure" (JBool false))))) w).

(** The conditions on a configuration document. *)
Definition required_present (doc : gmap string jvalue) : Prop :=
  ∀ k, k ∈ Main.required_keys → is_Some (doc !! k).
Definition no_extra_keys (doc : gmap string jvalue) : Prop :=
  ∀ k, is_Some (doc !! k) → k ∈ Main.allowed_keys.
Definition valid_host (doc : gmap string jvalue) : Prop :=
  ∃ host, doc !! "voipnowHost" = Some (JStr host)
          ∧ (Py.startswith host "http://" = true ∨ Py.startswith host "https://" = true).
Definition log_level_is_text (doc : gmap string jvalue) : Prop :=
  ∀ v, doc !! "logLevel" = Some v → ∃ name, v = JStr name.
Definition auth_token_present (secure : bool) (doc : gmap string jvalue) : Prop :=
  secure = true → is_Some (doc !! "authTokenMCP").

(** The paths whose modification [on_modified] reacts to: the configuration
    file and the token file of the current configuration. *)
Definition watched (cm : Main.ConfigManager) (path : string) : Prop :=
  ∃ token_file,
    Main.config_data (Main.attrs cm) !! "voipnowTokenFile" = Some (JStr token_file)
    ∧ (path = Main.config_file (Main.attrs cm)
       ∨ (path = token_file ∧ token_file ≠ "")).

(** The fingerprint that [check_config_change] computes for a
    configuration. *)
Definition current_hash (fingerprint : jvalue → jvalue → jvalue → string)
    (cfg : gmap string jvalue) : string :=
  fingerprint (get_default cfg "appId" (JStr "")) (get_default cfg "appSecret" (JStr ""))
    (get_default cfg "voipnowHost" (JStr "")).

(** The world after [check_config_change] has found another fingerprint
    and deleted the token file [p]. *)
Definition after_change (hash : string) (p : string) (w : world) : world :=
  emit (EvRemove p)
    (set_fs (delete p)
       (set_fs (λ f, <[p ++ ".config_hash" := hash]> (delete ((p ++ ".config_hash") ++ ".tmp") f))
          (set_fs (<[(p ++ ".config_hash") ++ ".tmp" := hash]>) w))).

(** The message of the URL check of [load_config]. *)
Definition invalid_url : string :=
  "Invalid URL format. Please provide a valid URL in the format 'https://voipnow.com' or 'http://voipnow.com'.".

(** A success reply with expires_in and without access_token. *)
Definition lacks_access_token (r : reply) : Prop :=
  match r with
  | Reply200 (Some _) None => True
  | _ => False
  end.

Definition is_post (e : event) : bool :=
  match e with EvPost _ _ _ _ => true | _ => false end.
Definition is_timer_start (e : event) : bool :=
  match e with EvTimerStart _ => true | _ => false end.
Definition is_enter (e : event) : bool :=
  match e with EvEnterLoadConfig => true | _ => false end.
Definition is_remove (path : string) (e : event) : bool :=
  match e with EvRemove p => String.eqb p path | _ => false end.

Definition count (f : event → bool) (w : world) : nat :=
  length (List.filter f (trace w)).

(** Events that are neither a request nor the removal of a file. *)
Definition silent (e : event) : bool :=
  match e with
  | EvLog _ _ | EvTimerStart _ | EvTimerCancel | EvEnterLoadConfig => true
  | EvPost _ _ _ _ | EvRemove _ => false
  end.

(** [w'] is [w] after some silent events. *)
Definition quiet (w w' : world) : Prop :=
  ∃ evs, forallb silent evs = true
         ∧ w' = mkWorld (clock w) (fs w) (config_source w) (issuer w) (posts w)
                  (evs ++ trace w)%list.

(** The exceptions of a token request that the handlers of [load_config]
    log without asking for a token again. *)
Definition benign (e : exn) : Prop :=
  match e with
  | SSLError | HTTPError _ _ | ConnectionError | Timeout | RequestException => True
  | KeyError key => key = "expires_in"
  | _ => False
  end.

(** ** Further notions *)

(** The messages of the ValueError of [_safe_read_token_file]. *)
Definition safe_read_failures : list string :=
  ["Failed to read token file: FileNotFoundError"; "Token file is empty";
   "Invalid token format: expected 3 colon-separated parts, got 1";
   "Invalid token format: expected 3 colon-separated parts, got 2"].

(** The delays of the timers started so far, most recent first. *)
Definition timer_delays (w : world) : list Q :=
  omap (λ e, match e with EvTimerStart d => Some d | _ => None end) (trace w).

(** Between [w] and [w'] no timer was started, or one whose delay is
    positive and at most [i]. *)
Definition at_most_one_timer (i : Q) (w w' : world) : Prop :=
  timer_delays w' = timer_delays w
  ∨ ∃ d, timer_delays w' = d :: timer_delays w ∧ (0 < d)%Q ∧ (d <= i)%Q.

(** A callback that starts no timer. *)
Definition starts_no_timer (cb : M world unit) : Prop :=
  ∀ w, timer_delays (fst (cb w)) = timer_delays w.

(** A callback that logs and returns, as the one of main.py does. *)
Definition logs_only (cb : M world unit) : Prop :=
  ∀ w, ∃ w', cb w = (w', Ok tt) ∧ quiet w w'.

(** The exception that [requests.post] and [raise_for_status] raise for a
    reply that is not a success. *)
Definition failure_of (r : reply) : option exn :=
  match r with
  | Reply200 _ _ => None
  | ReplyError status_code body => Some (HTTPError status_code body)
  | NoReplySSL => Some SSLError
  | NoReplyConnection => Some ConnectionError
  | NoReplyTimeout => Some Timeout
  | NoReplyOther => Some RequestException
  end.

(** A JSON value that is not a string. *)
Definition not_text (v : jvalue) : Prop :=
  match v with
  | JStr _ => False
  | _ => True
  end.

(** White space only. *)
Definition blank (s : string) : Prop := Py.all_chars Py.isspace s = true.

(** A word: not empty, no white space in it. *)
Definition word (s : string) : Prop :=
  s ≠ "" ∧ Py.all_chars (λ a, negb (Py.isspace a)) s = true.

(** The string does not start with white space. *)
Definition starts_plain (s : string) : Prop :=
  match s with
  | EmptyString => False
  | String a _ => Py.isspace a = false
  end.

(** [needle] occurs in [hay]. *)
Definition occurs_in (needle hay : string) : Prop :=
  ∃ before after, hay = before ++ needle ++ after.

(** Every registered handler is registered under the name of a listed
    tool. *)
Definition handlers_are_listed {Schema Handler}
    (self : Registry.DynamicToolRegistry Schema Handler) : Prop :=
  ∀ tool_name handler,
    Registry.tool_handlers self !! tool_name = Some handler →
    ∃ tool, tool ∈ Registry.tool_schemas self ∧ Registry.name tool = tool_name.

(** Nothing has been found. *)
Definition nothing_registered {Schema Handler}
    (self : Registry.DynamicToolRegistry Schema Handler) : Prop :=
  Registry.tool_schemas self = [] ∧ Registry.tool_handlers self = ∅
  ∧ Registry._discovered_modules self = ∅.

(** ** Concrete configurations and worlds *)

Module Scenario.

(** The configuration of the scenario of the specification. *)
Definition doc1 : gmap string jvalue :=
  <["appId" := JStr "A1"]>
    (<["appSecret" := JStr "S1"]>
       (<["voipnowHost" := JStr "https://pbx.example.com"]>
          (<["voipnowTokenFile" := JStr "/tmp/tok"]> ∅))).

Definition doc1_http : gmap string jvalue :=
  <["voipnowHost" := JStr "http://pbx.example.com"]> doc1.

(** A digest that can be computed: the three values side by side. *)
Definition text (v : jvalue) : string :=
  match v with
  | JStr s => s
  | JNum n => Py.str_of_int n
  | JBool true => "True"
  | JBool false => "False"
  | JNull => "None"
  end.
Definition fingerprint (a b c : jvalue) : string :=
  text a ++ "|" ++ text b ++ "|" ++ text c.

Definition grants (access_token : string) : nat → reply :=
  λ _, Reply200 (Some 3600) (Some access_token).

(** Time 1000, no file yet, an endpoint that grants a token for an hour. *)
Definition w_first : world :=
  mkWorld (1000 # 1) ∅ (ReadDoc doc1) (grants "T1") 0 [].

Definition tok : string := "/tmp/tok".

(** The manager before its first load. *)
Definition fresh : Main.ConfigManager := Main.new_manager "/etc/voipnow.json".

(** A token file written at time 0 whose token expires at time 1200. *)
Definition w_valid_until_1200 : world :=
  mkWorld (1000 # 1) (<[tok := token_line (mkCredential 0 1200 "T0")]> ∅)
    (ReadDoc doc1) (grants "T1") 0 [].

(** The token is about to expire and the endpoint answers 401 with
    invalid_client. *)
Definition w_rejected : world :=
  mkWorld (1000 # 1) (<[tok := token_line (mkCredential 0 1200 "T0")]> ∅)
    (ReadDoc doc1) (λ _, ReplyError 401 (ErrorObject (Some "invalid_client"))) 0 [].

(** The same, with the status 400 that an OAuth endpoint may also use for
    invalid_client. *)
Definition w_rejected_400 : world :=
  mkWorld (1000 # 1) (<[tok := token_line (mkCredential 0 1200 "T0")]> ∅)
    (ReadDoc doc1) (λ _, ReplyError 400 (ErrorObject (Some "invalid_client"))) 0 [].

(** A checker as [start_token_expiration_check] starts it. *)
Definition running_checker : Token.TokenExpirationChecker :=
  Token.mkChecker doc1 (300 # 1) None (Some (10 # 1)) true.

(** The endpoint grants a token with a colon in it. *)
Definition w_colon : world :=
  mkWorld (1000 # 1) ∅ (ReadDoc doc1) (grants "ab:cd") 0 [].

(** A token file whose third field has a colon in it. *)
Definition w_stored_colon : world :=
  mkWorld (1000 # 1) (<[tok := "1000:4600:ab:cd"]> ∅) (ReadDoc doc1) (grants "T1") 0 [].

(** The first load of the scenario, and the state it leaves. *)
Definition first_load : (Main.ConfigManager * world) * outcome unit :=
  Main.load_config false fingerprint (fresh, w_first).
Definition loaded : Main.ConfigManager * world := fst first_load.

(** Later on: the clock reads [t], the configuration file holds [doc] and
    the endpoint answers as [replies] says. *)
Definition later (t : Q) (doc : gmap string jvalue) (replies : nat → reply)
    (s : Main.ConfigManager * world) : Main.ConfigManager * world :=
  (fst s, mkWorld t (fs (snd s)) (ReadDoc doc) replies (posts (snd s)) (trace (snd s))).

(** The secret is edited.  The endpoint grants a new token, or answers
    every request with a success that has no access_token. *)
Definition doc_secret : gmap string jvalue := <["appSecret" := JStr "S2"]> doc1.
Definition incomplete : nat → reply := λ _, Reply200 (Some 3600) None.
Definition before_reload_secret : Main.ConfigManager * world :=
  later (2000 # 1) doc_secret (grants "T2") loaded.
Definition reload_secret_incomplete : (Main.ConfigManager * world) * outcome unit :=
  Main.load_config false fingerprint (later (2000 # 1) doc_secret incomplete loaded).

(** A handler that has accepted no event yet. *)
Definition idle_handler : Main.ConfigFileHandler := Main.mkHandler ∅ 0.

(** The host is edited to a URL with another scheme. *)
Definition doc_ftp : gmap string jvalue :=
  <["voipnowHost" := JStr "ftp://pbx.example.com"]> doc1.
Definition reload_ftp : (Main.ConfigManager * world) * outcome unit :=
  Main.load_config false fingerprint (later (2000 # 1) doc_ftp (grants "T2") loaded).

(** The token has expired; the second reply of the endpoint (the first of
    this reload) is a success without access_token, the next ones are
    complete. *)
Definition incomplete_once : nat → reply :=
  λ n, if (n =? 1)%nat then Reply200 (Some 3600) None else Reply200 (Some 3600) (Some "T2").
Definition reload_token_error : (Main.ConfigManager * world) * outcome unit :=
  Main.load_config false fingerprint (later (10000 # 1) doc1 incomplete_once loaded).

(** The token is about to expire and the endpoint answers with a success
    that has no access_token. *)
Definition w_incomplete : world :=
  mkWorld (1000 # 1) (<[tok := token_line (mkCredential 0 1200 "T0")]> ∅)
    (ReadDoc doc1) incomplete 0 [].

(** A token file written at time 0 whose token expires at time 4600. *)
Definition w_valid_until_4600 : world :=
  mkWorld (1000 # 1) (<[tok := token_line (mkCredential 0 4600 "T1")]> ∅)
    (ReadDoc doc1) (grants "T2") 0 [].

(** Later on, the configuration file holds text that is not JSON. *)
Definition w_not_json : world :=
  mkWorld (2000 # 1) (fs (snd loaded))
    (ReadNotJson "Expecting value: line 1 column 1 (char 0)")
    (grants "T2") (posts (snd loaded)) (trace (snd loaded)).

(** The secret is edited and the endpoint is out of reach. *)
Definition unreachable : nat → reply := λ _, NoReplyConnection.
Definition before_reload_unreachable : Main.ConfigManager * world :=
  later (2000 # 1) doc_secret unreachable loaded.

(** The first start, with the endpoint out of reach. *)
Definition w_first_unreachable : world :=
  mkWorld (1000 # 1) ∅ (ReadDoc doc1) unreachable 0 [].

(** The log level is edited to a number. *)
Definition doc_level_number : gmap string jvalue := <["logLevel" := JNum 10]> doc1.
Definition before_reload_level_number : Main.ConfigManager * world :=
  later (2000 # 1) doc_level_number (grants "T2") loaded.

(** The path of the token file is edited to the empty string. *)
Definition doc_no_path : gmap string jvalue := <["voipnowTokenFile" := JStr ""]> doc1.
Definition before_reload_no_path : Main.ConfigManager * world :=
  later (2000 # 1) doc_no_path (grants "T2") loaded.

(** Tables of the kind that utils/vars.py holds. *)
Definition schema_names : Utils.dict string :=
  [("User", "User/User.wsdl"); ("Extension", "Extension/Extension.wsdl")].
Definition method_names : Utils.dict (Utils.dict string) :=
  [("User", [("Get", "GetUsers"); ("Add", "AddUser")]);
   ("Extension", [("Get", "GetExtensions")])].

(** A module with one tool, as the modules under tools/ declare them; the
    schema and the handler are left abstract. *)
Definition pbx : Registry.module_ unit unit :=
  Registry.mkModule
    (Registry.Items
       [("get_regions",
         Registry.mkToolConfig (Some "get_regions") (Some "Retrieve regions") (Some tt))])
    (<["get_regions" := Registry.Function tt]> ∅).

End Scenario.

(** * Properties *)

(** ** Strings and integers *)

Module PyFacts.
Import Py.
#[local] Arguments String.append !s1 s2 / : simpl nomatch.

Example split_parts : split ":" "10:20:ab:cd" = ["10"; "20"; "ab"; "cd"].
Proof. reflexivity. Qed.

Example split_empty : split ":" "" = [""].
Proof. reflexivity. Qed.

Example strip_both_ends : strip "  a b  " = "a b".
Proof. reflexivity. Qed.

Example int_with_sign_and_groups : int_of_str " -1_000 " = Some (-1000).
Proof. reflexivity. Qed.

Example int_rejects_trailing_underscore : int_of_str "12_" = None.
Proof. reflexivity. Qed.

Example str_of_negative : str_of_int (-120) = "-120".
Proof. reflexivity. Qed.

Example token_in_key_error :
  contains (lower (exn_str (KeyError "access_token"))) "token" = true
  ∧ contains (lower (exn_str (KeyError "expires_in"))) "token" = false.
Proof. split; reflexivity. Qed.

Lemma startswith_spec s p : startswith s p = true ↔ ∃ r, s = p ++ r.
Proof.
  revert s. induction p as [|a p IH]; intros s; cbn [startswith].
  - split; [intros _; by exists s|done].
  - destruct s as [|b s]; [split; [done|by intros [r ?]]|].
    rewrite andb_true_iff, Ascii.eqb_eq, IH. split.
    + intros [-> [r ->]]. by exists r.
    + intros [r [= -> ->]]. eauto.
Qed.

Lemma startswith_http_not_https h :
  startswith h "http://" = true → startswith h "https://" = false.
Proof.
  intros [r ->]%startswith_spec.
  apply not_true_is_false. by intros [r' ?]%startswith_spec.
Qed.

Lemma split_nonempty sep s : split sep s ≠ [].
Proof.
  destruct s as [|a s]; cbn [split]; [done|].
  destruct (Ascii.eqb a sep); [done|]. by destruct (split sep s).
Qed.

Lemma split_no_sep sep s :
  all_chars (λ a, negb (Ascii.eqb a sep)) s = true → split sep s = [s].
Proof.
  induction s as [|a s IH]; cbn; [done|].
  intros [Ha Hs]%andb_prop. apply negb_true_iff in Ha. rewrite Ha.
  by rewrite (IH Hs).
Qed.

(** A part without the separator, followed by the separator. *)
Lemma split_app_sep sep a b :
  all_chars (λ c, negb (Ascii.eqb c sep)) a = true →
  split sep (a ++ String sep b) = a :: split sep b.
Proof.
  induction a as [|c a IH]; cbn [split append all_chars].
  - intros _. by rewrite Ascii.eqb_refl.
  - intros [Hc Ha]%andb_prop. apply negb_true_iff in Hc. rewrite Hc.
    by rewrite (IH Ha).
Qed.

(** Whatever precedes a separator, the parts that follow it are kept. *)
Lemma split_app_any sep a b :
  ∃ l, l ≠ [] ∧ split sep (a ++ String sep b) = (l ++ split sep b)%list.
Proof.
  induction a as [|c a (l & Hl & IH)]; cbn [split append].
  - exists [""]. by rewrite Ascii.eqb_refl.
  - destruct (Ascii.eqb c sep).
    + exists ("" :: l). by rewrite IH.
    + rewrite IH. destruct l as [|h t]; [done|].
      exists (String c h :: t). done.
Qed.

Lemma last_app_nonempty (l1 l2 : list string) d :
  l2 ≠ [] → List.last (l1 ++ l2)%list d = List.last l2 d.
Proof.
  intros H. induction l1 as [|x l1 IH]; [done|].
  cbn [app]. rewrite <- IH. cbn.
  destruct (l1 ++ l2)%list eqn:E; [|done].
  apply app_eq_nil in E as [_ ->]. done.
Qed.

Lemma last_split_app sep a b d :
  last_item (split sep (a ++ String sep b)) d = last_item (split sep b) d.
Proof.
  destruct (split_app_any sep a b) as (l & _ & ->).
  apply last_app_nonempty, split_nonempty.
Qed.

Lemma lstrip_nonspace a s : isspace a = false → lstrip (String a s) = String a s.
Proof. intros H. cbn. by rewrite H. Qed.

Lemma rstrip_nonspace a s : isspace a = false → rstrip (String a s) = String a (rstrip s).
Proof. intros H. cbn. rewrite H. by destruct (rstrip s). Qed.

Lemma rstrip_app x y : rstrip y ≠ "" → rstrip (x ++ y) = x ++ rstrip y.
Proof.
  intros H. induction x as [|c x IH]; [done|].
  cbn [append rstrip]. rewrite IH.
  destruct (x ++ rstrip y) eqn:E; [|done].
  destruct x; cbn in E; [done|discriminate].
Qed.

Lemma rstrip_all_nonspace s :
  all_chars (λ a, negb (isspace a)) s = true → rstrip s = s.
Proof.
  induction s as [|a s IH]; [done|].
  cbn [all_chars]. intros [Ha Hs]%andb_prop. apply negb_true_iff in Ha.
  by rewrite rstrip_nonspace, IH.
Qed.

Lemma all_chars_impl (f g : ascii → bool) s :
  (∀ a, f a = true → g a = true) → all_chars f s = true → all_chars g s = true.
Proof.
  intros Hfg. induction s as [|a s IH]; [done|].
  cbn. intros [Ha Hs]%andb_prop. by rewrite (Hfg a Ha), (IH Hs).
Qed.

Lemma all_chars_app f a b :
  all_chars f (a ++ b) = all_chars f a && all_chars f b.
Proof. induction a as [|c a IH]; cbn; [done|]. by rewrite IH, andb_assoc. Qed.

(** What a decimal digit is not. *)
Lemma isdigit_facts a :
  isdigit a = true →
  isspace a = false ∧ Ascii.eqb a ":" = false ∧ Ascii.eqb a "-" = false
  ∧ Ascii.eqb a "+" = false ∧ Ascii.eqb a "_" = false.
Proof.
  destruct a as [[] [] [] [] [] [] [] []]; vm_compute; intros; try discriminate; done.
Qed.

Lemma uint_digits d : all_chars isdigit (NilEmpty.string_of_uint d) = true.
Proof. induction d; cbn; done. Qed.

Lemma nilzero_digits d : all_chars isdigit (NilZero.string_of_uint d) = true.
Proof. destruct d; try apply (uint_digits (_ _)); done. Qed.

Lemma nilzero_nonempty d : NilZero.string_of_uint d ≠ "".
Proof. by destruct d. Qed.

Lemma digit_groups_digits s prev :
  all_chars isdigit s = true → s ≠ "" → digit_groups prev s = Some s.
Proof.
  revert prev. induction s as [|a s IH]; [done|].
  intros prev [Ha Hs]%andb_prop _. cbn. rewrite Ha.
  destruct s as [|b s]; [done|]. by rewrite (IH true Hs).
Qed.

Lemma uint_of_nilzero d :
  ∃ u, NilEmpty.uint_of_string (NilZero.string_of_uint d) = Some u
       ∧ Z.of_uint u = Z.of_uint d.
Proof.
  destruct d; try (eexists; split; [apply (NilEmpty.usu (_ _))|done]).
  by exists (Decimal.D0 Decimal.Nil).
Qed.

Lemma nat_of_str_uint d : nat_of_str (NilZero.string_of_uint d) = Some (Z.of_uint d).
Proof.
  unfold nat_of_str.
  rewrite digit_groups_digits by auto using nilzero_digits, nilzero_nonempty.
  cbn [mbind option_bind].
  destruct (uint_of_nilzero d) as (u & -> & <-). done.
Qed.

(** The decimal text of an integer: digits after an optional minus sign. *)
Lemma str_of_int_shape z :
  ∃ d, (str_of_int z = NilZero.string_of_uint d ∧ z = Z.of_uint d)
       ∨ (str_of_int z = String "-" (NilZero.string_of_uint d) ∧ z = - Z.of_uint d).
Proof.
  unfold str_of_int. pose proof (DecimalZ.of_to z) as H.
  destruct (Z.to_int z) as [d|d]; exists d; [left|right]; split; try done.
  all: by rewrite <- H.
Qed.

Lemma digits_plain s : all_chars isdigit s = true → all_chars plain s = true.
Proof.
  apply all_chars_impl. intros a Ha. unfold plain.
  destruct (isdigit_facts a Ha) as (-> & -> & _). done.
Qed.

(** The text of an integer has no white space and no colon, and is not
    empty. *)
Lemma str_of_int_plain z : all_chars plain (str_of_int z) = true.
Proof.
  destruct (str_of_int_shape z) as [d [[-> _]|[-> _]]].
  - apply digits_plain, nilzero_digits.
  - cbn [all_chars]. by rewrite digits_plain by apply nilzero_digits.
Qed.

Lemma str_of_int_nonempty z : str_of_int z ≠ "".
Proof.
  destruct (str_of_int_shape z) as [d [[-> _]|[-> _]]]; [apply nilzero_nonempty|done].
Qed.

Lemma plain_no_colon s : all_chars plain s = true → no_colon s = true.
Proof. apply all_chars_impl. by intros a [_ ?]%andb_prop. Qed.

Lemma plain_no_space s :
  all_chars plain s = true → all_chars (λ a, negb (isspace a)) s = true.
Proof. apply all_chars_impl. by intros a [? _]%andb_prop. Qed.

Lemma strip_no_space s :
  all_chars (λ a, negb (isspace a)) s = true → strip s = s.
Proof.
  intros H. unfold strip.
  destruct s as [|a s]; [done|].
  pose proof H as [Ha _]%andb_prop. apply negb_true_iff in Ha.
  rewrite lstrip_nonspace by done. by apply rstrip_all_nonspace.
Qed.

(** [int(str(z)) == z] *)
Lemma int_of_str_of_int z : int_of_str (str_of_int z) = Some z.
Proof.
  unfold int_of_str.
  rewrite strip_no_space by apply plain_no_space, str_of_int_plain.
  destruct (str_of_int_shape z) as [d [[-> ->]|[-> ->]]].
  - pose proof (nilzero_digits d) as Hd. pose proof (nilzero_nonempty d) as Hn.
    pose proof (nat_of_str_uint d) as Hv.
    destruct (NilZero.string_of_uint d) as [|a s]; [done|].
    apply andb_prop in Hd as [(_ & _ & -> & -> & _)%isdigit_facts _]. done.
  - cbn. by rewrite nat_of_str_uint.
Qed.

End PyFacts.

(** ** utils/token.py: the token file and the token request *)

Module TokenFacts.
Import Py PyFacts Token.
#[local] Arguments String.append !s1 s2 / : simpl nomatch.

(** One step of symbolic execution of a computation. *)
Ltac run :=
  cbv beta iota delta
    [bind ret raise get modify when log item as_str try_except try_clauses
     dispatch now_seconds os_path_exists write_file os_rename os_remove
     parse_int second_part reraise_parse_failure post_token_request
     fst snd].

Lemma strip_token_line c : strip (token_line c) = stripped_line c.
Proof.
  unfold token_line, stripped_line, strip.
  pose proof (str_of_int_plain (issuedAt c)) as Hi.
  pose proof (str_of_int_nonempty (issuedAt c)) as Hn.
  destruct (str_of_int (issuedAt c)) as [|a s] eqn:E; [done|].
  replace (lstrip (String a s ++ ":" ++ str_of_int (expiresAt c) ++ ":" ++ secret c))
    with (String a s ++ ":" ++ str_of_int (expiresAt c) ++ ":" ++ secret c).
  2:{ cbn [all_chars] in Hi. apply andb_prop in Hi as [[Ha _]%andb_prop _].
      apply negb_true_iff in Ha. cbn [String.append lstrip]. by rewrite Ha. }
  assert (Hc : ∀ x, rstrip (":" ++ x) = ":" ++ rstrip x).
  { intros x. by apply rstrip_nonspace. }
  assert (Hne : ∀ x, rstrip (":" ++ x) ≠ "").
  { intros x. rewrite Hc. by cbn. }
  rewrite rstrip_app by apply Hne. rewrite Hc. do 2 f_equal.
  rewrite rstrip_app by apply Hne. by rewrite Hc.
Qed.

Lemma split_stripped_line c :
  split ":" (stripped_line c)
  = str_of_int (issuedAt c) :: str_of_int (expiresAt c) :: split ":" (rstrip (secret c)).
Proof.
  unfold stripped_line.
  cbn [String.append].
  rewrite split_app_sep by apply plain_no_colon, str_of_int_plain.
  rewrite split_app_sep by apply plain_no_colon, str_of_int_plain.
  done.
Qed.

Lemma stripped_line_nonempty c : String.eqb (stripped_line c) "" = false.
Proof.
  unfold stripped_line. pose proof (str_of_int_nonempty (issuedAt c)).
  by destruct (str_of_int (issuedAt c)).
Qed.

(** A file holding the line of a credential is read without error. *)
Lemma safe_read_token_line p w c :
  fs w !! p = Some (token_line c) →
  _safe_read_token_file p w = (w, Ok (stripped_line c)).
Proof.
  intros H. unfold _safe_read_token_file. run. rewrite H.
  rewrite strip_token_line, stripped_line_nonempty, split_stripped_line.
  cbn [length]. pose proof (split_nonempty ":" (rstrip (secret c))).
  destruct (split ":" (rstrip (secret c))); done.
Qed.

Lemma check_token_line p w c :
  fs w !! p = Some (token_line c) →
  check_token p w = (w, Ok (int_of_float (clock w) >=? expiresAt c - 300)).
Proof.
  intros H. unfold check_token. run. rewrite (safe_read_token_line _ _ _ H).
  rewrite split_stripped_line. cbn [lookup list_lookup].
  by rewrite int_of_str_of_int.
Qed.

Lemma get_expiration_timestamp_line p w c :
  fs w !! p = Some (token_line c) →
  get_expiration_timestamp p w = (w, Ok (expiresAt c)).
Proof.
  intros H. unfold get_expiration_timestamp. run.
  rewrite (safe_read_token_line _ _ _ H).
  rewrite split_stripped_line. cbn [lookup list_lookup].
  by rewrite int_of_str_of_int.
Qed.

Lemma load_credential_line p w c :
  fs w !! p = Some (token_line c) →
  load_credential p w
  = (w, Ok (mkCredential (issuedAt c) (expiresAt c)
              (last_item (split ":" (rstrip (secret c))) ""))).
Proof.
  intros H. unfold load_credential. run.
  rewrite (safe_read_token_line _ _ _ H), split_stripped_line.
  cbn [head default from_option id]. rewrite int_of_str_of_int.
  rewrite (get_expiration_timestamp_line _ _ _ H).
  cbn [last_item List.last].
  pose proof (split_nonempty ":" (rstrip (secret c))).
  by destruct (split ":" (rstrip (secret c))).
Qed.

Section GenerateToken.

Context (cfg : gmap string jvalue) (host : string) (w : world).
Hypothesis Hhost : cfg !! "voipnowHost" = Some (JStr host).
Hypothesis Hid : is_Some (cfg !! "appId").
Hypothesis Hsecret : is_Some (cfg !! "appSecret").

Lemma generate_token_request :
  generate_token cfg w
  = (let w1 := posted cfg (token_url host) w in
     match issuer w (posts w) with
     | Reply200 expires_in access_token =>
         match expires_in, access_token with
         | None, _ => (w1, Raise (KeyError "expires_in"))
         | Some _, None => (w1, Raise (KeyError "access_token"))
         | Some e, Some a =>
             match cfg !! "voipnowTokenFile" with
             | Some (JStr p) =>
                 let line := token_line (mkCredential (int_of_float (clock w))
                                           (int_of_float (clock w) + e) a) in
                 (set_fs (λ f, <[p := line]> (delete (p ++ ".tmp") f))
                    (set_fs (<[p ++ ".tmp" := line]>) w1), Ok tt)
             | Some _ => (w1, Raise TypeError)
             | None => (w1, Raise (KeyError "voipnowTokenFile"))
             end
         end
     | ReplyError status_code body => (w1, Raise (HTTPError status_code body))
     | NoReplySSL => (w1, Raise SSLError)
     | NoReplyConnection => (w1, Raise ConnectionError)
     | NoReplyTimeout => (w1, Raise Timeout)
     | NoReplyOther => (w1, Raise RequestException)
     end).
Proof.
  destruct Hid as [id Hi], Hsecret as [sec Hs].
  unfold generate_token, posted, token_url, get_default. run.
  rewrite Hhost, Hi, Hs. cbn [default].
  destruct (issuer w (posts w)) as [[e|] [a|]| | | | |]; try done.
  destruct (cfg !! "voipnowTokenFile") as [[]|]; try done.
  cbn [fs set_fs next_post emit]. by rewrite lookup_insert_eq.
Qed.

End GenerateToken.

(** C9: when the configured host starts with http://, a value that the URL
    check of load_config accepts, the token request goes to the host with
    https:// put in front of it, a URL that starts with https://http://. *)
Theorem http_host_gets_https_prefix cfg w host :
  cfg !! "voipnowHost" = Some (JStr host) →
  is_Some (cfg !! "appId") →
  is_Some (cfg !! "appSecret") →
  startswith host "http://" = true →
  negb (startswith host "https://") && negb (startswith host "http://") = false
  ∧ ∃ client_id client_secret verify,
      trace (fst (generate_token cfg w))
      = EvPost ("https://" ++ host ++ "/oauth/token.php") client_id client_secret verify
          :: trace w
      ∧ startswith ("https://" ++ host ++ "/oauth/token.php") "https://http://" = true.
Proof.
  intros Hh Hi Hs Hp. split; [by rewrite Hp, andb_false_r|].
  rewrite (generate_token_request _ _ _ Hh Hi Hs).
  unfold token_url. rewrite (startswith_http_not_https _ Hp).
  eexists _, _, _. split.
  - destruct (issuer w (posts w)) as [[e|] [a|]| | | | |]; try reflexivity.
    destruct (cfg !! "voipnowTokenFile") as [[]|]; reflexivity.
  - apply startswith_spec in Hp as [r ->]. apply startswith_spec.
    exists (r ++ "/oauth/token.php"). cbn. done.
Qed.

Lemma http_host_gets_https_prefix_witness :
  negb (startswith "http://pbx.example.com" "https://")
  && negb (startswith "http://pbx.example.com" "http://") = false
  ∧ ∃ client_id client_secret verify,
      trace (fst (generate_token Scenario.doc1_http Scenario.w_first))
      = EvPost ("https://" ++ "http://pbx.example.com" ++ "/oauth/token.php")
          client_id client_secret verify :: trace Scenario.w_first
      ∧ startswith ("https://" ++ "http://pbx.example.com" ++ "/oauth/token.php")
          "https://http://" = true.
Proof.
  apply (http_host_gets_https_prefix Scenario.doc1_http Scenario.w_first
           "http://pbx.example.com");
    [reflexivity | by eexists | by eexists | reflexivity].
Defined.

(** C5, amended: the horizon of the expiry check is the constant 300
    seconds.  For a token file that holds the line of a credential,
    check_token returns true exactly when the current time in whole seconds
    is at least expiresAt - 300, and in particular when it is equal to it. *)
Theorem check_token_fixed_horizon p w c :
  fs w !! p = Some (token_line c) →
  (snd (check_token p w) = Ok true ↔ expiresAt c - 300 ≤ int_of_float (clock w))
  ∧ (int_of_float (clock w) = expiresAt c - 300 → snd (check_token p w) = Ok true).
Proof.
  intros H. rewrite (check_token_line _ _ _ H). cbn [snd].
  rewrite Z.geb_leb. split.
  - split.
    + intros [= E]. by apply Z.leb_le.
    + intros E. f_equal. by apply Z.leb_le.
  - intros ->. f_equal. by apply Z.leb_le.
Qed.

Lemma check_token_fixed_horizon_witness :
  fs Scenario.w_valid_until_1200 !! Scenario.tok
  = Some (token_line (mkCredential 0 1200 "T0"))
  ∧ (snd (check_token Scenario.tok Scenario.w_valid_until_1200) = Ok true
     ↔ 1200 - 300 ≤ int_of_float (clock Scenario.w_valid_until_1200))
  ∧ (int_of_float (clock Scenario.w_valid_until_1200) = 1200 - 300 →
     snd (check_token Scenario.tok Scenario.w_valid_until_1200) = Ok true).
Proof.
  split; [reflexivity|].
  apply (check_token_fixed_horizon Scenario.tok Scenario.w_valid_until_1200
           (mkCredential 0 1200 "T0")).
  reflexivity.
Defined.

(** C5 as stated fails for a horizon other than 300: at time 1000 a token
    that expires at 1200 is reported as expiring, although 1000 is less than
    1200 - 0. *)
Lemma check_token_horizon_counterexample :
  fs Scenario.w_valid_until_1200 !! Scenario.tok
  = Some (token_line (mkCredential 0 1200 "T0"))
  ∧ snd (check_token Scenario.tok Scenario.w_valid_until_1200) = Ok true
  ∧ ¬ (1200 - 0 ≤ int_of_float (clock Scenario.w_valid_until_1200)).
Proof. split; [reflexivity|]. split; [reflexivity|]. vm_compute. by intros H. Qed.




(** *** The expiration checker *)

Lemma safe_read_world p w : fst (_safe_read_token_file p w) = w.
Proof.
  unfold _safe_read_token_file. run.
  destruct (fs w !! p); [|done].
  destruct (String.eqb _ _); [done|]. by destruct (_ <? _)%nat.
Qed.

(** [check_token] leaves the world as it is. *)
Lemma check_token_world p w : fst (check_token p w) = w.
Proof.
  unfold check_token. run.
  pose proof (safe_read_world p w) as H.
  destruct (_safe_read_token_file p w) as [w' [token_data|e| |]]; cbn [fst] in H; subst w'.
  - destruct (split ":" token_data !! 1%nat); [|done].
    destruct (int_of_str _); done.
  - by destruct (isinstance_any _ _).
  - done.
  - done.
Qed.

(** A stopped checker stays as it is, and starts no timer, whatever
    happens to it short of a call of [start]. *)
Lemma stopped_checker_stays self actions w :
  _running self = false →
  _timer self = None →
  Forall (λ a, ∀ d, a ≠ CallStart d) actions →
  ∃ w', perform_all actions self w = (w', Ok self)
        ∧ count is_timer_start w' = count is_timer_start w.
Proof.
  intros Hr Ht Ha. revert w.
  induction Ha as [|a actions Hstart _ IH]; intros w; [by exists w|].
  cbn [perform_all]. unfold bind.
  assert (∃ w1, perform a self w = (w1, Ok self)
                ∧ count is_timer_start w1 = count is_timer_start w) as (w1 & -> & <-).
  { destruct a as [| |d|d]; cbn [perform].
    - unfold _check_token. rewrite Hr. by exists w.
    - unfold stop. destruct self as [c i cb t r]. cbn in Hr, Ht. subst.
      eexists. split; reflexivity.
    - unfold _schedule_next_check. rewrite Hr. by exists w.
    - by destruct (Hstart d). }
  apply IH.
Qed.

(** C2, amended: when the timer of a running checker fires, the token is
    expiring and the endpoint rejects the request with status 401 and the
    error code invalid_client, the checker ends stopped, without a timer,
    the check has started no timer, and nothing short of a call of start
    makes the checker start one afterwards. *)
Theorem invalid_client_stops_checker self w p host :
  _running self = true →
  config_mcp self !! "voipnowTokenFile" = Some (JStr p) →
  p ≠ "" →
  config_mcp self !! "voipnowHost" = Some (JStr host) →
  is_Some (config_mcp self !! "appId") →
  is_Some (config_mcp self !! "appSecret") →
  snd (check_token p w) = Ok true →
  issuer w (posts w) = ReplyError 401 (ErrorObject (Some "invalid_client")) →
  ∃ self' w',
    _check_token self w = (w', Ok self')
    ∧ _running self' = false
    ∧ _timer self' = None
    ∧ count is_timer_start w' = count is_timer_start w
    ∧ ∀ actions w2,
        Forall (λ a, ∀ d, a ≠ CallStart d) actions →
        ∃ w3, perform_all actions self' w2 = (w3, Ok self')
              ∧ count is_timer_start w3 = count is_timer_start w2.
Proof.
  intros Hr Hp Hne Hh Hi Hs Hc Hrej.
  assert (Hck : check_token p w = (w, Ok true)).
  { pose proof (check_token_world p w) as Hw.
    destruct (check_token p w) as [w1 r]. cbn [fst snd] in Hw, Hc. by subst. }
  assert (Hstop : ∃ self' w', _check_token self w = (w', Ok self')
            ∧ _running self' = false ∧ _timer self' = None
            ∧ count is_timer_start w' = count is_timer_start w).
  { unfold _check_token. rewrite Hr, Hp. cbn [negb truthy].
    apply String.eqb_neq in Hne. rewrite Hne. cbn [negb]. run.
    unfold refresh_if_expiring. run. rewrite Hck.
    unfold regenerate. run.
    rewrite (generate_token_request _ _ _ Hh Hi Hs).
    cbn [issuer posts emit]. rewrite Hrej.
    cbn [isinstance_any existsb isinstance orb is_invalid_client].
    cbn [String.eqb Ascii.eqb Bool.eqb]. unfold stop. run.
    destruct self as [c i cb [t|] r]; cbn [_timer with_running with_timer];
      eexists _, _; (split; [reflexivity|]); repeat split. }
  destruct Hstop as (self' & w' & E & Hr' & Ht' & Hn).
  exists self', w'. repeat split; try done.
  intros actions w2 Ha. by apply stopped_checker_stays.
Qed.

Lemma invalid_client_stops_checker_witness :
  ∃ self' w',
    _check_token Scenario.running_checker Scenario.w_rejected = (w', Ok self')
    ∧ _running self' = false
    ∧ _timer self' = None
    ∧ count is_timer_start w' = count is_timer_start Scenario.w_rejected
    ∧ ∀ actions w2,
        Forall (λ a, ∀ d, a ≠ CallStart d) actions →
        ∃ w3, perform_all actions self' w2 = (w3, Ok self')
              ∧ count is_timer_start w3 = count is_timer_start w2.
Proof.
  apply (invalid_client_stops_checker Scenario.running_checker Scenario.w_rejected
           Scenario.tok "https://pbx.example.com");
    first [reflexivity | by eexists | done].
Defined.

(** C2 as stated fails for a rejection with another status: when the
    endpoint answers 400 with the error code invalid_client, the checker
    keeps running and starts a timer for a retry after 60 seconds. *)
Lemma invalid_client_400_counterexample :
  snd (check_token Scenario.tok Scenario.w_rejected_400) = Ok true
  ∧ issuer Scenario.w_rejected_400 (posts Scenario.w_rejected_400)
    = ReplyError 400 (ErrorObject (Some "invalid_client"))
  ∧ snd (_check_token Scenario.running_checker Scenario.w_rejected_400)
    = Ok (mkChecker Scenario.doc1 (300 # 1) None (Some (60 # 1)) true)
  ∧ count is_timer_start (fst (_check_token Scenario.running_checker Scenario.w_rejected_400))
    = S (count is_timer_start Scenario.w_rejected_400).
Proof. repeat split; vm_compute; reflexivity. Qed.

End TokenFacts.

(** ** main.py: loading and reloading the configuration *)

Module MainFacts.
Import Py PyFacts Token TokenFacts Main.
#[local] Arguments String.append !s1 s2 / : simpl nomatch.

Ltac run_main :=
  cbv beta iota delta
    [bind ret raise get modify when log item as_str try_except try_clauses
     lift self_get self_set logger fatal_or_skip read_config].

Lemma missing_keys_nil (doc : gmap string jvalue) :
  filter (λ key, doc !! key = None) required_keys = [] ↔ required_present doc.
Proof.
  unfold required_present. split.
  - intros H k Hk. destruct (doc !! k) eqn:E; [by eexists|].
    assert (k ∈ filter (λ key, doc !! key = None) required_keys) as Hin
      by by apply list_elem_of_filter.
    rewrite H in Hin. by apply elem_of_nil in Hin.
  - intros H. apply elem_of_nil_inv. intros k [Hn Hk]%list_elem_of_filter.
    destruct (H k Hk) as [v Hv]. congruence.
Qed.

Lemma extra_keys_nil (doc : gmap string jvalue) :
  filter (λ key, key ∉ allowed_keys) (map_to_list doc).*1 = [] ↔ no_extra_keys doc.
Proof.
  unfold no_extra_keys. split.
  - intros H k [v Hv]. destruct (decide (k ∈ allowed_keys)) as [|Hn]; [done|].
    assert (k ∈ filter (λ key, key ∉ allowed_keys) (map_to_list doc).*1) as Hin.
    { apply list_elem_of_filter. split; [done|].
      apply list_elem_of_fmap. exists (k, v). split; [done|].
      by apply elem_of_map_to_list. }
    rewrite H in Hin. by apply elem_of_nil in Hin.
  - intros H. apply elem_of_nil_inv. intros k [Hn Hk]%list_elem_of_filter.
    apply list_elem_of_fmap in Hk as [[k' v] [-> Hkv%elem_of_map_to_list]].
    apply Hn, H. by eexists.
Qed.

Lemma bool_decide_nil_true {A} `{EqDecision A} (l : list A) :
  l = [] → bool_decide (l = []) = true.
Proof. intros ->. done. Qed.

(** *** The checks on the document *)

(** A document that meets the conditions passes the checks, on the first
    load and on a reload; the world changes by what [set_log_level] logs. *)
Lemma check_document_accepts secure doc self w :
  required_present doc →
  no_extra_keys doc →
  log_level_is_text doc →
  valid_host doc →
  auth_token_present secure doc →
  check_document secure doc (self, w)
  = ((self, fst (Logger.set_log_level (get_default doc "logLevel" (JStr "INFO")) w)),
     Ok true).
Proof.
  intros Hreq Hextra Hlvl (host & Hhost & Hscheme) Hauth.
  unfold check_document. run_main.
  rewrite (bool_decide_nil_true _ (proj2 (missing_keys_nil doc) Hreq)).
  cbn [negb andb]. rewrite !andb_false_r.
  rewrite (bool_decide_nil_true _ (proj2 (extra_keys_nil doc) Hextra)).
  cbn [negb andb]. rewrite !andb_false_r. cbn [negb].
  assert (∃ name, get_default doc "logLevel" (JStr "INFO") = JStr name) as [name Hname].
  { unfold get_default. destruct (doc !! "logLevel") as [v|] eqn:E; [|by eexists].
    destruct (Hlvl v E) as [name ->]. by eexists. }
  destruct (Logger.set_log_level (get_default doc "logLevel" (JStr "INFO")) w)
    as [w1 r] eqn:Elog.
  assert (r = Ok tt) as ->.
  { rewrite Hname in Elog. unfold Logger.set_log_level in Elog. revert Elog. run_main.
    destruct (bool_decide _); by intros [= _ <-]. }
  cbn [fst].
  unfold get_default at 1. rewrite Hhost. cbn [default from_option id].
  assert (negb (startswith host "https://") && negb (startswith host "http://") = false)
    as ->.
  { destruct Hscheme as [E|E]; rewrite E; by rewrite ?andb_false_r. }
  assert (secure && bool_decide (doc !! "authTokenMCP" = None) = false) as ->.
  { destruct secure; [|done]. destruct (Hauth eq_refl) as [v ->]. done. }
  rewrite !andb_false_r. cbn [negb].
  destruct (Hreq "voipnowTokenFile") as [v ->].
  { unfold required_keys. rewrite !elem_of_cons. tauto. }
  cbn. by rewrite andb_false_r.
Qed.

(** On the first load nothing else passes them. *)
Lemma check_document_first_load_inv secure doc self w :
  no_config self = true →
  snd (check_document secure doc (self, w)) = Ok true →
  required_present doc ∧ no_extra_keys doc ∧ log_level_is_text doc
  ∧ valid_host doc ∧ auth_token_present secure doc.
Proof.
  intros Hf. unfold check_document. run_main. rewrite Hf. cbn [andb].
  destruct (bool_decide (filter (λ key, doc !! key = None) required_keys = []))
    eqn:E1; cbn [negb]; [|done].
  rewrite Hf. cbn [andb].
  destruct (bool_decide (filter (λ key, key ∉ allowed_keys) (map_to_list doc).*1 = []))
    eqn:E2; cbn [negb]; [|done].
  apply bool_decide_eq_true in E1, E2.
  apply missing_keys_nil in E1. apply extra_keys_nil in E2.
  unfold Logger.set_log_level. run_main.
  destruct (get_default doc "logLevel" (JStr "INFO")) as [| | |name] eqn:E3; try done.
  assert (log_level_is_text doc) as Hlvl.
  { intros v Hv. unfold get_default in E3. rewrite Hv in E3. cbn in E3. by eexists. }
  assert (∀ P : Prop,
    (snd (let (s', o) :=
            (if bool_decide (upper name ∈ Logger.level_names)
             then (λ s : world, (s, Ok tt))
             else (λ s : world,
                     (emit (EvLog WARNING
                              ("Invalid log level: " ++ upper name
                               ++ " [DEBUG, INFO, WARNING, ERROR, CRITICAL], defaulting to 'INFO'"))
                        s, Ok tt))) w in
          match o with
          | Ok a => (self, s', Ok a)
          | Raise e => (self, s', Raise e)
          | Hang => (self, s', Hang)
          | OutOfFuel => (self, s', OutOfFuel)
          end) = Ok tt → P) → P) as Hskip by (intros P HP; apply HP; by destruct (bool_decide _)).
  destruct (bool_decide (upper name ∈ Logger.level_names));
    (destruct (get_default doc "voipnowHost" (JStr "")) as [| | |host] eqn:E4; try done;
     destruct (negb (startswith host "https://") && negb (startswith host "http://"))
       eqn:E5; try done;
     rewrite Hf; cbn [andb];
     destruct (secure && bool_decide (doc !! "authTokenMCP" = None)) eqn:E6; try done;
     intros _; repeat split; try done;
     [ exists host; split;
       [ unfold get_default in E4; destruct (doc !! "voipnowHost") as [v|] eqn:Ev;
         [ cbn in E4; by subst
         | cbn in E4; injection E4 as <-; cbn in E5; discriminate ]
       | apply andb_false_iff in E5 as [E5|E5]; apply negb_false_iff in E5; auto ]
     | intros ->; cbn [andb] in E6; apply bool_decide_eq_false in E6;
       by destruct (doc !! "authTokenMCP"); [eexists|] ]).
Qed.

(** C3, amended: on the first load the checks of load_config accept a
    document exactly when the four required keys are present, no key is
    outside the allowed set, voipnowHost is a string that starts with
    http:// or https://, logLevel is a string when present, and authTokenMCP
    is present when the server runs in secure mode. *)
Theorem first_load_validation secure doc self w :
  no_config self = true →
  snd (check_document secure doc (self, w)) = Ok true
  ↔ required_present doc ∧ no_extra_keys doc ∧ valid_host doc
    ∧ log_level_is_text doc ∧ auth_token_present secure doc.
Proof.
  intros Hf. split.
  - intros H. apply (check_document_first_load_inv _ _ _ _ Hf) in H. tauto.
  - intros (H1 & H2 & H3 & H4 & H5).
    by rewrite check_document_accepts.
Qed.

Lemma first_load_validation_witness :
  no_config (attrs Scenario.fresh) = true
  ∧ (snd (check_document false Scenario.doc1 (attrs Scenario.fresh, Scenario.w_first))
     = Ok true
     ↔ required_present Scenario.doc1 ∧ no_extra_keys Scenario.doc1
       ∧ valid_host Scenario.doc1 ∧ log_level_is_text Scenario.doc1
       ∧ auth_token_present false Scenario.doc1).
Proof.
  split; [reflexivity|].
  apply (first_load_validation false Scenario.doc1 (attrs Scenario.fresh) Scenario.w_first).
  reflexivity.
Defined.

(** C3 as stated fails in secure mode: the document of the scenario has the
    required keys, no other key and an https host, and the first load
    rejects it because authTokenMCP is missing. *)
Lemma first_load_validation_counterexample :
  required_present Scenario.doc1
  ∧ no_extra_keys Scenario.doc1
  ∧ valid_host Scenario.doc1
  ∧ snd (check_document true Scenario.doc1 (attrs Scenario.fresh, Scenario.w_first))
    = Raise (ConfigurationError
               "authTokenMCP is missing in config file. Please set authTokenMCP when using --secure flag.").
Proof.
  split; [by apply missing_keys_nil|].
  split; [by apply extra_keys_nil|].
  split; [exists "https://pbx.example.com"; split; [reflexivity|by right]|].
  vm_compute. reflexivity.
Qed.

(** *** Reloads *)

(** The first load of the scenario succeeds: one request, a token file
    whose expiry is after its issue, the token published. *)
Example first_load_succeeds :
  snd Scenario.first_load = Ok tt
  ∧ no_config (attrs (fst Scenario.loaded)) = false
  ∧ count is_post (snd Scenario.loaded) = 1%nat
  ∧ fs (snd Scenario.loaded) !! Scenario.tok = Some "1000:4600:T1"
  ∧ voipnow_config (attrs (fst Scenario.loaded)) !! "voipnowToken" = Some (JStr "T1").
Proof. repeat split; vm_compute; reflexivity. Qed.

(** C1, at a failing input: after a first load that succeeded, the host is
    edited to ftp://pbx.example.com; the reload raises ConfigurationError to
    its caller.  The host in memory is still the previous one and the lock
    is released. *)
Theorem reload_with_bad_scheme_raises :
  snd Scenario.first_load = Ok tt
  ∧ no_config (attrs (fst Scenario.loaded)) = false
  ∧ snd Scenario.reload_ftp
    = Raise (ConfigurationError
               "Invalid URL format. Please provide a valid URL in the format 'https://voipnow.com' or 'http://voipnow.com'.")
  ∧ config_data (attrs (fst (fst Scenario.reload_ftp))) !! "voipnowHost"
    = Some (JStr "https://pbx.example.com")
  ∧ lock (fst (fst Scenario.reload_ftp)) = false.
Proof. repeat split; vm_compute; reflexivity. Qed.

(** A call of [load_config] from inside [with self.lock] never gets the
    lock. *)
Lemma nested_load_config_blocks secure fingerprint fuel self w :
  from_inside (load_config_fuel secure fingerprint (S fuel)) (self, w)
  = ((self, emit EvEnterLoadConfig w), Hang).
Proof. reflexivity. Qed.

(** Two unfoldings of [load_config] are all that a call ever uses. *)
Lemma load_config_fuel_enough secure fingerprint fuel s :
  load_config_fuel secure fingerprint (S (S fuel)) s = load_config secure fingerprint s.
Proof.
  reflexivity.
Qed.


(** *** The published token *)

Lemma string_length_app (a b : string) :
  String.length (a ++ b) = (String.length a + String.length b)%nat.
Proof. induction a as [|c a IH]; cbn; [done|]. by rewrite IH. Qed.

Lemma app_longer (a b : string) : b ≠ a ++ ":" ++ b.
Proof.
  intros H. apply (f_equal String.length) in H.
  rewrite !string_length_app in H. cbn in H. lia.
Qed.



(** *** The watcher *)

Ltac run_watch :=
  cbv beta iota delta
    [on_modified on_manager get_config with_lock time_time time_sleep abspath
     bind ret raise get modify when as_str self_get].

(** An event for a watched path with no accepted event in the second
    before it: the time is recorded and [load_config] is called once. *)
Lemma on_modified_accepts secure fingerprint h cm w path :
  lock cm = false →
  watched cm path →
  (∀ last, last_reload_time h !! path = Some last → (1 <= clock w - last)%Q) →
  ∃ s' r,
    on_modified secure fingerprint path (h, (cm, w))
    = ((mkHandler (<[path := clock w]> (last_reload_time h)) (S (reload_calls h)), s'), r).
Proof.
  intros Hlock (token_file & Htok & Hpath) Hlast.
  destruct cm as [l self]. cbn in Hlock, Htok, Hpath. subst l.
  run_watch. cbn [lock attrs]. rewrite Htok. cbn [truthy].
  assert ((path =? config_file self)%string
          || from_option (String.eqb path) false
               (if negb (token_file =? "")%string then Some token_file else None) = true)
    as Hw.
  { destruct Hpath as [-> | [-> Hne]].
    - by rewrite String.eqb_refl.
    - apply String.eqb_neq in Hne. rewrite Hne. cbn. by rewrite String.eqb_refl, orb_true_r. }
  destruct (negb (token_file =? "")%string); cbn [from_option] in Hw |- *; rewrite Hw.
  all: assert (match last_reload_time h !! path with
               | Some last => negb (Qle_bool 1 (clock w - last))
               | None => false
               end = false) as ->
         by (destruct (last_reload_time h !! path) as [last|] eqn:E; [|done];
             apply negb_false_iff, Qle_bool_iff, Hlast; done).
  all: cbn [last_reload_time reload_calls].
  all: destruct (load_config secure fingerprint _) as [s' r]; by eexists _, _.
Qed.

(** An event less than a second after the accepted one changes nothing in
    the handler. *)
Lemma on_modified_debounced secure fingerprint h s path last :
  last_reload_time h !! path = Some last →
  (clock (snd s) - last < 1)%Q →
  ∃ s' r, on_modified secure fingerprint path (h, s) = ((h, s'), r).
Proof.
  intros Hlast Hlt. destruct s as [[l self] w]. cbn [snd] in Hlt.
  assert (Qle_bool 1 (clock w - last) = false) as Hq.
  { apply not_true_is_false. intros Hq%Qle_bool_iff. by apply Qlt_not_le in Hlt. }
  run_watch. cbn [lock attrs].
  destruct l; [by eexists _, _|].
  destruct (config_data self !! "voipnowTokenFile") as [v|].
  - destruct (truthy v).
    + destruct v; try by eexists _, _.
      destruct ((path =? config_file self)%string || _); [|by eexists _, _].
      rewrite Hlast, Hq. by eexists _, _.
    + destruct ((path =? config_file self)%string || _); [|by eexists _, _].
      rewrite Hlast, Hq. by eexists _, _.
  - destruct ((path =? config_file self)%string || _); [|by eexists _, _].
    rewrite Hlast, Hq. by eexists _, _.
Qed.

Lemma dispatch_debounced secure fingerprint h s path last times :
  last_reload_time h !! path = Some last →
  Forall (λ t, (t - last < 1)%Q) times →
  fst (fst (dispatch_events secure fingerprint (map (pair path) times) (h, s))) = h.
Proof.
  intros Hlast Ht. revert s.
  induction Ht as [|t times Hlt _ IH]; intros [cm w]; [done|].
  cbn [map dispatch_events]. unfold bind at 1, modify at 1. unfold bind at 1.
  destruct (on_modified_debounced secure fingerprint h (cm, set_clock t w) path last
              Hlast Hlt) as (s' & r & ->).
  destruct r; [apply IH|done..].
Qed.


(** *** The fingerprint *)

Lemma app_neq (a suffix : string) : suffix ≠ "" → a ++ suffix ≠ a.
Proof.
  intros Hs H. apply (f_equal String.length) in H.
  rewrite string_length_app in H. destruct suffix; [done|cbn in H; lia].
Qed.

Lemma app_app_neq (a s1 s2 : string) : s1 ≠ "" → (a ++ s1) ++ s2 ≠ a.
Proof.
  intros Hs H. apply (f_equal String.length) in H.
  rewrite !string_length_app in H. destruct s1; [done|cbn in H; lia].
Qed.

Lemma check_config_change_changed fingerprint cfg w p stored old :
  cfg !! "voipnowTokenFile" = Some (JStr p) →
  p ≠ "" →
  fs w !! (p ++ ".config_hash") = Some stored →
  strip stored ≠ current_hash fingerprint cfg →
  fs w !! p = Some old →
  check_config_change fingerprint cfg (p ++ ".config_hash") w
  = (after_change (current_hash fingerprint cfg) p w, Ok true).
Proof.
  intros Hp Hne Hstored Hdiff Hold.
  unfold check_config_change, after_change. fold (current_hash fingerprint cfg).
  run. rewrite Hstored.
  apply String.eqb_neq in Hdiff. rewrite Hdiff. cbn [negb].
  cbn [fs set_fs]. rewrite lookup_insert_eq. cbn [fs set_fs].
  rewrite lookup_insert_ne by (apply not_eq_sym, app_neq; done).
  rewrite lookup_delete_eq.
  assert (bool_decide (is_Some (@None string)) = false) as -> by done.
  rewrite Hp. apply String.eqb_neq in Hne. rewrite Hne. cbn [negb andb].
  cbn [fs set_fs].
  rewrite lookup_insert_ne by (apply app_neq; done).
  rewrite lookup_delete_ne by (apply app_app_neq; done).
  rewrite lookup_insert_ne by (apply app_app_neq; done).
  rewrite Hold.
  assert (bool_decide (is_Some (Some old)) = true) as -> by done.
  cbn [fs set_fs].
  rewrite lookup_insert_ne by (apply app_neq; done).
  rewrite lookup_delete_ne by (apply app_app_neq; done).
  rewrite lookup_insert_ne by (apply app_app_neq; done).
  by rewrite Hold.
Qed.

Lemma check_config_change_unchanged fingerprint cfg w hash_file stored :
  fs w !! hash_file = Some stored →
  strip stored = current_hash fingerprint cfg →
  check_config_change fingerprint cfg hash_file w = (w, Ok false).
Proof.
  intros Hstored Hsame.
  unfold check_config_change. fold (current_hash fingerprint cfg).
  run. rewrite Hstored, Hsame, String.eqb_refl. done.
Qed.

(** *** Worlds that differ by silent events *)

Lemma quiet_refl w : quiet w w.
Proof. exists []. by destruct w. Qed.

Lemma quiet_emit e w : silent e = true → quiet w (emit e w).
Proof. intros H. exists [e]. cbn. by rewrite H. Qed.

Lemma quiet_trans w1 w2 w3 : quiet w1 w2 → quiet w2 w3 → quiet w1 w3.
Proof.
  intros (e1 & H1 & ->) (e2 & H2 & ->). exists (e2 ++ e1)%list. split.
  - rewrite forallb_app. by rewrite H1, H2.
  - cbn. by rewrite app_assoc.
Qed.

Lemma quiet_step e w w' : silent e = true → quiet (emit e w) w' → quiet w w'.
Proof. intros H. apply quiet_trans. by apply quiet_emit. Qed.

Lemma quiet_emit_r e w w' : silent e = true → quiet w w' → quiet w (emit e w').
Proof. intros H Hq. eapply quiet_trans; [apply Hq|]. by apply quiet_emit. Qed.

(** Peels the silent events off the world on the right. *)
Ltac quiet := repeat (apply quiet_emit_r; [reflexivity|]); try apply quiet_refl.

Lemma quiet_count f w w' :
  (∀ e, silent e = true → f e = false) → quiet w w' → count f w' = count f w.
Proof.
  intros Hf (evs & Hs & ->). unfold count. cbn [trace].
  induction evs as [|e evs IH]; [done|].
  cbn in Hs. apply andb_prop in Hs as [He Hs].
  cbn. rewrite (Hf e He). by apply IH.
Qed.

Lemma quiet_posts w w' : quiet w w' → count is_post w' = count is_post w.
Proof. apply quiet_count. by intros []. Qed.

Lemma quiet_removes p w w' :
  quiet w w' → count (is_remove p) w' = count (is_remove p) w.
Proof. apply quiet_count. by intros []. Qed.

Lemma quiet_fs w w' : quiet w w' → fs w' = fs w.
Proof. by intros (evs & _ & ->). Qed.

Lemma quiet_clock w w' : quiet w w' → clock w' = clock w.
Proof. by intros (evs & _ & ->). Qed.

Lemma quiet_issuer w w' : quiet w w' → issuer w' (posts w') = issuer w (posts w).
Proof. by intros (evs & _ & ->). Qed.

Lemma quiet_source w w' : quiet w w' → config_source w' = config_source w.
Proof. by intros (evs & _ & ->). Qed.

Lemma set_log_level_quiet name w :
  ∃ w', Logger.set_log_level (JStr name) w = (w', Ok tt) ∧ quiet w w'.
Proof.
  unfold Logger.set_log_level. run_main.
  destruct (bool_decide _); eexists; (split; [reflexivity|]).
  - apply quiet_refl.
  - by apply quiet_emit.
Qed.

Lemma checker_stop_quiet checker w :
  ∃ checker' w', Token.stop checker w = (w', Ok checker') ∧ quiet w w'.
Proof.
  unfold Token.stop. run_main.
  destruct (_timer _); cbn; eexists _, _; (split; [reflexivity|]).
  - apply (quiet_step EvTimerCancel); [done|]. by apply quiet_emit.
  - by apply quiet_emit.
Qed.

(** [start_token_expiration_check] returns, touches the checker only and
    emits silent events only. *)
Lemma start_token_expiration_check_quiet self w :
  ∃ checker w',
    start_token_expiration_check (self, w)
    = ((with_token_checker (Some checker) self, w'), Ok tt)
    ∧ quiet w w'.
Proof.
  unfold start_token_expiration_check. run_main.
  destruct (_token_checker self) as [old|].
  - destruct (checker_stop_quiet old w) as (c' & w1 & -> & Hq).
    cbv beta iota delta [Token.start Token.new_checker Token._schedule_next_check
                         Token.with_running Token._running Token.with_timer
                         bind ret modify log negb].
    eexists _, _. split; [reflexivity|].
    eapply quiet_trans; [apply Hq|].
    apply (quiet_step (EvTimerStart INITIAL_TOKEN_CHECK_DELAY_SECONDS)); [done|].
    by apply quiet_emit.
  - cbv beta iota delta [Token.start Token.new_checker Token._schedule_next_check
                         Token.with_running Token._running Token.with_timer
                         bind ret modify log negb].
    eexists _, _. split; [reflexivity|].
    apply (quiet_step (EvTimerStart INITIAL_TOKEN_CHECK_DELAY_SECONDS)); [done|].
    by apply quiet_emit.
Qed.

Lemma normalize_insecure_lookup doc k :
  k ≠ "insecure" → normalize_insecure doc !! k = doc !! k.
Proof.
  intros Hk. unfold normalize_insecure.
  destruct (doc !! "insecure"); [|done]. by rewrite lookup_insert_ne.
Qed.

Lemma normalize_insecure_hash fingerprint doc :
  current_hash fingerprint (normalize_insecure doc) = current_hash fingerprint doc.
Proof.
  unfold current_hash, get_default. by rewrite !normalize_insecure_lookup.
Qed.

Lemma has_config self cfg k v :
  cfg !! k = Some v → no_config (with_config_data cfg self) = false.
Proof.
  intros H. unfold no_config. cbn. apply bool_decide_eq_false.
  intros E. by rewrite E, lookup_empty in H.
Qed.

(** *** The handlers of a failed token request *)

Ltac run_handlers :=
  cbv beta iota delta
    [dispatch handlers isinstance_any existsb isinstance orb
     log_and_fail_if_first on_http_error on_token_error];
  run_main.

(** With a configuration in memory, a benign exception is logged and
    [load_config] returns. *)
Lemma handlers_benign nested e self w :
  benign e →
  no_config self = false →
  ∃ w', dispatch (handlers nested) e (self, w) = ((self, w'), Ok tt) ∧ quiet w w'.
Proof.
  intros He Hc.
  destruct e as [| |status body| | | | | |key| | | | |]; try done; cbn [benign] in He; subst.
  - run_handlers. rewrite Hc. eexists. split; [reflexivity|quiet].
  - run_handlers. destruct (is_invalid_client _); rewrite ?Hc;
      (eexists; split; [reflexivity|quiet]).
  - run_handlers. rewrite Hc. eexists. split; [reflexivity|quiet].
  - run_handlers. rewrite Hc. eexists. split; [reflexivity|quiet].
  - run_handlers. rewrite Hc. eexists. split; [reflexivity|quiet].
  - run_handlers.
    change (contains (lower (exn_str (KeyError "expires_in"))) "token") with false.
    cbn [andb]. rewrite Hc. eexists. split; [reflexivity|quiet].
Qed.

(** *** The token part of a reload *)

Lemma read_token_line p self w c :
  fs w !! p = Some (token_line c) →
  read_token p (self, w)
  = ((with_voipnow_token (Some (last_item (split ":" (rstrip (secret c))) "")) self, w),
     Ok tt).
Proof.
  intros H. unfold read_token. run_main.
  rewrite (safe_read_token_line _ _ _ H), split_stripped_line.
  cbn [last_item List.last].
  pose proof (split_nonempty ":" (rstrip (secret c))).
  by destruct (split ":" (rstrip (secret c))).
Qed.

Lemma no_config_with_voipnow_token t self :
  no_config (with_voipnow_token t self) = no_config self.
Proof. done. Qed.

Section Reload.

Context (fingerprint : jvalue → jvalue → jvalue → string).
Context (doc : gmap string jvalue) (self : manager) (w : world) (p host : string).
Hypothesis Hp : doc !! "voipnowTokenFile" = Some (JStr p).
Hypothesis Hne : p ≠ "".
Hypothesis Hhost : doc !! "voipnowHost" = Some (JStr host).
Hypothesis Hid : is_Some (doc !! "appId").
Hypothesis Hsecret : is_Some (doc !! "appSecret").

Lemma token_file_path_value :
  get_default (normalize_insecure doc) "voipnowTokenFile" JNull = JStr p.
Proof. unfold get_default. rewrite normalize_insecure_lookup by done. by rewrite Hp. Qed.

(** The last steps of [install], from the reading of the token on. *)
Lemma install_tail self1 self2 w1 :
  read_token p (self1, w1) = ((self2, w1), Ok tt) →
  ∃ self' w',
    (let (s', o) := read_token p (self1, w1) in
     match o with
     | Ok _ =>
         let (s'0, o0) := let '(self0, w0) := s' in (self0, w0, Ok self0) in
         match o0 with
         | Ok a1 =>
             let (s'1, o1) :=
               let '(self0, w0) := s'0 in
               (with_voipnow_config (derived_config a1) self0, w0, Ok ()) in
             match o1 with
             | Ok _ =>
                 let (s'2, o2) :=
                   let '(self0, w0) := s'1 in
                   (self0, emit (EvLog INFO "Configuration reloaded.") w0, Ok ()) in
                 match o2 with
                 | Ok _ => start_token_expiration_check s'2
                 | Raise e0 => (s'2, Raise e0)
                 | Hang => (s'2, Hang)
                 | OutOfFuel => (s'2, OutOfFuel)
                 end
             | Raise e0 => (s'1, Raise e0)
             | Hang => (s'1, Hang)
             | OutOfFuel => (s'1, OutOfFuel)
             end
         | Raise e0 => (s'0, Raise e0)
         | Hang => (s'0, Hang)
         | OutOfFuel => (s'0, OutOfFuel)
         end
     | Raise e0 => (s', Raise e0)
     | Hang => (s', Hang)
     | OutOfFuel => (s', OutOfFuel)
     end) = ((self', w'), Ok tt)
    ∧ quiet w1 w'
    ∧ config_data self' = config_data self2
    ∧ voipnow_config self' = derived_config self2.
Proof.
  intros ->. cbv beta iota.
  destruct (start_token_expiration_check_quiet
              (with_voipnow_config (derived_config self2) self2)
              (emit (EvLog INFO "Configuration reloaded.") w1))
    as (checker & w' & -> & Hq).
  eexists _, _. split; [reflexivity|]. split; [|done].
  by apply (quiet_step (EvLog INFO "Configuration reloaded.")).
Qed.

(** [install] when the stored fingerprint differs: the token file is
    deleted and one request is sent. *)
Lemma install_changed stored old :
  fs w !! (p ++ ".config_hash") = Some stored →
  strip stored ≠ current_hash fingerprint doc →
  fs w !! p = Some old →
  ¬ lacks_access_token (issuer w (posts w)) →
  ∃ self' w' r,
    install fingerprint doc (self, w) = ((self', w'), r)
    ∧ no_config self' = false
    ∧ count is_post w' = S (count is_post w)
    ∧ count (is_remove p) w' = S (count (is_remove p) w)
    ∧ (r = Ok tt ∨ ∃ e, r = Raise e ∧ benign e)
    ∧ ∀ e a, issuer w (posts w) = Reply200 (Some e) (Some a) →
        r = Ok tt
        ∧ fs w' !! p
          = Some (token_line (mkCredential (int_of_float (clock w))
                                (int_of_float (clock w) + e) a)).
Proof.
  intros Hst Hdiff Hold Hr.
  assert (Hcfg : ∀ m, no_config (with_config_data (normalize_insecure doc) m) = false).
  { intros m. apply (has_config _ _ "voipnowTokenFile" (JStr p)).
    by rewrite normalize_insecure_lookup. }
  unfold install. run_main.
  cbn [config_data with_config_data]. rewrite token_file_path_value. cbn [truthy].
  apply String.eqb_neq in Hne as Hne'. rewrite Hne'. cbn [negb]. unfold abspath.
  rewrite (check_config_change_changed fingerprint (normalize_insecure doc) w p stored old);
    [ | by rewrite normalize_insecure_lookup | done | done
      | by rewrite normalize_insecure_hash | done].
  rewrite normalize_insecure_hash.
  unfold needs_regeneration. run_main. unfold Token.os_path_exists.
  cbn [fs emit after_change set_fs]. rewrite lookup_delete_eq.
  assert (bool_decide (is_Some (@None string)) = false) as -> by done.
  cbn [negb].
  rewrite (generate_token_request (normalize_insecure doc) host);
    [ | by rewrite normalize_insecure_lookup | by rewrite normalize_insecure_lookup
      | by rewrite normalize_insecure_lookup ].
  rewrite normalize_insecure_lookup by done. rewrite Hp.
  cbn [issuer posts clock emit after_change set_fs].
  destruct (issuer w (posts w)) as [[e|] [a|]| | | | |].
  1:{ edestruct install_tail as (self' & w' & -> & Hq & Hc & _).
      { apply (read_token_line _ _ _ (mkCredential (int_of_float (clock w))
                                        (int_of_float (clock w) + e) a)).
        cbn [fs set_fs]. apply lookup_insert_eq. }
      exists self', w', (Ok tt). split; [done|].
      split; [unfold no_config; rewrite Hc; apply Hcfg|].
      split; [by rewrite (quiet_posts _ _ Hq)|].
      split; [rewrite (quiet_removes _ _ _ Hq); unfold count; cbn;
              by rewrite String.eqb_refl|].
      split; [by left|]. intros e' a' [= <- <-]. split; [done|].
      rewrite (quiet_fs _ _ Hq). cbn [fs set_fs]. apply lookup_insert_eq. }
  1:{ by destruct Hr. }
  all: eexists _, _, _; (split; [reflexivity|]); (split; [apply Hcfg|]);
    (split; [done|]); (split; [unfold count; cbn; by rewrite String.eqb_refl|]);
    (split; [right; by eexists|done]).
Qed.

End Reload.

(** *** Reads of the token file in worlds that differ by silent events *)

Lemma safe_read_result p w :
  _safe_read_token_file p w = (w, snd (_safe_read_token_file p w)).
Proof.
  pose proof (safe_read_world p w) as H.
  destruct (_safe_read_token_file p w). cbn [fst snd] in *. by subst.
Qed.

Lemma safe_read_quiet p w w' :
  quiet w w' → _safe_read_token_file p w' = (w', snd (_safe_read_token_file p w)).
Proof.
  intros Hq. rewrite (safe_read_result p w'). f_equal.
  unfold _safe_read_token_file. run. rewrite (quiet_fs _ _ Hq).
  destruct (fs w !! p); [|done].
  destruct (String.eqb _ _); [done|]. by destruct (_ <? _)%nat.
Qed.

Lemma check_token_result p w : check_token p w = (w, snd (check_token p w)).
Proof.
  pose proof (check_token_world p w) as H.
  destruct (check_token p w). cbn [fst snd] in *. by subst.
Qed.

Lemma check_token_quiet p w w' :
  quiet w w' → check_token p w' = (w', snd (check_token p w)).
Proof.
  intros Hq. unfold check_token, _safe_read_token_file. run.
  rewrite (quiet_fs _ _ Hq).
  destruct (fs w !! p) as [content|]; [|reflexivity].
  destruct (String.eqb (strip content) ""); [reflexivity|].
  destruct (_ <? _)%nat; [reflexivity|].
  destruct (split ":" (strip content) !! 1%nat) as [part|]; [|reflexivity].
  destruct (int_of_str part); [|reflexivity].
  by rewrite (quiet_clock _ _ Hq).
Qed.

(** A check that returns has read the file. *)
Lemma check_token_read p w b :
  snd (check_token p w) = Ok b →
  ∃ token_data, _safe_read_token_file p w = (w, Ok token_data)
                ∧ is_Some (fs w !! p).
Proof.
  unfold check_token. run. rewrite (safe_read_result p w).
  assert (is_Some (fs w !! p) ∨ ∃ m, snd (_safe_read_token_file p w) = Raise (ValueError m))
    as Hfile.
  { unfold _safe_read_token_file. run. destruct (fs w !! p); [by left|right; by eexists]. }
  destruct (snd (_safe_read_token_file p w)) as [token_data|e| |]; try done.
  - intros _. exists token_data. split; [done|].
    by destruct Hfile as [?|[m ?]].
  - by destruct (isinstance_any _ _).
Qed.

Section Unchanged.

Context (fingerprint : jvalue → jvalue → jvalue → string).
Context (doc : gmap string jvalue) (self : manager) (w : world) (p : string).
Hypothesis Hp : doc !! "voipnowTokenFile" = Some (JStr p).
Hypothesis Hne : p ≠ "".

(** [install] when the stored fingerprint is the current one and the token
    is fresh: no file is touched and no request is sent. *)
Lemma install_unchanged stored :
  fs w !! (p ++ ".config_hash") = Some stored →
  strip stored = current_hash fingerprint doc →
  snd (check_token p w) = Ok false →
  ∃ self' w',
    install fingerprint doc (self, w) = ((self', w'), Ok tt) ∧ quiet w w'.
Proof.
  intros Hst Hsame Hfresh.
  destruct (check_token_read _ _ _ Hfresh) as (token_data & Hread & Hfile).
  unfold install. run_main.
  cbn [config_data with_config_data].
  rewrite (token_file_path_value doc p Hp). cbn [truthy].
  apply String.eqb_neq in Hne as Hne'. rewrite Hne'. cbn [negb]. unfold abspath.
  rewrite (check_config_change_unchanged fingerprint (normalize_insecure doc) w _ stored);
    [ | done | by rewrite normalize_insecure_hash ].
  unfold needs_regeneration. run_main. unfold Token.os_path_exists.
  rewrite (bool_decide_eq_true_2 _ Hfile). cbn [negb].
  rewrite (check_token_result p w), Hfresh.
  edestruct (install_tail p) as (self' & w' & -> & Hq & _).
  { unfold read_token. run_main. by rewrite Hread. }
  by eexists _, _.
Qed.

End Unchanged.

(** *** A whole reload *)

Lemma check_document_accepts_quiet secure doc self w :
  required_present doc →
  no_extra_keys doc →
  log_level_is_text doc →
  valid_host doc →
  auth_token_present secure doc →
  ∃ w1, check_document secure doc (self, w) = ((self, w1), Ok true) ∧ quiet w w1.
Proof.
  intros H1 H2 H3 H4 H5. rewrite check_document_accepts by done.
  assert (∃ name, get_default doc "logLevel" (JStr "INFO") = JStr name) as [name ->].
  { unfold get_default. destruct (doc !! "logLevel") as [v|] eqn:E; [|by eexists].
    destruct (H3 v E) as [name ->]. by eexists. }
  destruct (set_log_level_quiet name w) as (w1 & -> & Hq). by exists w1.
Qed.

(** The steps of [load_config] up to [install], for a document that passes
    the checks. *)
Lemma load_config_to_install secure fingerprint self w doc :
  config_source w = ReadDoc doc →
  required_present doc →
  no_extra_keys doc →
  log_level_is_text doc →
  valid_host doc →
  auth_token_present secure doc →
  ∃ w1,
    quiet w w1
    ∧ load_config secure fingerprint (mkConfigManager false self, w)
      = match try_clauses (install fingerprint doc)
                (handlers (from_inside (load_config_fuel secure fingerprint 1)))
                (self, w1) with
        | ((self', w'), Hang) => ((mkConfigManager true self', w'), Hang)
        | ((self', w'), OutOfFuel) => ((mkConfigManager true self', w'), OutOfFuel)
        | ((self', w'), r) => ((mkConfigManager false self', w'), r)
        end.
Proof.
  intros Hsrc H1 H2 H3 H4 H5.
  destruct (check_document_accepts_quiet secure doc self (emit EvEnterLoadConfig w))
    as (w1 & Hdoc & Hq); try done.
  exists w1. split; [by apply (quiet_step EvEnterLoadConfig)|].
  unfold load_config. cbn [load_config_fuel]. unfold enter, with_lock.
  unfold bind at 1. cbn [lock attrs].
  unfold load_config_body, try_clauses, read_config.
  unfold bind at 2. unfold bind at 1. cbn [config_source emit]. rewrite Hsrc.
  unfold bind at 1. rewrite Hdoc. reflexivity.
Qed.

(** C4, amended: in a reload of a document that passes the checks, with a
    token file and a fingerprint file present: when the stored fingerprint
    differs from the current one and the reply to the token request is not
    a success without access_token, the token file is deleted and exactly
    one token request is made, whatever the old token file holds (expired
    or not), and a granted token is stored; when the stored fingerprint is
    the current one and the token is fresh, the token file is neither
    deleted nor changed and no request is made. *)
Theorem fingerprint_change_reissues_once secure fingerprint cm w doc p old stored :
  lock cm = false →
  no_config (attrs cm) = false →
  config_source w = ReadDoc doc →
  required_present doc →
  no_extra_keys doc →
  log_level_is_text doc →
  valid_host doc →
  auth_token_present secure doc →
  doc !! "voipnowTokenFile" = Some (JStr p) →
  p ≠ "" →
  fs w !! p = Some old →
  fs w !! (p ++ ".config_hash") = Some stored →
  let after := load_config secure fingerprint (cm, w) in
  (strip stored ≠ current_hash fingerprint doc →
   ¬ lacks_access_token (issuer w (posts w)) →
   snd after = Ok tt
   ∧ count (is_remove p) (snd (fst after)) = S (count (is_remove p) w)
   ∧ count is_post (snd (fst after)) = S (count is_post w)
   ∧ ∀ e a, issuer w (posts w) = Reply200 (Some e) (Some a) →
       fs (snd (fst after)) !! p
       = Some (token_line (mkCredential (int_of_float (clock w))
                             (int_of_float (clock w) + e) a)))
  ∧ (strip stored = current_hash fingerprint doc →
     snd (check_token p w) = Ok false →
     snd after = Ok tt
     ∧ count (is_remove p) (snd (fst after)) = count (is_remove p) w
     ∧ fs (snd (fst after)) !! p = Some old
     ∧ count is_post (snd (fst after)) = count is_post w).
Proof.
  intros Hlock _ Hsrc H1 H2 H3 H4 H5 Hp Hne Hold Hst after.
  destruct cm as [l self]. cbn in Hlock. subst l.
  destruct (load_config_to_install secure fingerprint self w doc)
    as (w1 & Hq1 & Hload); try done.
  subst after. rewrite Hload. clear Hload. unfold try_clauses.
  pose proof H4 as (host & Hhost & _).
  assert (Hid : is_Some (doc !! "appId")).
  { apply H1. unfold required_keys. rewrite !elem_of_cons. tauto. }
  assert (Hsecret : is_Some (doc !! "appSecret")).
  { apply H1. unfold required_keys. rewrite !elem_of_cons. tauto. }
  split.
  - intros Hdiff Hreply.
    destruct (install_changed fingerprint doc self w1 p host Hp Hne Hhost Hid Hsecret
                stored old)
      as (self' & w' & r & -> & Hcfg & Hposts & Hrem & Hr & Hgrant).
    { by rewrite (quiet_fs _ _ Hq1). }
    { done. }
    { by rewrite (quiet_fs _ _ Hq1). }
    { by rewrite (quiet_issuer _ _ Hq1). }
    rewrite (quiet_posts _ _ Hq1) in Hposts.
    rewrite (quiet_removes _ _ _ Hq1) in Hrem.
    rewrite (quiet_issuer _ _ Hq1), (quiet_clock _ _ Hq1) in Hgrant.
    destruct Hr as [-> | (e & -> & He)].
    + cbn [fst snd]. repeat split; try done. intros e a Hg. by apply Hgrant.
    + destruct (handlers_benign (from_inside (load_config_fuel secure fingerprint 1))
                  e self' w' He Hcfg) as (w2 & -> & Hq2).
      cbn [fst snd].
      rewrite (quiet_posts _ _ Hq2), (quiet_removes _ _ _ Hq2).
      repeat split; try done. intros e' a' Hg. by destruct (Hgrant e' a' Hg).
  - intros Hsame Hfresh.
    destruct (install_unchanged fingerprint doc self w1 p Hp Hne stored)
      as (self' & w' & -> & Hq).
    { by rewrite (quiet_fs _ _ Hq1). }
    { done. }
    { by rewrite (check_token_quiet _ _ _ Hq1). }
    cbn [fst snd].
    assert (Hq' : quiet w w') by by eapply quiet_trans.
    rewrite (quiet_posts _ _ Hq'), (quiet_removes _ _ _ Hq'), (quiet_fs _ _ Hq').
    done.
Qed.

Lemma fingerprint_change_reissues_once_witness :
  let after :=
    load_config false Scenario.fingerprint
      (fst Scenario.before_reload_secret, snd Scenario.before_reload_secret) in
  (strip "A1|S1|https://pbx.example.com"
   ≠ current_hash Scenario.fingerprint Scenario.doc_secret →
   ¬ lacks_access_token
       (issuer (snd Scenario.before_reload_secret) (posts (snd Scenario.before_reload_secret))) →
   snd after = Ok tt
   ∧ count (is_remove Scenario.tok) (snd (fst after))
     = S (count (is_remove Scenario.tok) (snd Scenario.before_reload_secret))
   ∧ count is_post (snd (fst after)) = S (count is_post (snd Scenario.before_reload_secret))
   ∧ ∀ e a,
       issuer (snd Scenario.before_reload_secret) (posts (snd Scenario.before_reload_secret))
       = Reply200 (Some e) (Some a) →
       fs (snd (fst after)) !! Scenario.tok
       = Some (token_line
                 (mkCredential (int_of_float (clock (snd Scenario.before_reload_secret)))
                    (int_of_float (clock (snd Scenario.before_reload_secret)) + e) a)))
  ∧ (strip "A1|S1|https://pbx.example.com"
     = current_hash Scenario.fingerprint Scenario.doc_secret →
     snd (check_token Scenario.tok (snd Scenario.before_reload_secret)) = Ok false →
     snd after = Ok tt
     ∧ count (is_remove Scenario.tok) (snd (fst after))
       = count (is_remove Scenario.tok) (snd Scenario.before_reload_secret)
     ∧ fs (snd (fst after)) !! Scenario.tok = Some "1000:4600:T1"
     ∧ count is_post (snd (fst after)) = count is_post (snd Scenario.before_reload_secret)).
Proof.
  apply (fingerprint_change_reissues_once false Scenario.fingerprint
           (fst Scenario.before_reload_secret) (snd Scenario.before_reload_secret)
           Scenario.doc_secret Scenario.tok "1000:4600:T1" "A1|S1|https://pbx.example.com").
  - vm_compute. reflexivity.
  - vm_compute. reflexivity.
  - reflexivity.
  - apply missing_keys_nil. vm_compute. reflexivity.
  - apply extra_keys_nil. vm_compute. reflexivity.
  - intros v H. vm_compute in H. discriminate H.
  - exists "https://pbx.example.com". split; [reflexivity|right; reflexivity].
  - intros H. discriminate H.
  - reflexivity.
  - intros H. discriminate H.
  - vm_compute. reflexivity.
  - vm_compute. reflexivity.
Defined.

(** C4 as stated fails when the reply to the token request is a success
    without access_token: after the secret has been edited, the reload
    deletes the token file, makes two token requests, stores no token and
    ends with a KeyError. *)
Lemma fingerprint_change_counterexample :
  fs (snd Scenario.loaded) !! (Scenario.tok ++ ".config_hash")
  = Some "A1|S1|https://pbx.example.com"
  ∧ current_hash Scenario.fingerprint Scenario.doc_secret = "A1|S2|https://pbx.example.com"
  ∧ count (is_remove Scenario.tok) (snd (fst Scenario.reload_secret_incomplete))
    = S (count (is_remove Scenario.tok) (snd Scenario.loaded))
  ∧ count is_post (snd (fst Scenario.reload_secret_incomplete))
    = S (S (count is_post (snd Scenario.loaded)))
  ∧ fs (snd (fst Scenario.reload_secret_incomplete)) !! Scenario.tok = None
  ∧ snd Scenario.reload_secret_incomplete = Raise (KeyError "access_token").
Proof. repeat split; vm_compute; reflexivity. Qed.


(** A token with a colon, granted on the first load, is published without
    what precedes its last colon. *)
Example first_load_publishes_last_part :
  let after := load_config false Scenario.fingerprint (Scenario.fresh, Scenario.w_colon) in
  snd after = Ok tt
  ∧ fs (snd (fst after)) !! Scenario.tok = Some "1000:4600:ab:cd"
  ∧ voipnow_config (attrs (fst (fst after))) !! "voipnowToken" = Some (JStr "cd").
Proof. repeat split; vm_compute; reflexivity. Qed.

(** *** The two defects, in general *)

(** Whatever is in memory, a document with a host of another scheme makes
    [load_config] raise ConfigurationError; the attributes of the manager
    are left as they were. *)
Lemma bad_scheme_always_raises secure fingerprint self w doc host :
  config_source w = ReadDoc doc →
  required_present doc →
  no_extra_keys doc →
  log_level_is_text doc →
  doc !! "voipnowHost" = Some (JStr host) →
  startswith host "https://" = false →
  startswith host "http://" = false →
  ∃ w',
    load_config secure fingerprint (mkConfigManager false self, w)
    = ((mkConfigManager false self, w'), Raise (ConfigurationError invalid_url))
    ∧ quiet w w'.
Proof.
  intros Hsrc Hreq Hextra Hlvl Hhost Hs Hp.
  assert (∃ name, get_default doc "logLevel" (JStr "INFO") = JStr name) as [name Hname].
  { unfold get_default. destruct (doc !! "logLevel") as [v|] eqn:E; [|by eexists].
    destruct (Hlvl v E) as [name ->]. by eexists. }
  destruct (set_log_level_quiet name (emit EvEnterLoadConfig w)) as (w1 & Hlog & Hq).
  exists (emit (EvLog ERROR invalid_url) w1). split.
  - unfold load_config. cbn [load_config_fuel]. unfold enter, with_lock.
    unfold bind at 1. cbn [lock attrs].
    unfold load_config_body, try_clauses, read_config.
    unfold bind at 2. unfold bind at 1. cbn [config_source emit]. rewrite Hsrc.
    unfold bind at 1. unfold check_document. run_main.
    rewrite (bool_decide_nil_true _ (proj2 (missing_keys_nil doc) Hreq)).
    cbn [negb andb]. rewrite !andb_false_r.
    rewrite (bool_decide_nil_true _ (proj2 (extra_keys_nil doc) Hextra)).
    cbn [negb andb]. rewrite !andb_false_r. cbn [negb].
    rewrite Hname, Hlog. unfold get_default. rewrite Hhost. cbn [default from_option id].
    rewrite Hs, Hp. cbn [negb andb]. reflexivity.
  - apply quiet_emit_r; [done|]. by apply (quiet_step EvEnterLoadConfig).
Qed.

(** In the handler of a token error, a second token request that succeeds
    is followed by the call of [load_config] that never gets the lock. *)
Lemma token_error_retry_always_blocks secure fingerprint e self w w' :
  contains (lower (exn_str e)) "token" = true →
  no_config self = false →
  generate_token (config_data self)
    (emit (EvLog WARNING "Token error detected, attempting to regenerate token...") w)
  = (w', Ok tt) →
  on_token_error (from_inside (load_config_fuel secure fingerprint 1)) e (self, w)
  = ((self, emit EvEnterLoadConfig w'), Hang).
Proof.
  intros He Hc Hgen. unfold on_token_error. run_main.
  rewrite He, Hc. cbn [negb andb]. by rewrite Hgen.
Qed.

End MainFacts.

(** ** utils/token.py: the token file and the fingerprint, further *)

Module TokenMore.
Import Py PyFacts Token TokenFacts Main MainFacts.
#[local] Arguments String.append !s1 s2 / : simpl nomatch.


(** X2: check_token fails exactly when get_expiration_timestamp fails,
    with the same exception; otherwise it tells whether the clock, in whole
    seconds, has reached that timestamp minus 300. *)
Theorem check_token_agrees_with_expiration p w :
  snd (check_token p w)
  = match snd (get_expiration_timestamp p w) with
    | Ok expires => Ok (int_of_float (clock w) >=? expires - 300)
    | Raise e => Raise e
    | Hang => Hang
    | OutOfFuel => OutOfFuel
    end.
Proof.
  unfold check_token, get_expiration_timestamp. run.
  rewrite (safe_read_result p w).
  destruct (snd (_safe_read_token_file p w)) as [token_data|e| |]; try reflexivity.
  - destruct (split ":" token_data !! 1%nat); [|reflexivity].
    destruct (int_of_str _); reflexivity.
  - destruct (isinstance_any _ _); reflexivity.
Qed.


(** X4: a token that generate_token has just stored is read back with
    the expiry now + expires_in, whatever the access token is made of, and
    check_token reports it as expiring exactly when expires_in is at most
    300. *)
Theorem fresh_token_expiring_iff_short_lived cfg w host p e a :
  cfg !! "voipnowHost" = Some (JStr host) →
  is_Some (cfg !! "appId") →
  is_Some (cfg !! "appSecret") →
  cfg !! "voipnowTokenFile" = Some (JStr p) →
  issuer w (posts w) = Reply200 (Some e) (Some a) →
  ∃ w', generate_token cfg w = (w', Ok tt)
        ∧ snd (get_expiration_timestamp p w') = Ok (int_of_float (clock w) + e)
        ∧ snd (check_token p w') = Ok (e <=? 300).
Proof.
  intros Hh Hi Hs Hp Hr.
  rewrite (generate_token_request _ _ _ Hh Hi Hs), Hr, Hp.
  eexists. split; [reflexivity|].
  set (c := mkCredential (int_of_float (clock w)) (int_of_float (clock w) + e) a).
  assert (Hfs : ∀ w1 : world,
             fs (set_fs (λ f, <[p := token_line c]> (delete (p ++ ".tmp") f)) w1) !! p
             = Some (token_line c)).
  { intros w1. cbn [fs set_fs]. apply lookup_insert_eq. }
  rewrite (get_expiration_timestamp_line _ _ c) by apply Hfs.
  rewrite (check_token_line _ _ c) by apply Hfs.
  split; [reflexivity|]. cbn [snd]. f_equal.
  cbn [clock set_fs posted next_post emit expiresAt c].
  rewrite Z.geb_leb. apply eq_iff_eq_true. rewrite !Z.leb_le. lia.
Qed.

Lemma fresh_token_expiring_iff_short_lived_witness :
  ∃ w', generate_token Scenario.doc1 Scenario.w_first = (w', Ok tt)
        ∧ snd (get_expiration_timestamp Scenario.tok w')
          = Ok (int_of_float (clock Scenario.w_first) + 3600)
        ∧ snd (check_token Scenario.tok w') = Ok (3600 <=? 300).
Proof.
  apply (fresh_token_expiring_iff_short_lived Scenario.doc1 Scenario.w_first
           "https://pbx.example.com" Scenario.tok 3600 "T1");
    first [reflexivity | by eexists].
Defined.

Lemma check_config_change_cases fingerprint cfg hash_file w :
  let h := current_hash fingerprint cfg in
  let tmp := hash_file ++ ".tmp" in
  let fs1 := <[hash_file := h]> (delete tmp (<[tmp := h]> (fs w))) in
  match fs w !! hash_file with
  | None =>
      check_config_change fingerprint cfg hash_file w
      = (set_fs (<[hash_file := h]>) w, Ok false)
  | Some stored =>
      if String.eqb (strip stored) h then
        check_config_change fingerprint cfg hash_file w = (w, Ok false)
      else
        match cfg !! "voipnowTokenFile" with
        | Some (JStr p) =>
            ∃ w', check_config_change fingerprint cfg hash_file w = (w', Ok true)
                  ∧ fs w' = if negb (String.eqb p "") && bool_decide (is_Some (fs1 !! p))
                            then delete p fs1 else fs1
        | Some v =>
            if truthy v then
              ∃ w', check_config_change fingerprint cfg hash_file w = (w', Raise TypeError)
            else
              ∃ w', check_config_change fingerprint cfg hash_file w = (w', Ok true)
                    ∧ fs w' = fs1
        | None =>
            ∃ w', check_config_change fingerprint cfg hash_file w = (w', Ok true)
                  ∧ fs w' = fs1
        end
  end.
Proof.
  cbv zeta. unfold check_config_change. fold (current_hash fingerprint cfg). run.
  destruct (fs w !! hash_file) as [stored|] eqn:Hst; [|reflexivity].
  destruct (String.eqb (strip stored) (current_hash fingerprint cfg)) eqn:E;
    cbn [negb]; [reflexivity|].
  cbn [fs set_fs]. rewrite lookup_insert_eq. cbn [fs set_fs].
  rewrite lookup_insert_ne by (apply not_eq_sym, app_neq; done).
  rewrite lookup_delete_eq.
  assert (bool_decide (is_Some (@None string)) = false) as -> by done.
  destruct (cfg !! "voipnowTokenFile") as [[|b|n|p]|].
  - cbn [truthy]. eexists. split; reflexivity.
  - cbn [truthy]. destruct b; eexists; try split; reflexivity.
  - cbn [truthy]. destruct (negb (n =? 0)); eexists; try split; reflexivity.
  - cbn [fs set_fs].
    destruct (negb (p =? "")%string && bool_decide (is_Some _)) eqn:B.
    + apply andb_prop in B as [B1 B2]. apply bool_decide_eq_true in B2 as [c B2].
      cbn [fs set_fs]. rewrite B2. eexists. split; reflexivity.
    + eexists. split; reflexivity.
  - eexists. split; reflexivity.
Qed.

(** X5: check_config_change returns True exactly when a fingerprint is
    stored and differs, without the white space at its ends, from the
    current one; then the token file is gone and the current fingerprint is
    stored.  Otherwise, also on the first call when no fingerprint is
    stored, it returns False and the token file is as it was. *)
Theorem config_change_reported_iff_stored_differs fingerprint cfg hash_file p w :
  cfg !! "voipnowTokenFile" = Some (JStr p) →
  p ≠ "" →
  p ≠ hash_file →
  let after := check_config_change fingerprint cfg hash_file w in
  (snd after = Ok true
   ↔ ∃ stored, fs w !! hash_file = Some stored
               ∧ strip stored ≠ current_hash fingerprint cfg)
  ∧ (snd after = Ok true →
     fs (fst after) !! p = None
     ∧ fs (fst after) !! hash_file = Some (current_hash fingerprint cfg))
  ∧ (snd after ≠ Ok true →
     snd after = Ok false ∧ fs (fst after) !! p = fs w !! p).
Proof.
  intros Hp Hne Hhf after. subst after.
  pose proof (check_config_change_cases fingerprint cfg hash_file w) as H.
  cbv zeta in H.
  destruct (fs w !! hash_file) as [stored|] eqn:Hst.
  - destruct (String.eqb (strip stored) (current_hash fingerprint cfg)) eqn:E.
    + rewrite H. cbn [fst snd]. apply String.eqb_eq in E.
      split; [|split]; try done.
      split; [done|]. intros (s & [= <-] & Hd). done.
    + rewrite Hp in H. destruct H as (w' & -> & Hfs). cbn [fst snd].
      apply String.eqb_neq in E.
      split; [|split]; try done.
      * split; [|done]. intros _. by exists stored.
      * intros _. rewrite Hfs.
        destruct (negb (p =? "")%string && bool_decide (is_Some _)) eqn:B.
        -- rewrite lookup_delete_eq. split; [done|].
           rewrite lookup_delete_ne by done. apply lookup_insert_eq.
        -- split; [|apply lookup_insert_eq].
           apply andb_false_iff in B as [B|B].
           ++ apply negb_false_iff, String.eqb_eq in B. done.
           ++ apply bool_decide_eq_false in B.
              destruct (_ !! p) eqn:L; [|done]. destruct B. by eexists.
  - rewrite H. cbn [fst snd].
    split; [|split]; try done.
    + split; [done|]. by intros (s & [=] & _).
    + intros _. split; [done|]. cbn [fs set_fs]. by rewrite lookup_insert_ne.
Qed.

Lemma config_change_reported_iff_stored_differs_witness :
  let after :=
    check_config_change Scenario.fingerprint Scenario.doc_secret
      (Scenario.tok ++ ".config_hash") (snd Scenario.loaded) in
  (snd after = Ok true
   ↔ ∃ stored, fs (snd Scenario.loaded) !! (Scenario.tok ++ ".config_hash") = Some stored
               ∧ strip stored ≠ current_hash Scenario.fingerprint Scenario.doc_secret)
  ∧ (snd after = Ok true →
     fs (fst after) !! Scenario.tok = None
     ∧ fs (fst after) !! (Scenario.tok ++ ".config_hash")
       = Some (current_hash Scenario.fingerprint Scenario.doc_secret))
  ∧ (snd after ≠ Ok true →
     snd after = Ok false
     ∧ fs (fst after) !! Scenario.tok = fs (snd Scenario.loaded) !! Scenario.tok).
Proof.
  apply (config_change_reported_iff_stored_differs Scenario.fingerprint Scenario.doc_secret
           (Scenario.tok ++ ".config_hash") Scenario.tok (snd Scenario.loaded));
    [reflexivity | intros H; discriminate H | intros H; discriminate H].
Defined.

(** X6: check_config_change settles: right after a call that returned,
    a second call with the same configuration returns False and changes
    nothing (the fingerprint, a hexadecimal digest, has no white space at
    its ends; the token file is not the fingerprint file). *)
Theorem check_config_change_settles fingerprint cfg hash_file w w' b :
  strip (current_hash fingerprint cfg) = current_hash fingerprint cfg →
  cfg !! "voipnowTokenFile" ≠ Some (JStr hash_file) →
  check_config_change fingerprint cfg hash_file w = (w', Ok b) →
  check_config_change fingerprint cfg hash_file w' = (w', Ok false).
Proof.
  intros Hstrip Hhf Hfirst.
  assert (∃ stored, fs w' !! hash_file = Some stored
                    ∧ strip stored = current_hash fingerprint cfg) as (stored' & Hs & He).
  2:{ by apply (check_config_change_unchanged _ _ _ _ stored'). }
  pose proof (check_config_change_cases fingerprint cfg hash_file w) as H.
  cbv zeta in H.
  destruct (fs w !! hash_file) as [stored|] eqn:Hst.
  - destruct (String.eqb (strip stored) (current_hash fingerprint cfg)) eqn:E.
    + rewrite H in Hfirst. injection Hfirst as <- <-.
      apply String.eqb_eq in E. by exists stored.
    + assert (∃ w1, check_config_change fingerprint cfg hash_file w = (w1, Ok true)
                ∧ fs w1 !! hash_file = Some (current_hash fingerprint cfg))
        as (w1 & Hw1 & Hl).
      { destruct (cfg !! "voipnowTokenFile") as [[|v|n|p]|] eqn:Hp.
        - destruct H as (w1 & ? & Hfs). exists w1. split; [done|].
          rewrite Hfs. apply lookup_insert_eq.
        - cbn [truthy] in H. destruct v.
          + destruct H as (w1 & H). rewrite H in Hfirst. discriminate Hfirst.
          + destruct H as (w1 & ? & Hfs). exists w1. split; [done|].
            rewrite Hfs. apply lookup_insert_eq.
        - cbn [truthy] in H. destruct (negb (n =? 0)).
          + destruct H as (w1 & H). rewrite H in Hfirst. discriminate Hfirst.
          + destruct H as (w1 & ? & Hfs). exists w1. split; [done|].
            rewrite Hfs. apply lookup_insert_eq.
        - destruct H as (w1 & ? & Hfs). exists w1. split; [done|]. rewrite Hfs.
          assert (p ≠ hash_file) by congruence.
          destruct (_ && _); [rewrite lookup_delete_ne by done|]; apply lookup_insert_eq.
        - destruct H as (w1 & ? & Hfs). exists w1. split; [done|].
          rewrite Hfs. apply lookup_insert_eq. }
      rewrite Hw1 in Hfirst. injection Hfirst as <- <-.
      by exists (current_hash fingerprint cfg).
  - rewrite H in Hfirst. injection Hfirst as <- <-.
    exists (current_hash fingerprint cfg). split; [|done].
    cbn [fs set_fs]. apply lookup_insert_eq.
Qed.

Lemma check_config_change_settles_witness :
  strip (current_hash Scenario.fingerprint Scenario.doc_secret)
  = current_hash Scenario.fingerprint Scenario.doc_secret
  ∧ check_config_change Scenario.fingerprint Scenario.doc_secret
      (Scenario.tok ++ ".config_hash")
      (fst (check_config_change Scenario.fingerprint Scenario.doc_secret
              (Scenario.tok ++ ".config_hash") (snd Scenario.loaded)))
    = (fst (check_config_change Scenario.fingerprint Scenario.doc_secret
              (Scenario.tok ++ ".config_hash") (snd Scenario.loaded)),
       Ok false).
Proof.
  split; [reflexivity|].
  apply (check_config_change_settles Scenario.fingerprint Scenario.doc_secret
           (Scenario.tok ++ ".config_hash") (snd Scenario.loaded) _ true).
  - reflexivity.
  - intros H. discriminate H.
  - vm_compute. reflexivity.
Defined.

End TokenMore.

(** ** utils/token.py: the timers of the expiration checker *)

Module CheckerFacts.
Import Py PyFacts Token TokenFacts Main MainFacts.
#[local] Arguments String.append !s1 s2 / : simpl nomatch.

Lemma min_bounds a b :
  (0 < a)%Q → (0 < b)%Q → (0 < Py.min a b)%Q ∧ (Py.min a b <= b)%Q.
Proof.
  intros Ha Hb. unfold Py.min. destruct (Qle_bool a b) eqn:E.
  - apply Qle_bool_iff in E. split; [done|lra].
  - split; [done|lra].
Qed.

Lemma retry_delay_bounds self :
  (0 < interval self)%Q →
  (0 < retry_delay self)%Q ∧ (retry_delay self <= interval self)%Q.
Proof.
  intros Hi. unfold retry_delay.
  destruct (min_bounds (60 # 1) (interval self / (5 # 1))) as [H1 H2]; [lra| |].
  - apply Qlt_shift_div_l; lra.
  - split; [done|]. eapply Qle_trans; [apply H2|].
    apply Qle_shift_div_r; lra.
Qed.

Lemma generate_token_timers cfg w :
  timer_delays (fst (generate_token cfg w)) = timer_delays w.
Proof.
  unfold generate_token. run.
  destruct (cfg !! "voipnowHost") as [[| | |host]|]; try reflexivity.
  destruct (cfg !! "appId") as [id|]; [|reflexivity].
  destruct (cfg !! "appSecret") as [sec|]; [|reflexivity].
  destruct (issuer w (posts w)) as [[e|] [a|]| | | | |] eqn:R; try reflexivity.
  destruct (cfg !! "voipnowTokenFile") as [[| | |p]|]; try reflexivity.
  cbn [fs set_fs next_post emit]. by rewrite lookup_insert_eq.
Qed.

Lemma get_expiration_world p w : fst (get_expiration_timestamp p w) = w.
Proof.
  unfold get_expiration_timestamp. run. rewrite (safe_read_result p w).
  destruct (snd (_safe_read_token_file p w)) as [token_data|e| |]; try reflexivity.
  - destruct (split ":" token_data !! 1%nat); [|reflexivity].
    destruct (int_of_str _); reflexivity.
  - destruct (isinstance_any _ _); reflexivity.
Qed.

Lemma schedule_running d self w :
  _running self = true →
  _schedule_next_check d self w = (emit (EvTimerStart d) w, Ok (with_timer (Some d) self)).
Proof. intros H. unfold _schedule_next_check. by rewrite H. Qed.

Section Firing.

Context (self : TokenExpirationChecker).
Hypothesis Hrun : _running self = true.
Hypothesis Hint : (0 < interval self)%Q.

Lemma fail_and_retry_timer msg w :
  ∃ w' self', fail_and_retry msg self w = (w', Ok (self', false))
              ∧ at_most_one_timer (interval self) w w'.
Proof.
  unfold fail_and_retry. run. rewrite schedule_running by done.
  eexists _, _. split; [reflexivity|]. right. exists (retry_delay self).
  split; [reflexivity|]. by apply retry_delay_bounds.
Qed.

(** The attempt to get a new token: the check goes on with the same
    checker and no timer started, or ends with at most one. *)
Lemma regenerate_timer w w' r :
  regenerate self w = (w', r) →
  match r with
  | Ok (self', true) => self' = self ∧ timer_delays w' = timer_delays w
  | Ok (_, false) => at_most_one_timer (interval self) w w'
  | _ => timer_delays w' = timer_delays w
  end.
Proof.
  unfold regenerate, try_clauses.
  unfold bind at 1.
  pose proof (generate_token_timers (config_mcp self) w) as Hg.
  destruct (generate_token (config_mcp self) w) as [w1 [[]|e| |]]; cbn [fst] in Hg.
  - cbn. by intros [= <- <-].
  - assert (Hretry : ∀ msg,
      fail_and_retry msg self w1 = (w', r) →
      match r with
      | Ok (self', true) => self' = self ∧ timer_delays w' = timer_delays w
      | Ok (_, false) => at_most_one_timer (interval self) w w'
      | _ => timer_delays w' = timer_delays w
      end).
    { intros msg. destruct (fail_and_retry_timer msg w1) as (w2 & self' & -> & H).
      intros [= <- <-]. unfold at_most_one_timer in *. by rewrite <- Hg. }
    cbn [dispatch].
    destruct (isinstance_any e [CHTTPError]).
    { destruct (is_invalid_client e); [|apply Hretry].
      unfold stop. run.
      destruct (_timer (with_running false self)); cbn; intros [= <- <-]; by left. }
    destruct (isinstance_any e [CConnectionError]); [apply Hretry|].
    destruct (isinstance_any e [CTimeout]); [apply Hretry|].
    destruct (isinstance_any e [CRequestException]); [apply Hretry|].
    destruct (isinstance_any e [COSError]); [apply Hretry|].
    cbn. by intros [= <- <-].
  - by intros [= <- <-].
  - by intros [= <- <-].
Qed.

(** The first [try] of [_check_token]. *)
Lemma refresh_timer p w w' r :
  refresh_if_expiring p self w = (w', r) →
  match r with
  | Ok (self', true) => self' = self ∧ timer_delays w' = timer_delays w
  | Ok (_, false) => at_most_one_timer (interval self) w w'
  | _ => timer_delays w' = timer_delays w
  end.
Proof.
  unfold refresh_if_expiring, try_except. unfold bind at 1.
  rewrite (check_token_result p w).
  assert (Hsched : ∀ e w1, timer_delays w1 = timer_delays w →
    (let (s', o) := log ERROR ("Error checking token: " ++ exn_name e) w1 in
     match o with
     | Ok _ =>
         bind (_schedule_next_check (interval self) self) (λ self0, ret (self0, false)) s'
     | Raise e0 => (s', Raise e0)
     | Hang => (s', Hang)
     | OutOfFuel => (s', OutOfFuel)
     end) = (w', r) →
    match r with
    | Ok (self', true) => self' = self ∧ timer_delays w' = timer_delays w
    | Ok (_, false) => at_most_one_timer (interval self) w w'
    | _ => timer_delays w' = timer_delays w
    end).
  { intros e w1 Hw1. unfold log, modify. unfold bind. rewrite schedule_running by done.
    unfold ret. intros [= <- <-]. right. exists (interval self).
    split; [cbn; by rewrite <- Hw1|]. split; [done|lra]. }
  destruct (snd (check_token p w)) as [[]|e| |].
  - unfold bind at 1. unfold log at 1, modify at 1.
    destruct (regenerate self (emit (EvLog DEBUG "Token expired or expiring, regenerating...") w))
      as [w1 r1] eqn:E.
    apply regenerate_timer in E.
    destruct r1 as [[self' []]|e| |].
    + by intros [= <- <-].
    + by intros [= <- <-].
    + destruct (isinstance_any e [CValueError]); [|by intros [= <- <-]].
      unfold bind at 1. by apply Hsched.
    + by intros [= <- <-].
    + by intros [= <- <-].
  - by intros [= <- <-].
  - destruct (isinstance_any e [CValueError]); [|by intros [= <- <-]].
    unfold bind at 1. by apply Hsched.
  - by intros [= <- <-].
  - by intros [= <- <-].
Qed.

Hypothesis Hcb : ∀ cb, callback self = Some cb → starts_no_timer cb.

(** The second [try] of [_check_token]. *)
Lemma schedule_from_expiration_timer p w w' r :
  schedule_from_expiration p self w = (w', r) →
  at_most_one_timer (interval self) w w'.
Proof.
  unfold schedule_from_expiration, try_except. unfold bind at 1.
  pose proof (get_expiration_world p w) as Hw.
  destruct (get_expiration_timestamp p w) as [w0 [ts|e| |]]; cbn [fst] in Hw; subst w0.
  - unfold bind at 1, get at 1. unfold bind at 1.
    set (next_check := if negb (Qle_bool (inject_Z ts - clock w) 0)
                       then Py.min (inject_Z ts - clock w) (interval self)
                       else interval self).
    assert (Hnext : (0 < next_check)%Q ∧ (next_check <= interval self)%Q).
    { subst next_check. destruct (Qle_bool (inject_Z ts - clock w) 0) eqn:E; cbn [negb].
      - split; [done|lra].
      - apply min_bounds; [|done].
        apply Qnot_le_lt. intros H. apply Qle_bool_iff in H. congruence. }
    destruct (callback self) as [cb|] eqn:Ecb.
    + pose proof (Hcb cb eq_refl w) as Hq.
      destruct (cb w) as [w1 [[]|e| |]]; cbn [fst] in Hq.
      * rewrite schedule_running by done. intros [= <- <-].
        right. exists next_check. split; [cbn; by rewrite <- Hq|done].
      * unfold log, modify. rewrite schedule_running by done. intros [= <- <-].
        right. exists next_check. split; [cbn; by rewrite <- Hq|done].
      * intros [= <- <-]. by left.
      * intros [= <- <-]. by left.
    + unfold ret. rewrite schedule_running by done. intros [= <- <-].
      right. exists next_check. split; [done|done].
  - destruct (isinstance_any e [CValueError]); [|intros [= <- <-]; by left].
    unfold bind, log, modify. rewrite schedule_running by done.
    intros [= <- <-]. right. exists (interval self). split; [done|]. split; [done|lra].
  - intros [= <- <-]. by left.
  - intros [= <- <-]. by left.
Qed.

End Firing.


Lemma int_of_float_floor_lt (q : Q) : (q < inject_Z (int_of_float q + 1))%Q.
Proof.
  destruct q as [n d]. unfold int_of_float, Qlt, inject_Z. cbn [Qnum Qden].
  pose proof (Z.quot_rem' n (Z.pos d)) as H.
  assert (Z.rem n (Z.pos d) < Z.pos d).
  { destruct (Z.le_gt_cases 0 n) as [Hn|Hn].
    - apply Z.rem_bound_pos; lia.
    - pose proof (Z.rem_bound_pos_neg n (Z.pos d)). lia. }
  nia.
Qed.

(** X8: start on a checker that is not running starts one timer with
    the initial delay; a second start logs a warning and leaves the checker
    and its timer as they are. *)
Theorem start_twice_starts_one_timer d1 d2 self w :
  _running self = false →
  ∃ self1 w1 w2,
    start d1 self w = (w1, Ok self1)
    ∧ start d2 self1 w1 = (w2, Ok self1)
    ∧ _running self1 = true
    ∧ _timer self1 = Some d1
    ∧ timer_delays w2 = d1 :: timer_delays w.
Proof.
  intros Hr. unfold start at 1. rewrite Hr.
  unfold bind at 1. rewrite schedule_running by done.
  unfold bind, log, modify, ret.
  eexists _, _, _. split; [reflexivity|].
  unfold start. cbn [_running with_timer with_running].
  unfold bind, log, modify, ret. repeat split.
Qed.

Lemma start_twice_starts_one_timer_witness :
  ∃ self1 w1 w2,
    start (10 # 1) (new_checker Scenario.doc1 (300 # 1) None) Scenario.w_first = (w1, Ok self1)
    ∧ start (0 # 1) self1 w1 = (w2, Ok self1)
    ∧ _running self1 = true
    ∧ _timer self1 = Some (10 # 1)
    ∧ timer_delays w2 = (10 # 1) :: timer_delays Scenario.w_first.
Proof.
  apply (start_twice_starts_one_timer (10 # 1) (0 # 1)
           (new_checker Scenario.doc1 (300 # 1) None) Scenario.w_first).
  reflexivity.
Defined.

(** X9: when the token is expiring and the success reply lacks
    expires_in or access_token, _check_token raises KeyError after its one
    request: no timer is started, so the periodic check ends, and no file
    is changed. *)
Theorem incomplete_grant_ends_checker self w p host expires_in access_token :
  _running self = true →
  config_mcp self !! "voipnowTokenFile" = Some (JStr p) →
  p ≠ "" →
  config_mcp self !! "voipnowHost" = Some (JStr host) →
  is_Some (config_mcp self !! "appId") →
  is_Some (config_mcp self !! "appSecret") →
  snd (check_token p w) = Ok true →
  issuer w (posts w) = Reply200 expires_in access_token →
  expires_in = None ∨ access_token = None →
  ∃ w' key,
    _check_token self w = (w', Raise (KeyError key))
    ∧ count is_post w' = S (count is_post w)
    ∧ timer_delays w' = timer_delays w
    ∧ fs w' = fs w.
Proof.
  intros Hr Hp Hne Hh Hi Hs Hc Hrep Hmiss.
  assert (Hck : check_token p w = (w, Ok true)).
  { rewrite (check_token_result p w). by rewrite Hc. }
  unfold _check_token. rewrite Hr, Hp. cbn [negb truthy].
  apply String.eqb_neq in Hne. rewrite Hne. cbn [negb]. run.
  unfold refresh_if_expiring. run. rewrite Hck.
  unfold regenerate. run.
  rewrite (generate_token_request _ _ _ Hh Hi Hs).
  cbn [issuer posts emit]. rewrite Hrep.
  destruct expires_in as [e|], access_token as [a|];
    try (by destruct Hmiss);
    eexists _, _; (split; [reflexivity|]); repeat split.
Qed.

Lemma incomplete_grant_ends_checker_witness :
  ∃ w' key,
    _check_token Scenario.running_checker Scenario.w_incomplete
    = (w', Raise (KeyError key))
    ∧ count is_post w' = S (count is_post Scenario.w_incomplete)
    ∧ timer_delays w' = timer_delays Scenario.w_incomplete
    ∧ fs w' = fs Scenario.w_incomplete.
Proof.
  apply (incomplete_grant_ends_checker Scenario.running_checker Scenario.w_incomplete
           Scenario.tok "https://pbx.example.com" (Some 3600) None);
    first [reflexivity | by eexists | done | by right].
Defined.

(** X10: when the token is not expiring and the interval is at most 300
    seconds, a firing makes no request and changes no file, and the next
    check, one interval later, falls strictly before the expiry of the
    token. *)
Theorem valid_token_rechecked_before_expiry self w p c :
  _running self = true →
  config_mcp self !! "voipnowTokenFile" = Some (JStr p) →
  p ≠ "" →
  fs w !! p = Some (token_line c) →
  int_of_float (clock w) < expiresAt c - 300 →
  (0 < interval self)%Q →
  (interval self <= 300 # 1)%Q →
  (∀ cb, callback self = Some cb → logs_only cb) →
  ∃ w' rest,
    _check_token self w = (w', Ok (with_timer (Some (interval self)) self))
    ∧ trace w' = EvTimerStart (interval self) :: rest
    ∧ quiet w w'
    ∧ (clock w' + interval self < inject_Z (expiresAt c))%Q.
Proof.
  intros Hr Hp Hne Hfile Hvalid Hpos Hmax Hcb.
  assert (Hnow : (clock w + (300 # 1) < inject_Z (expiresAt c))%Q).
  { pose proof (int_of_float_floor_lt (clock w)) as Hfl.
    assert (inject_Z (int_of_float (clock w) + 1) <= inject_Z (expiresAt c - 300))%Q as Hle.
    { rewrite <- Zle_Qle. lia. }
    unfold Z.sub in Hle. rewrite (inject_Z_plus (expiresAt c)) in Hle.
    change (inject_Z (- (300))) with (Qopp (300 # 1)) in Hle. lra. }
  unfold _check_token. rewrite Hr, Hp. cbn [negb truthy].
  apply String.eqb_neq in Hne. rewrite Hne. cbn [negb]. run.
  unfold refresh_if_expiring. run.
  rewrite (check_token_line _ _ _ Hfile).
  assert ((int_of_float (clock w) >=? expiresAt c - 300) = false) as ->.
  { rewrite Z.geb_leb. apply Z.leb_gt. lia. }
  unfold schedule_from_expiration. run.
  rewrite (get_expiration_timestamp_line _ _ _ Hfile).
  assert (Qle_bool (inject_Z (expiresAt c) - clock w) 0 = false) as ->.
  { apply not_true_is_false. intros H%Qle_bool_iff. lra. }
  cbn [negb].
  assert (Py.min (inject_Z (expiresAt c) - clock w) (interval self) = interval self) as ->.
  { unfold Py.min.
    destruct (Qle_bool (inject_Z (expiresAt c) - clock w) (interval self)) eqn:E; [|done].
    apply Qle_bool_iff in E. lra. }
  destruct (callback self) as [cb|] eqn:Ecb.
  - destruct (Hcb cb eq_refl w) as (w1 & -> & Hq).
    rewrite schedule_running by done.
    eexists _, _. split; [reflexivity|]. split; [reflexivity|].
    split; [by apply quiet_emit_r|].
    cbn [clock emit]. rewrite (quiet_clock _ _ Hq). lra.
  - rewrite schedule_running by done.
    eexists _, _. split; [reflexivity|]. split; [reflexivity|].
    split; [by apply quiet_emit|]. cbn [clock emit]. lra.
Qed.

Lemma valid_token_rechecked_before_expiry_witness :
  ∃ w' rest,
    _check_token Scenario.running_checker Scenario.w_valid_until_4600
    = (w', Ok (with_timer (Some (interval Scenario.running_checker)) Scenario.running_checker))
    ∧ trace w' = EvTimerStart (interval Scenario.running_checker) :: rest
    ∧ quiet Scenario.w_valid_until_4600 w'
    ∧ (clock w' + interval Scenario.running_checker
       < inject_Z (expiresAt (mkCredential 0 4600 "T1")))%Q.
Proof.
  apply (valid_token_rechecked_before_expiry Scenario.running_checker
           Scenario.w_valid_until_4600 Scenario.tok (mkCredential 0 4600 "T1")).
  - reflexivity.
  - reflexivity.
  - intros H. discriminate H.
  - reflexivity.
  - reflexivity.
  - reflexivity.
  - intros H. discriminate H.
  - intros cb H. discriminate H.
Defined.


(** X11: the checker does not reissue a token whose file is missing: a
    firing makes no request and changes no file; the error is logged and
    the next check comes one interval later. *)
Theorem missing_token_file_is_not_reissued self w p :
  _running self = true →
  config_mcp self !! "voipnowTokenFile" = Some (JStr p) →
  p ≠ "" →
  fs w !! p = None →
  ∃ w',
    _check_token self w = (w', Ok (with_timer (Some (interval self)) self))
    ∧ quiet w w'
    ∧ timer_delays w' = interval self :: timer_delays w.
Proof.
  intros Hr Hp Hne Hfile.
  unfold _check_token. rewrite Hr, Hp. cbn [negb truthy].
  apply String.eqb_neq in Hne. rewrite Hne. cbn [negb]. run.
  unfold refresh_if_expiring, check_token, _safe_read_token_file. run. rewrite Hfile.
  cbn [isinstance_any existsb isinstance orb].
  rewrite schedule_running by done.
  eexists. split; [reflexivity|]. split; [|reflexivity].
  apply quiet_emit_r; [done|]. by apply quiet_emit.
Qed.

Lemma missing_token_file_is_not_reissued_witness :
  ∃ w',
    _check_token Scenario.running_checker Scenario.w_first
    = (w', Ok (with_timer (Some (interval Scenario.running_checker)) Scenario.running_checker))
    ∧ quiet Scenario.w_first w'
    ∧ timer_delays w' = interval Scenario.running_checker :: timer_delays Scenario.w_first.
Proof.
  apply (missing_token_file_is_not_reissued Scenario.running_checker Scenario.w_first
           Scenario.tok).
  - reflexivity.
  - reflexivity.
  - intros H. discriminate H.
  - reflexivity.
Defined.

End CheckerFacts.

(** ** main.py: loads that fail or are skipped, and the watcher *)

Module ReloadFacts.
Import Py PyFacts Token TokenFacts Main MainFacts.
#[local] Arguments String.append !s1 s2 / : simpl nomatch.

(** X12: on_modified ignores a path that is neither the configuration
    file nor the token file: nothing changes, no reload is made. *)
Theorem unwatched_path_is_ignored secure fingerprint h cm w path :
  lock cm = false →
  path ≠ config_file (attrs cm) →
  config_data (attrs cm) !! "voipnowTokenFile" = None
  ∨ (∃ t, config_data (attrs cm) !! "voipnowTokenFile" = Some (JStr t) ∧ path ≠ t) →
  on_modified secure fingerprint path (h, (cm, w)) = ((h, (cm, w)), Ok tt).
Proof.
  intros Hlock Hcfg Htok. destruct cm as [l self]. cbn in Hlock, Hcfg, Htok. subst l.
  apply String.eqb_neq in Hcfg.
  run_watch. cbn [lock attrs].
  destruct Htok as [-> | (t & -> & Ht)].
  - rewrite Hcfg. reflexivity.
  - cbn [truthy]. apply String.eqb_neq in Ht.
    destruct (negb (t =? "")%string); cbn [from_option]; rewrite Hcfg, ?Ht; reflexivity.
Qed.

Lemma unwatched_path_is_ignored_witness :
  on_modified false Scenario.fingerprint "/tmp/tok.config_hash"
    (Scenario.idle_handler, (fst Scenario.loaded, snd Scenario.loaded))
  = ((Scenario.idle_handler, (fst Scenario.loaded, snd Scenario.loaded)), Ok tt).
Proof.
  apply (unwatched_path_is_ignored false Scenario.fingerprint Scenario.idle_handler
           (fst Scenario.loaded) (snd Scenario.loaded) "/tmp/tok.config_hash").
  - vm_compute. reflexivity.
  - vm_compute. intros H. discriminate H.
  - right. exists Scenario.tok. split; [vm_compute; reflexivity|].
    intros H. discriminate H.
Defined.

(** X13: with a configuration in memory, the load of a document that
    lacks a required key or has a key outside the allowed ones returns
    normally and leaves the manager as it is; no request is made and no file
    is changed. *)
Theorem reload_skips_malformed_document secure fingerprint self w doc :
  no_config self = false →
  config_source w = ReadDoc doc →
  ¬ required_present doc ∨ ¬ no_extra_keys doc →
  ∃ w', load_config secure fingerprint (mkConfigManager false self, w)
        = ((mkConfigManager false self, w'), Ok tt)
        ∧ quiet w w'.
Proof.
  intros Hc Hsrc Hbad.
  unfold load_config. cbn [load_config_fuel]. unfold enter, with_lock.
  unfold bind at 1. cbn [lock attrs].
  unfold load_config_body, try_clauses, read_config.
  unfold bind at 2. unfold bind at 1. cbn [config_source emit]. rewrite Hsrc.
  unfold bind at 1. unfold check_document. run_main. rewrite Hc. cbn [andb].
  destruct (bool_decide (filter (λ key, doc !! key = None) required_keys = [])) eqn:E1;
    cbn [negb].
  2:{ eexists. split; [reflexivity|]. apply quiet_emit_r; [done|]. by apply quiet_emit. }
  rewrite Hc. cbn [andb].
  destruct (bool_decide (filter (λ key, key ∉ allowed_keys) (map_to_list doc).*1 = []))
    eqn:E2; cbn [negb].
  2:{ eexists. split; [reflexivity|]. apply quiet_emit_r; [done|]. by apply quiet_emit. }
  apply bool_decide_eq_true in E1, E2.
  apply missing_keys_nil in E1. apply extra_keys_nil in E2. tauto.
Qed.

Lemma reload_skips_malformed_document_witness :
  ∃ w', load_config false Scenario.fingerprint
          (mkConfigManager false (attrs (fst Scenario.loaded)),
           snd (Scenario.later (2000 # 1) (delete "appId" Scenario.doc1) (Scenario.grants "T2")
                  Scenario.loaded))
        = ((mkConfigManager false (attrs (fst Scenario.loaded)), w'), Ok tt)
        ∧ quiet (snd (Scenario.later (2000 # 1) (delete "appId" Scenario.doc1)
                        (Scenario.grants "T2") Scenario.loaded)) w'.
Proof.
  apply (reload_skips_malformed_document false Scenario.fingerprint
           (attrs (fst Scenario.loaded))
           (snd (Scenario.later (2000 # 1) (delete "appId" Scenario.doc1) (Scenario.grants "T2")
                   Scenario.loaded))
           (delete "appId" Scenario.doc1)).
  - vm_compute. reflexivity.
  - reflexivity.
  - left. intros H. destruct (H "appId") as [v Hv].
    + unfold required_keys. rewrite !elem_of_cons. tauto.
    + vm_compute in Hv. discriminate Hv.
Defined.

(** X14: when the configuration file cannot be read, or holds text that
    is not JSON (the message of the error has no token in it), the manager
    and the files are left as they are.  With a configuration in memory
    load_config returns normally.  On the first load it raises
    ConfigurationError; for text that is not JSON the message is the one of
    the clause for ValueError, which comes before the clause that names
    JSONDecodeError. *)
Theorem unusable_file_keeps_configuration secure fingerprint self w :
  (∃ msg, config_source w = ReadFails msg)
  ∨ (∃ msg, config_source w = ReadNotJson msg ∧ contains (lower msg) "token" = false) →
  ∃ w' r,
    load_config secure fingerprint (mkConfigManager false self, w)
    = ((mkConfigManager false self, w'), r)
    ∧ quiet w w'
    ∧ (no_config self = false → r = Ok tt)
    ∧ (no_config self = true → ∃ msg, r = Raise (ConfigurationError msg))
    ∧ (no_config self = true →
       (∃ msg, config_source w = ReadNotJson msg) →
       r = Raise (ConfigurationError "Failed to load initial configuration: JSONDecodeError")).
Proof.
  intros Hsrc.
  unfold load_config. cbn [load_config_fuel]. unfold enter, with_lock.
  unfold bind at 1. cbn [lock attrs].
  unfold load_config_body, try_clauses, read_config.
  unfold bind at 2. unfold bind at 1. cbn [config_source emit].
  destruct Hsrc as [(msg & ->) | (msg & -> & Hmsg)].
  - run_handlers. destruct (no_config self) eqn:Hc.
    + eexists _, _. split; [reflexivity|].
      split; [apply quiet_emit_r; [done|]; by apply quiet_emit|].
      split; [done|]. split; [by eexists|]. by intros _ (m & [=]).
    + eexists _, _. split; [reflexivity|].
      split; [apply quiet_emit_r; [done|]; by apply quiet_emit|].
      split; [done|]. split; [done|]. done.
  - run_handlers. cbn [exn_str]. rewrite Hmsg. cbn [andb].
    destruct (no_config self) eqn:Hc.
    + eexists _, _. split; [reflexivity|].
      split; [apply quiet_emit_r; [done|]; by apply quiet_emit|].
      split; [done|]. split; [by eexists|]. done.
    + eexists _, _. split; [reflexivity|].
      split; [apply quiet_emit_r; [done|]; by apply quiet_emit|].
      split; [done|]. split; [done|]. done.
Qed.

Lemma unusable_file_keeps_configuration_witness :
  ∃ w' r,
    load_config false Scenario.fingerprint
      (mkConfigManager false (attrs (fst Scenario.loaded)), Scenario.w_not_json)
    = ((mkConfigManager false (attrs (fst Scenario.loaded)), w'), r)
    ∧ quiet Scenario.w_not_json w'
    ∧ (no_config (attrs (fst Scenario.loaded)) = false → r = Ok tt)
    ∧ (no_config (attrs (fst Scenario.loaded)) = true →
       ∃ msg, r = Raise (ConfigurationError msg))
    ∧ (no_config (attrs (fst Scenario.loaded)) = true →
       (∃ msg, config_source Scenario.w_not_json = ReadNotJson msg) →
       r = Raise (ConfigurationError "Failed to load initial configuration: JSONDecodeError")).
Proof.
  apply (unusable_file_keeps_configuration false Scenario.fingerprint
           (attrs (fst Scenario.loaded)) Scenario.w_not_json).
  right. eexists. split; reflexivity.
Defined.

Lemma failure_is_benign r e : failure_of r = Some e → benign e.
Proof. destruct r; intros [= <-]; done. Qed.

Section Rejected.

Context (fingerprint : jvalue → jvalue → jvalue → string).
Context (doc : gmap string jvalue) (self : manager) (w : world) (p host : string).
Hypothesis Hp : doc !! "voipnowTokenFile" = Some (JStr p).
Hypothesis Hne : p ≠ "".
Hypothesis Hhost : doc !! "voipnowHost" = Some (JStr host).
Hypothesis Hid : is_Some (doc !! "appId").
Hypothesis Hsecret : is_Some (doc !! "appSecret").

(** [install] when the stored fingerprint differs and the token request
    fails: the new document is in memory, the token file is gone. *)
Lemma install_changed_rejected stored old e :
  fs w !! (p ++ ".config_hash") = Some stored →
  strip stored ≠ current_hash fingerprint doc →
  fs w !! p = Some old →
  failure_of (issuer w (posts w)) = Some e →
  ∃ w',
    install fingerprint doc (self, w)
    = ((with_config_data (normalize_insecure doc) self, w'), Raise e)
    ∧ fs w' !! p = None
    ∧ count is_post w' = S (count is_post w).
Proof.
  intros Hst Hdiff Hold Hr.
  unfold install. run_main.
  cbn [config_data with_config_data].
  rewrite (token_file_path_value doc p Hp). cbn [truthy].
  apply String.eqb_neq in Hne as Hne'. rewrite Hne'. cbn [negb]. unfold abspath.
  rewrite (check_config_change_changed fingerprint (normalize_insecure doc) w p stored old);
    [ | by rewrite normalize_insecure_lookup | done | done
      | by rewrite normalize_insecure_hash | done].
  rewrite normalize_insecure_hash.
  unfold needs_regeneration. run_main. unfold Token.os_path_exists.
  cbn [fs emit after_change set_fs]. rewrite lookup_delete_eq.
  assert (bool_decide (is_Some (@None string)) = false) as -> by done.
  cbn [negb].
  rewrite (generate_token_request (normalize_insecure doc) host);
    [ | by rewrite normalize_insecure_lookup | by rewrite normalize_insecure_lookup
      | by rewrite normalize_insecure_lookup ].
  cbn [issuer posts clock emit after_change set_fs].
  destruct (issuer w (posts w)) as [[e'|] [a|]| | | | |]; try discriminate Hr;
    injection Hr as <-; (eexists; split; [reflexivity|]);
    (split; [cbn [fs posted next_post emit set_fs]; apply lookup_delete_eq|]);
    unfold count; cbn; reflexivity.
Qed.

End Rejected.

(** X15: when a load finds another fingerprint than the stored one and
    the token request fails (an error status or no reply), load_config
    returns normally with the lock released: the new document is in memory
    as config_data, the derived configuration, the token and the checker
    are the previous ones, and the token file has been deleted. *)
Theorem rejected_reissue_leaves_stale_token secure fingerprint cm w doc p old stored e :
  lock cm = false →
  config_source w = ReadDoc doc →
  required_present doc →
  no_extra_keys doc →
  log_level_is_text doc →
  valid_host doc →
  auth_token_present secure doc →
  doc !! "voipnowTokenFile" = Some (JStr p) →
  p ≠ "" →
  fs w !! p = Some old →
  fs w !! (p ++ ".config_hash") = Some stored →
  strip stored ≠ current_hash fingerprint doc →
  failure_of (issuer w (posts w)) = Some e →
  let after := load_config secure fingerprint (cm, w) in
  snd after = Ok tt
  ∧ lock (fst (fst after)) = false
  ∧ config_data (attrs (fst (fst after))) = normalize_insecure doc
  ∧ voipnow_config (attrs (fst (fst after))) = voipnow_config (attrs cm)
  ∧ voipnow_token (attrs (fst (fst after))) = voipnow_token (attrs cm)
  ∧ _token_checker (attrs (fst (fst after))) = _token_checker (attrs cm)
  ∧ fs (snd (fst after)) !! p = None
  ∧ count is_post (snd (fst after)) = S (count is_post w).
Proof.
  intros Hlock Hsrc H1 H2 H3 H4 H5 Hp Hne Hold Hst Hdiff Hfail after.
  destruct cm as [l self]. cbn in Hlock. subst l.
  destruct (load_config_to_install secure fingerprint self w doc)
    as (w1 & Hq1 & Hload); try done.
  subst after. rewrite Hload. clear Hload. unfold try_clauses.
  pose proof H4 as (host & Hhost & _).
  assert (Hid : is_Some (doc !! "appId")).
  { apply H1. unfold required_keys. rewrite !elem_of_cons. tauto. }
  assert (Hsecret : is_Some (doc !! "appSecret")).
  { apply H1. unfold required_keys. rewrite !elem_of_cons. tauto. }
  destruct (install_changed_rejected fingerprint doc self w1 p host Hp Hne Hhost Hid Hsecret
              stored old e) as (w' & -> & Hgone & Hposts).
  { by rewrite (quiet_fs _ _ Hq1). }
  { done. }
  { by rewrite (quiet_fs _ _ Hq1). }
  { by rewrite (quiet_issuer _ _ Hq1). }
  destruct (handlers_benign (from_inside (load_config_fuel secure fingerprint 1))
              e (with_config_data (normalize_insecure doc) self) w')
    as (w2 & -> & Hq2).
  { by apply (failure_is_benign (issuer w (posts w))). }
  { apply (has_config _ _ "voipnowTokenFile" (JStr p)).
    by rewrite normalize_insecure_lookup. }
  cbn [fst snd attrs lock config_data voipnow_config voipnow_token _token_checker
       with_config_data].
  rewrite (quiet_fs _ _ Hq2), (quiet_posts _ _ Hq2), Hposts, (quiet_posts _ _ Hq1).
  done.
Qed.

Lemma rejected_reissue_leaves_stale_token_witness :
  let after :=
    load_config false Scenario.fingerprint
      (fst Scenario.before_reload_unreachable, snd Scenario.before_reload_unreachable) in
  snd after = Ok tt
  ∧ lock (fst (fst after)) = false
  ∧ config_data (attrs (fst (fst after))) = normalize_insecure Scenario.doc_secret
  ∧ voipnow_config (attrs (fst (fst after)))
    = voipnow_config (attrs (fst Scenario.before_reload_unreachable))
  ∧ voipnow_token (attrs (fst (fst after)))
    = voipnow_token (attrs (fst Scenario.before_reload_unreachable))
  ∧ _token_checker (attrs (fst (fst after)))
    = _token_checker (attrs (fst Scenario.before_reload_unreachable))
  ∧ fs (snd (fst after)) !! Scenario.tok = None
  ∧ count is_post (snd (fst after))
    = S (count is_post (snd Scenario.before_reload_unreachable)).
Proof.
  apply (rejected_reissue_leaves_stale_token false Scenario.fingerprint
           (fst Scenario.before_reload_unreachable) (snd Scenario.before_reload_unreachable)
           Scenario.doc_secret Scenario.tok "1000:4600:T1" "A1|S1|https://pbx.example.com"
           ConnectionError).
  - vm_compute. reflexivity.
  - reflexivity.
  - apply missing_keys_nil. vm_compute. reflexivity.
  - apply extra_keys_nil. vm_compute. reflexivity.
  - intros v H. vm_compute in H. discriminate H.
  - exists "https://pbx.example.com". split; [reflexivity|right; reflexivity].
  - intros H. discriminate H.
  - reflexivity.
  - intros H. discriminate H.
  - vm_compute. reflexivity.
  - vm_compute. reflexivity.
  - vm_compute. intros H. discriminate H.
  - reflexivity.
Defined.

Section FirstRejected.

Context (fingerprint : jvalue → jvalue → jvalue → string).
Context (doc : gmap string jvalue) (self : manager) (w : world) (p host : string).
Hypothesis Hp : doc !! "voipnowTokenFile" = Some (JStr p).
Hypothesis Hne : p ≠ "".
Hypothesis Hhost : doc !! "voipnowHost" = Some (JStr host).
Hypothesis Hid : is_Some (doc !! "appId").
Hypothesis Hsecret : is_Some (doc !! "appSecret").

(** [install] when neither the token file nor the fingerprint file exists
    and the token request fails. *)
Lemma install_first_rejected e :
  fs w !! (p ++ ".config_hash") = None →
  fs w !! p = None →
  failure_of (issuer w (posts w)) = Some e →
  ∃ w',
    install fingerprint doc (self, w)
    = ((with_config_data (normalize_insecure doc) self, w'), Raise e)
    ∧ fs w' !! p = None
    ∧ count is_post w' = S (count is_post w).
Proof.
  intros Hst Hold Hr.
  unfold install. run_main.
  cbn [config_data with_config_data].
  rewrite (token_file_path_value doc p Hp). cbn [truthy].
  apply String.eqb_neq in Hne as Hne'. rewrite Hne'. cbn [negb]. unfold abspath.
  unfold check_config_change. run. rewrite Hst.
  unfold needs_regeneration. run_main. unfold Token.os_path_exists.
  cbn [fs set_fs]. rewrite lookup_insert_ne by (apply app_neq; done). rewrite Hold.
  assert (bool_decide (is_Some (@None string)) = false) as -> by done.
  cbn [negb].
  rewrite (generate_token_request (normalize_insecure doc) host);
    [ | by rewrite normalize_insecure_lookup | by rewrite normalize_insecure_lookup
      | by rewrite normalize_insecure_lookup ].
  cbn [issuer posts clock emit set_fs].
  destruct (issuer w (posts w)) as [[e'|] [a|]| | | | |]; try discriminate Hr;
    injection Hr as <-; (eexists; split; [reflexivity|]);
    (split; [cbn [fs posted next_post emit set_fs];
             rewrite lookup_insert_ne by (apply app_neq; done); done|]);
    unfold count; cbn; reflexivity.
Qed.

End FirstRejected.

(** X16: the first load does not fail when the token request fails: with
    no token file and no fingerprint file yet, load_config returns normally;
    the document is in memory, the derived configuration is empty, and
    there is neither a token nor a checker. *)
Theorem first_load_survives_failed_request secure fingerprint path w doc p e :
  config_source w = ReadDoc doc →
  required_present doc →
  no_extra_keys doc →
  log_level_is_text doc →
  valid_host doc →
  auth_token_present secure doc →
  doc !! "voipnowTokenFile" = Some (JStr p) →
  p ≠ "" →
  fs w !! p = None →
  fs w !! (p ++ ".config_hash") = None →
  failure_of (issuer w (posts w)) = Some e →
  let after := load_config secure fingerprint (new_manager path, w) in
  snd after = Ok tt
  ∧ config_data (attrs (fst (fst after))) = normalize_insecure doc
  ∧ voipnow_config (attrs (fst (fst after))) = ∅
  ∧ voipnow_token (attrs (fst (fst after))) = None
  ∧ _token_checker (attrs (fst (fst after))) = None
  ∧ fs (snd (fst after)) !! p = None.
Proof.
  intros Hsrc H1 H2 H3 H4 H5 Hp Hne Hold Hst Hfail after.
  unfold new_manager in after.
  set (self := mkManager path ∅ None ∅ None) in *.
  destruct (load_config_to_install secure fingerprint self w doc)
    as (w1 & Hq1 & Hload); try done.
  subst after. rewrite Hload. clear Hload. unfold try_clauses.
  pose proof H4 as (host & Hhost & _).
  assert (Hid : is_Some (doc !! "appId")).
  { apply H1. unfold required_keys. rewrite !elem_of_cons. tauto. }
  assert (Hsecret : is_Some (doc !! "appSecret")).
  { apply H1. unfold required_keys. rewrite !elem_of_cons. tauto. }
  destruct (install_first_rejected fingerprint doc self w1 p host Hp Hne Hhost Hid Hsecret e)
    as (w' & -> & Hgone & Hposts).
  { by rewrite (quiet_fs _ _ Hq1). }
  { by rewrite (quiet_fs _ _ Hq1). }
  { by rewrite (quiet_issuer _ _ Hq1). }
  destruct (handlers_benign (from_inside (load_config_fuel secure fingerprint 1))
              e (with_config_data (normalize_insecure doc) self) w')
    as (w2 & -> & Hq2).
  { by apply (failure_is_benign (issuer w (posts w))). }
  { apply (has_config _ _ "voipnowTokenFile" (JStr p)).
    by rewrite normalize_insecure_lookup. }
  cbn [fst snd attrs lock config_data voipnow_config voipnow_token _token_checker
       with_config_data self].
  rewrite (quiet_fs _ _ Hq2). done.
Qed.

Lemma first_load_survives_failed_request_witness :
  let after :=
    load_config false Scenario.fingerprint
      (new_manager "/etc/voipnow.json", Scenario.w_first_unreachable) in
  snd after = Ok tt
  ∧ config_data (attrs (fst (fst after))) = normalize_insecure Scenario.doc1
  ∧ voipnow_config (attrs (fst (fst after))) = ∅
  ∧ voipnow_token (attrs (fst (fst after))) = None
  ∧ _token_checker (attrs (fst (fst after))) = None
  ∧ fs (snd (fst after)) !! Scenario.tok = None.
Proof.
  apply (first_load_survives_failed_request false Scenario.fingerprint "/etc/voipnow.json"
           Scenario.w_first_unreachable Scenario.doc1 Scenario.tok ConnectionError).
  - reflexivity.
  - apply missing_keys_nil. vm_compute. reflexivity.
  - apply extra_keys_nil. vm_compute. reflexivity.
  - intros v H. vm_compute in H. discriminate H.
  - exists "https://pbx.example.com". split; [reflexivity|right; reflexivity].
  - intros H. discriminate H.
  - reflexivity.
  - intros H. discriminate H.
  - reflexivity.
  - reflexivity.
  - reflexivity.
Defined.



(** X18: a document whose logLevel, or else whose voipnowHost, is present
    but is not a string makes load_config raise AttributeError, on the first
    load and on a reload alike: no clause of load_config catches it.  The
    manager is left as it was and the lock is released. *)
Theorem non_text_value_raises_attribute_error secure fingerprint self w doc :
  config_source w = ReadDoc doc →
  required_present doc →
  no_extra_keys doc →
  (∃ v, doc !! "logLevel" = Some v ∧ not_text v)
  ∨ (log_level_is_text doc ∧ ∃ v, doc !! "voipnowHost" = Some v ∧ not_text v) →
  ∃ w',
    load_config secure fingerprint (mkConfigManager false self, w)
    = ((mkConfigManager false self, w'), Raise AttributeError)
    ∧ quiet w w'.
Proof.
  intros Hsrc Hreq Hextra Hbad.
  unfold load_config. cbn [load_config_fuel]. unfold enter, with_lock.
  unfold bind at 1. cbn [lock attrs].
  unfold load_config_body, try_clauses, read_config.
  unfold bind at 2. unfold bind at 1. cbn [config_source emit]. rewrite Hsrc.
  unfold bind at 1. unfold check_document. run_main.
  rewrite (bool_decide_nil_true _ (proj2 (missing_keys_nil doc) Hreq)).
  cbn [negb andb]. rewrite !andb_false_r.
  rewrite (bool_decide_nil_true _ (proj2 (extra_keys_nil doc) Hextra)).
  cbn [negb andb]. rewrite !andb_false_r. cbn [negb].
  destruct Hbad as [(v & Hv & Hnt) | (Hlvl & v & Hv & Hnt)].
  - unfold get_default at 1. rewrite Hv. cbn [default from_option id].
    unfold Logger.set_log_level. run_main.
    destruct v; try done; run_handlers;
      (eexists; split; [reflexivity|by apply quiet_emit]).
  - assert (∃ name, get_default doc "logLevel" (JStr "INFO") = JStr name) as [name Hname].
    { unfold get_default. destruct (doc !! "logLevel") as [x|] eqn:E; [|by eexists].
      destruct (Hlvl x E) as [name ->]. by eexists. }
    destruct (set_log_level_quiet name (emit EvEnterLoadConfig w)) as (w1 & Hlog & Hq).
    rewrite Hname, Hlog. unfold get_default. rewrite Hv. cbn [default from_option id].
    destruct v; try done; run_handlers;
      (eexists; split; [reflexivity|by apply (quiet_step EvEnterLoadConfig)]).
Qed.

Lemma non_text_value_raises_attribute_error_witness :
  ∃ w',
    load_config false Scenario.fingerprint
      (mkConfigManager false (attrs (fst Scenario.before_reload_level_number)),
       snd Scenario.before_reload_level_number)
    = ((mkConfigManager false (attrs (fst Scenario.before_reload_level_number)), w'),
       Raise AttributeError)
    ∧ quiet (snd Scenario.before_reload_level_number) w'.
Proof.
  apply (non_text_value_raises_attribute_error false Scenario.fingerprint
           (attrs (fst Scenario.before_reload_level_number))
           (snd Scenario.before_reload_level_number) Scenario.doc_level_number).
  - reflexivity.
  - apply missing_keys_nil. vm_compute. reflexivity.
  - apply extra_keys_nil. vm_compute. reflexivity.
  - left. exists (JNum 10). split; [reflexivity|exact I].
Defined.

(** X19: a document that passes the checks but whose voipnowTokenFile
    is empty (or null, false or zero) makes load_config raise
    ConfigurationError also on a reload, and by then the document has
    replaced the one in memory as config_data. *)
Theorem empty_token_path_raises_with_new_document secure fingerprint self w doc v :
  config_source w = ReadDoc doc →
  required_present doc →
  no_extra_keys doc →
  log_level_is_text doc →
  valid_host doc →
  auth_token_present secure doc →
  doc !! "voipnowTokenFile" = Some v →
  truthy v = false →
  ∃ w',
    load_config secure fingerprint (mkConfigManager false self, w)
    = ((mkConfigManager false (with_config_data (normalize_insecure doc) self), w'),
       Raise (ConfigurationError "Token file not specified in config."))
    ∧ quiet w w'.
Proof.
  intros Hsrc H1 H2 H3 H4 H5 Hv Hfalse.
  destruct (load_config_to_install secure fingerprint self w doc)
    as (w1 & Hq1 & Hload); try done.
  rewrite Hload. clear Hload. unfold try_clauses.
  unfold install. run_main. cbn [config_data with_config_data].
  unfold get_default. rewrite normalize_insecure_lookup by done. rewrite Hv.
  cbn [default from_option id]. rewrite Hfalse.
  run_handlers. eexists. split; [reflexivity|]. by apply quiet_emit_r.
Qed.

Lemma empty_token_path_raises_with_new_document_witness :
  ∃ w',
    load_config false Scenario.fingerprint
      (mkConfigManager false (attrs (fst Scenario.before_reload_no_path)),
       snd Scenario.before_reload_no_path)
    = ((mkConfigManager false
          (with_config_data (normalize_insecure Scenario.doc_no_path)
             (attrs (fst Scenario.before_reload_no_path))), w'),
       Raise (ConfigurationError "Token file not specified in config."))
    ∧ quiet (snd Scenario.before_reload_no_path) w'.
Proof.
  apply (empty_token_path_raises_with_new_document false Scenario.fingerprint
           (attrs (fst Scenario.before_reload_no_path))
           (snd Scenario.before_reload_no_path) Scenario.doc_no_path (JStr "")).
  - reflexivity.
  - apply missing_keys_nil. vm_compute. reflexivity.
  - apply extra_keys_nil. vm_compute. reflexivity.
  - intros x H. vm_compute in H. discriminate H.
  - exists "https://pbx.example.com". split; [reflexivity|right; reflexivity].
  - intros H. discriminate H.
  - reflexivity.
  - reflexivity.
Defined.

End ReloadFacts.

(** ** main.py: the outcomes of a tool call *)

Module DispatchFacts.
Import Py PyFacts Main Dispatch.
#[local] Arguments String.append !s1 s2 / : simpl nomatch.

(** X20: call_tool ends in one of four ways.  It returns what the handler
    returns.  It raises ValueError only for a name without a handler.  When
    the handler raises, whatever the exception, it raises the NameError of
    its first except clause, whose name ValidationError main.py does not
    bind: no clause body runs and nothing is logged.  It waits when the
    lock of the manager is held. *)
Theorem call_tool_outcomes registry name arguments cm w :
  let after := call_tool registry name arguments (cm, w) in
  match snd after with
  | Returns content =>
      ∃ handler, registry !! name = Some handler
        ∧ handler arguments (voipnow_config (attrs cm)) w = (snd (fst after), inr content)
  | Raises e =>
      registry !! name = None
      ∧ e = ValueError ("Tool not found: " ++ name)
      ∧ snd (fst after) = emit (EvLog ERROR ("Tool not found: " ++ name)) w
  | RaisesNameError unbound =>
      unbound = "ValidationError"
      ∧ ∃ handler e, registry !! name = Some handler
          ∧ handler arguments (voipnow_config (attrs cm)) w = (snd (fst after), inl e)
  | Blocks => lock cm = true
  end.
Proof.
  destruct cm as [[] self];
    cbv beta iota zeta delta [call_tool get_config with_lock self_get lock attrs];
    [reflexivity|].
  unfold ToolHandler in *.
  destruct (registry !! name) as [handler|] eqn:Hn; [|done].
  destruct (handler arguments (voipnow_config self) w) as [w' [e|content]] eqn:Hh.
  - cbn. split; [done|]. by exists handler, e.
  - cbn. by exists handler.
Qed.

End DispatchFacts.

(** ** utils/server.py: the log filter *)

Module ServerFacts.
Import Py PyFacts.
#[local] Arguments String.append !s1 s2 / : simpl nomatch.

Lemma contains_spec hay needle : contains hay needle = true ↔ occurs_in needle hay.
Proof.
  unfold occurs_in. split.
  - induction hay as [|a hay IH]; cbn [contains].
    + rewrite orb_false_r. intros [r ->]%startswith_spec. by exists "", r.
    + intros [[r ->]%startswith_spec | H]%orb_prop; [by exists "", r|].
      destruct (IH H) as (b & c & ->). by exists (String a b), c.
  - intros (b & c & ->). induction b as [|a b IH]; cbn [String.append].
    + destruct (needle ++ c) eqn:E; cbn [contains]; apply orb_true_intro; left;
        apply startswith_spec; exists c; by rewrite E.
    + cbn [contains]. by rewrite IH, orb_true_r.
Qed.

(** X21: the filter of server.py drops a record exactly when its level is ERROR
    or above and ClosedResourceError occurs in the text of its exception
    type or in its message. *)
Theorem filter_drops_iff record :
  Server.filter record = false
  ↔ Server.ERROR_LEVEL ≤ Server.levelno record
    ∧ ((∃ exc_type, Server.exc_info record = Some (Some exc_type)
                    ∧ occurs_in "ClosedResourceError" exc_type)
       ∨ occurs_in "ClosedResourceError" (Server.getMessage record)).
Proof.
  unfold Server.filter. rewrite Z.geb_leb.
  destruct (Server.ERROR_LEVEL <=? Server.levelno record) eqn:L.
  2:{ apply Z.leb_gt in L. split; [done|]. intros [H _]. lia. }
  apply Z.leb_le in L.
  destruct (Server.exc_info record) as [[exc_type|]|] eqn:E.
  - destruct (contains exc_type "ClosedResourceError") eqn:C1.
    + apply contains_spec in C1. split; [|done]. intros _. split; [done|]. left. eauto.
    + destruct (contains (Server.getMessage record) "ClosedResourceError") eqn:C2.
      * apply contains_spec in C2. split; [|done]. intros _. split; [done|]. by right.
      * split; [done|]. intros [_ [(t & [= <-] & H)|H]].
        -- apply contains_spec in H. congruence.
        -- apply contains_spec in H. congruence.
  - destruct (contains (Server.getMessage record) "ClosedResourceError") eqn:C2.
    + apply contains_spec in C2. split; [|done]. intros _. split; [done|]. by right.
    + split; [done|]. intros [_ [(t & [=] & H)|H]].
      apply contains_spec in H. congruence.
  - destruct (contains (Server.getMessage record) "ClosedResourceError") eqn:C2.
    + apply contains_spec in C2. split; [|done]. intros _. split; [done|]. by right.
    + split; [done|]. intros [_ [(t & [=] & H)|H]].
      apply contains_spec in H. congruence.
Qed.

End ServerFacts.

(** ** auth/auth.py: the bearer token *)

Module AuthFacts.
Import Py PyFacts Auth.
#[local] Arguments String.append !s1 s2 / : simpl nomatch.

Lemma lstrip_spec s :
  ∃ pre, s = pre ++ lstrip s ∧ blank pre ∧ (lstrip s = "" ∨ starts_plain (lstrip s)).
Proof.
  induction s as [|a s IH]; [exists ""; repeat split; by left|].
  cbn [lstrip]. destruct (isspace a) eqn:E.
  - destruct IH as (pre & Hs & Hb & Hl). exists (String a pre).
    split; [cbn; by rewrite <- Hs|]. split; [|done].
    unfold blank. cbn. by rewrite E.
  - exists "". split; [done|]. split; [done|]. by right.
Qed.

Lemma lstrip_blank_app pre s : blank pre → lstrip (pre ++ s) = lstrip s.
Proof.
  unfold blank. induction pre as [|a pre IH]; [done|].
  cbn. intros [Ha Hp]%andb_prop. rewrite Ha. by apply IH.
Qed.

Lemma lstrip_starts_plain s : starts_plain s → lstrip s = s.
Proof. destruct s as [|a s]; [done|]. cbn. by intros ->. Qed.

Lemma first_word_spec s :
  s = fst (first_word s) ++ snd (first_word s)
  ∧ all_chars (λ a, negb (isspace a)) (fst (first_word s)) = true
  ∧ (snd (first_word s) = "" ∨ ¬ starts_plain (snd (first_word s))).
Proof.
  induction s as [|a s IH]; [repeat split; by left|].
  cbn [first_word]. destruct (isspace a) eqn:E.
  - cbn. split; [done|]. split; [done|]. right. by rewrite E.
  - destruct (first_word s) as [w r]. cbn [fst snd] in *.
    destruct IH as (Hs & Hw & Hr). split; [cbn; by rewrite <- Hs|].
    split; [cbn; by rewrite E|done].
Qed.

Lemma first_word_app wd rest :
  all_chars (λ a, negb (isspace a)) wd = true →
  rest = "" ∨ ¬ starts_plain rest →
  first_word (wd ++ rest) = (wd, rest).
Proof.
  intros Hw Hr. induction wd as [|a wd IH].
  - cbn. destruct rest as [|b rest]; [done|]. destruct Hr as [|Hr]; [done|].
    cbn in Hr |- *. destruct (isspace b); [done|]. by destruct Hr.
  - cbn in Hw |- *. apply andb_prop in Hw as [Ha Hw].
    apply negb_true_iff in Ha. rewrite Ha. by rewrite IH.
Qed.

(** The two parts of a header that [split(maxsplit=1)] gives. *)
Lemma split_once_two s scheme credentials :
  split_once s = [scheme; credentials]
  ↔ ∃ pre mid, s = pre ++ scheme ++ mid ++ credentials
               ∧ blank pre ∧ word scheme ∧ blank mid ∧ mid ≠ ""
               ∧ starts_plain credentials.
Proof.
  split.
  - unfold split_once. destruct (lstrip_spec s) as (pre & Hs & Hpre & Hl).
    destruct (lstrip s) as [|a s1] eqn:E; [done|].
    destruct Hl as [|Hl]; [done|].
    pose proof (first_word_spec (String a s1)) as (Hw & Hword & Hrest).
    destruct (first_word (String a s1)) as [wd rest] eqn:F. cbn [fst snd] in *.
    destruct (lstrip_spec rest) as (mid & Hr & Hmid & Hl2).
    destruct (lstrip rest) as [|b r2] eqn:E2; [done|].
    intros [= <- <-]. destruct Hl2 as [|Hl2]; [done|].
    exists pre, mid. split; [by rewrite Hs, Hw, Hr at 1|].
    split; [done|]. split.
    { split; [|done]. intros ->. cbn in Hw. subst rest.
      cbn in Hl. destruct Hrest as [|Hrest]; [done|]. by apply Hrest. }
    split; [done|]. split; [|done].
    intros ->. cbn in Hr. subst rest. destruct Hrest as [|Hrest]; [done|]. by apply Hrest.
  - intros (pre & mid & -> & Hpre & [Hne Hword] & Hmid & Hmne & Hc).
    unfold split_once. rewrite lstrip_blank_app by done.
    assert (lstrip (scheme ++ mid ++ credentials) = scheme ++ mid ++ credentials) as ->.
    { apply lstrip_starts_plain. destruct scheme as [|a sc]; [done|].
      cbn in Hword |- *. apply andb_prop in Hword as [Ha _]. by apply negb_true_iff. }
    destruct (scheme ++ mid ++ credentials) as [|a0 s0] eqn:E.
    { destruct scheme; [done|discriminate E]. }
    cbv iota. rewrite <- E. rewrite first_word_app; [|done|].
    2:{ right. destruct mid as [|m mid]; [done|]. cbn in Hmid |- *.
        apply andb_prop in Hmid as [Hm _]. by rewrite Hm. }
    rewrite lstrip_blank_app by done. rewrite lstrip_starts_plain by done.
    destruct credentials; [done|reflexivity].
Qed.

Lemma lower_char_space a : isspace a = true → isspace (lower_char a) = true.
Proof.
  destruct a as [[] [] [] [] [] [] [] []]; vm_compute; congruence.
Qed.

Lemma lower_word s :
  all_chars (λ a, negb (isspace a)) (lower s) = true →
  all_chars (λ a, negb (isspace a)) s = true.
Proof.
  induction s as [|a s IH]; [done|]. cbn.
  intros [Ha Hs]%andb_prop. rewrite (IH Hs), andb_true_r.
  destruct (isspace a) eqn:E; [|done].
  by rewrite (lower_char_space a E) in Ha.
Qed.

Lemma bearer_is_word scheme : lower scheme = AUTH_TYPE → word scheme.
Proof.
  intros H. split; [by intros ->|]. apply lower_word. by rewrite H.
Qed.

(** X22: authenticate accepts a request exactly when the Authorization header
    is a word that reads bearer in lower case, white space, and then,
    character for character to the end of the header, the non-empty string
    stored as authTokenMCP in the configuration file. *)
Theorem authenticate_accepts_iff self authorization w :
  (∃ scopes username,
     snd (authenticate self authorization w) = Authenticated scopes username)
  ↔ ∃ pre scheme mid token doc,
      authorization = Some (pre ++ scheme ++ mid ++ token)
      ∧ blank pre ∧ lower scheme = "bearer" ∧ blank mid ∧ mid ≠ ""
      ∧ starts_plain token
      ∧ config_source w = ReadDoc doc
      ∧ doc !! "authTokenMCP" = Some (JStr token).
Proof.
  split.
  - intros (scopes & username & H). unfold authenticate, reject in H.
    destruct authorization as [auth|]; [|done].
    destruct (String.eqb auth ""); [done|].
    destruct (split_once auth) as [|scheme [|credentials [|x l]]] eqn:Hsplit; try done.
    apply split_once_two in Hsplit as (pre & mid & -> & Hpre & Hword & Hmid & Hne & Hc).
    destruct (String.eqb (lower scheme) AUTH_TYPE) eqn:Hs; [|done]. cbn [negb] in H.
    apply String.eqb_eq in Hs.
    unfold get_auth_token in H. cbn [config_source emit] in H.
    destruct (config_source w) as [| |doc] eqn:Hsrc; try done.
    destruct (doc !! "authTokenMCP") as [v|] eqn:Hv; [|done].
    destruct (truthy v); [|done].
    destruct (bool_decide (JStr credentials = v)) eqn:Heq; [|done].
    apply bool_decide_eq_true in Heq. subst v.
    by exists pre, scheme, mid, credentials, doc.
  - intros (pre & scheme & mid & token & doc & -> & Hpre & Hs & Hmid & Hne & Hc & Hsrc & Hv).
    assert (Hsplit : split_once (pre ++ scheme ++ mid ++ token) = [scheme; token]).
    { apply split_once_two. exists pre, mid. split; [done|]. split; [done|].
      split; [by apply bearer_is_word|done]. }
    unfold authenticate, reject.
    assert (String.eqb (pre ++ scheme ++ mid ++ token) "" = false) as ->.
    { apply String.eqb_neq. intros E. rewrite E in Hsplit. discriminate Hsplit. }
    rewrite Hsplit, Hs. cbn [negb String.eqb].
    unfold get_auth_token. cbn [config_source emit]. rewrite Hsrc, Hv.
    assert (truthy (JStr token) = true) as ->.
    { destruct token; [done|reflexivity]. }
    rewrite bool_decide_eq_true_2 by done. by eexists _, _.
Qed.

End AuthFacts.

(** ** utils/utils.py: the check of the method and the request *)

Module UtilsFacts.
Import Py PyFacts Utils.
#[local] Arguments String.append !s1 s2 / : simpl nomatch.

Lemma dict_get_set {V} (d : dict V) k v k' :
  dict_get (dict_set d k v) k' = if String.eqb k k' then Some v else dict_get d k'.
Proof.
  induction d as [|[k0 v0] d IH]; cbn [dict_set dict_get].
  - done.
  - destruct (String.eqb k0 k) eqn:E0; cbn [dict_get].
    + apply String.eqb_eq in E0. subst k0. by destruct (String.eqb k k').
    + destruct (String.eqb k0 k') eqn:E1; [|done].
      apply String.eqb_eq in E1. subst k0. by rewrite String.eqb_sym, E0.
Qed.

Lemma dict_get_elem {V} (d : dict V) k v : dict_get d k = Some v → (k, v) ∈ d.
Proof.
  induction d as [|[k0 v0] d IH]; cbn [dict_get]; [done|].
  destruct (String.eqb k0 k) eqn:E.
  - apply String.eqb_eq in E. intros [= ->]. subst. apply elem_of_cons. by left.
  - intros H. apply elem_of_cons. right. by apply IH.
Qed.

Section Tables.

Context (SCHEMA_NAME : dict string) (METHOD_NAME : dict (dict string)).

(** The entity that the inverted table gives for a schema is the last one
    listed with it. *)
Lemma schema_to_entity_last schema entity :
  dict_get (schema_to_entity SCHEMA_NAME) schema = Some entity
  ↔ ∃ before after,
      SCHEMA_NAME = (before ++ (entity, schema) :: after)%list ∧ schema ∉ after.*2.
Proof.
  unfold schema_to_entity.
  assert (∀ l acc,
    dict_get (fold_left (λ acc '(entity, schema), dict_set acc schema entity) l acc) schema
    = Some entity
    ↔ (∃ before after, l = (before ++ (entity, schema) :: after)%list ∧ schema ∉ after.*2)
      ∨ ((schema ∉ l.*2) ∧ dict_get acc schema = Some entity)) as H.
  { induction l as [|[e s] l IH]; intros acc; cbn [fold_left].
    - split.
      + intros H. right. split; [apply not_elem_of_nil|done].
      + intros [(b & a & H & _)|[_ H]]; [by destruct b|done].
    - rewrite IH. rewrite dict_get_set. split.
      + intros [(b & a & -> & Hn)|[Hn Hg]].
        * left. by exists ((e, s) :: b), a.
        * destruct (String.eqb s schema) eqn:E.
          -- apply String.eqb_eq in E. injection Hg as ->. subst s.
             left. by exists [], l.
          -- right. split; [|done]. cbn. apply String.eqb_neq in E.
             rewrite not_elem_of_cons. split; [congruence|done].
      + intros [(b & a & Hl & Hn)|[Hn Hg]].
        * destruct b as [|x b]; cbn in Hl.
          -- injection Hl as He Hs Hl'. subst e s a.
             right. split; [done|]. by rewrite String.eqb_refl.
          -- injection Hl as Hx Hl'. subst x l. left. by exists b, a.
        * cbn in Hn. apply not_elem_of_cons in Hn as [Hs Hn].
          right. split; [done|].
          assert (String.eqb s schema = false) as ->; [|done].
          apply String.eqb_neq. congruence. }
  rewrite H. split; [|by left].
  intros [?|[_ ?]]; done.
Qed.

(** The check of [_validate_soap_method] passes exactly for a method
    listed for the last entity of the schema. *)
Lemma validate_ok_iff {S} schema method (s : S) :
  snd (_validate_soap_method SCHEMA_NAME METHOD_NAME schema method s) = Ok tt
  ↔ ∃ entity,
      dict_get (schema_to_entity SCHEMA_NAME) schema = Some entity
      ∧ entity ≠ ""
      ∧ method ∈ allowed_methods METHOD_NAME entity.
Proof.
  unfold _validate_soap_method.
  destruct (dict_get (schema_to_entity SCHEMA_NAME) schema) as [entity|].
  2:{ split; [done|]. by intros (e & [=] & _). }
  destruct (String.eqb entity "") eqn:E.
  { apply String.eqb_eq in E. split; [done|]. by intros (e & [= <-] & He & _). }
  apply String.eqb_neq in E.
  destruct (bool_decide (method ∈ allowed_methods METHOD_NAME entity)) eqn:B.
  - apply bool_decide_eq_true in B. split; [|done]. intros _. by exists entity.
  - apply bool_decide_eq_false in B. split; [done|]. by intros (e & [= <-] & _ & Hm).
Qed.

End Tables.

(** X23: a method is accepted for a schema exactly when the last entity that
    vars.SCHEMA_NAME lists with that schema has a name that is not empty
    and vars.METHOD_NAME lists the method for it. *)
Theorem soap_method_allowed_iff {S} SCHEMA_NAME METHOD_NAME schema method (s : S) :
  snd (_validate_soap_method SCHEMA_NAME METHOD_NAME schema method s) = Ok tt
  ↔ ∃ before entity after methods method_type,
      SCHEMA_NAME = (before ++ (entity, schema) :: after)%list
      ∧ (schema ∉ after.*2)
      ∧ entity ≠ ""
      ∧ dict_get METHOD_NAME entity = Some methods
      ∧ (method_type, method) ∈ methods.
Proof.
  rewrite validate_ok_iff. split.
  - intros (entity & (before & after & Hl & Hn)%schema_to_entity_last & He & Hm).
    unfold allowed_methods in Hm.
    destruct (dict_get METHOD_NAME entity) as [methods|] eqn:Hg;
      [|by apply elem_of_nil in Hm].
    apply list_elem_of_fmap in Hm as ([mt m] & -> & Hin).
    by exists before, entity, after, methods, mt.
  - intros (before & entity & after & methods & mt & Hl & Hn & He & Hg & Hin).
    exists entity. split; [apply schema_to_entity_last; by exists before, after|].
    split; [done|]. unfold allowed_methods. rewrite Hg.
    apply list_elem_of_fmap. by exists (mt, method).
Qed.

(** X24: when no two entities of vars.SCHEMA_NAME have the same schema, the
    schema and the method that _execute_operation looks up for an entity
    and a method type pass the check of make_soap_request. *)
Theorem listed_operation_passes_check {S} SCHEMA_NAME METHOD_NAME
    operation_type schema methods method_type method (s : S) :
  NoDup SCHEMA_NAME.*2 →
  operation_type ≠ "" →
  dict_get SCHEMA_NAME operation_type = Some schema →
  dict_get METHOD_NAME operation_type = Some methods →
  dict_get methods method_type = Some method →
  snd (_validate_soap_method SCHEMA_NAME METHOD_NAME schema method s) = Ok tt.
Proof.
  intros Hnd Hne Hs Hm Hmt. apply validate_ok_iff.
  exists operation_type. split; [|split; [done|]].
  - apply schema_to_entity_last.
    apply dict_get_elem in Hs. apply list_elem_of_split in Hs as (before & after & Hl).
    exists before, after. split; [done|].
    rewrite Hl, fmap_app, fmap_cons in Hnd. cbn in Hnd.
    apply NoDup_app in Hnd as (_ & _ & Hnd). by apply NoDup_cons in Hnd as [Hnd _].
  - unfold allowed_methods. rewrite Hm. apply list_elem_of_fmap.
    exists (method_type, method). split; [done|]. by apply dict_get_elem.
Qed.

Lemma listed_operation_passes_check_witness :
  snd (_validate_soap_method Scenario.schema_names Scenario.method_names
         "User/User.wsdl" "AddUser" tt) = Ok tt.
Proof.
  apply (listed_operation_passes_check Scenario.schema_names Scenario.method_names
           "User" "User/User.wsdl" [("Get", "GetUsers"); ("Add", "AddUser")] "Add" "AddUser" tt).
  - apply NoDup_cons. split; [by intros [[=]|[]%elem_of_nil]%elem_of_cons|].
    apply NoDup_cons. split; [by intros []%elem_of_nil|]. apply NoDup_nil_2.
  - intros H. discriminate H.
  - reflexivity.
  - reflexivity.
  - reflexivity.
Defined.

Lemma select_parameters_spec {S} arguments allowed (s : S) :
  fst (select_parameters arguments allowed s) = s
  ∧ match snd (select_parameters arguments allowed s) with
    | Ok ps =>
        ∀ key value, (key, value) ∈ ps →
          (key, value) ∈ arguments ∧ value ≠ JNull
          ∧ ∃ keys, allowed = Some keys ∧ key ∈ keys
    | _ => True
    end.
Proof.
  unfold select_parameters. destruct arguments as [|a arguments].
  { split; [done|]. intros k v H. by apply elem_of_nil in H. }
  destruct allowed as [keys|]; [|done]. split; [done|]. cbn [snd ret].
  intros k v [[Hk Hv] Hin]%list_elem_of_filter. cbn in Hk, Hv.
  split; [done|]. split; [done|]. by exists keys.
Qed.


End UtilsFacts.

(** ** utils/tool_registry.py: what a discovery registers *)

Module RegistryFacts.
Import Py PyFacts Registry.
#[local] Arguments String.append !s1 s2 / : simpl nomatch.

Section Tools.

Context {Schema Handler : Type}.

(** A property of the registry that the messages do not affect and that
    each round of the loops keeps is kept by the walk. *)
Lemma walk_keeps (P : DynamicToolRegistry Schema Handler → Prop) :
  (∀ lvl msg self, P self → P (say lvl msg self)) →
  (∀ modname module self, P self → P (_process_module module modname (add_module modname self))) →
  (∀ modname self, module_name_ok modname = true → P self → P (add_module modname self)) →
  ∀ (n : node Schema Handler) package_name self, P self → P (walk package_name n self).
Proof.
  intros Hsay Hmod Hadd. fix IH 1.
  intros [short imported|short imported children] package_name self HP; cbn [walk].
  - destruct (negb (module_name_ok _)); [by apply Hsay|].
    destruct imported; [by apply Hmod|by apply Hsay].
  - destruct (negb (module_name_ok _)) eqn:E; [by apply Hsay|].
    destruct imported; [|by apply Hsay].
    apply negb_false_iff in E.
    assert (P (add_module (package_name ++ "." ++ short) self)) as HP' by by apply Hadd.
    revert HP'. generalize (add_module (package_name ++ "." ++ short) self).
    induction children as [|c children IHc]; intros r Hr; cbn [fold_left]; [done|].
    apply IHc. by apply IH.
Qed.

Lemma process_tool_listed module module_name (self : DynamicToolRegistry Schema Handler) entry :
  handlers_are_listed self → handlers_are_listed (process_tool module module_name self entry).
Proof.
  intros H. destruct entry as [tool_func_name cfg]. unfold process_tool.
  destruct (_create_tool_schema cfg) as [key|schema] eqn:Hc; [done|].
  assert (handlers_are_listed (add_schema schema self)) as H1.
  { intros n h Hn. destruct (H n h Hn) as (t & Ht & Hname).
    exists t. split; [|done]. cbn. apply elem_of_app. by left. }
  destruct (attributes module !! tool_func_name) as [[h|]|]; try done.
  intros n h' Hn. cbn in Hn.
  destruct (decide (n = default tool_func_name (tool_name cfg))) as [->|Hne].
  - exists schema. split; [cbn; apply elem_of_app; right; by apply list_elem_of_singleton|].
    revert Hc. unfold _create_tool_schema.
    destruct (tool_name cfg); [|done]. destruct (tool_description cfg); [|done].
    destruct (input_schema cfg); [|done]. by intros [= <-].
  - rewrite lookup_insert_ne in Hn by done. by apply H1 in Hn.
Qed.

Lemma process_module_listed module modname (self : DynamicToolRegistry Schema Handler) :
  handlers_are_listed self → handlers_are_listed (_process_module module modname self).
Proof.
  intros H. unfold _process_module. destruct (TOOL_REGISTRY module) as [| |items]; try done.
  assert (handlers_are_listed (say DEBUG ("Processing tools from module: " ++ modname) self))
    as H' by done.
  revert H'. generalize (say DEBUG ("Processing tools from module: " ++ modname) self).
  induction items as [|entry items IH]; intros r Hr; cbn [fold_left]; [done|].
  apply IH. by apply process_tool_listed.
Qed.

(** X26: after a discovery, every name under which a handler is registered
    is the name of a tool in the list of schemas. *)
Theorem discovered_handlers_are_listed found (self : DynamicToolRegistry Schema Handler) :
  ∃ self', discover_and_register_tools (Some found) self = Some self'
           ∧ handlers_are_listed self'.
Proof.
  unfold discover_and_register_tools. eexists. split; [reflexivity|].
  assert (∀ r : DynamicToolRegistry Schema Handler, handlers_are_listed r →
            handlers_are_listed (_walk_package (tools_package_path self) found r)) as Hwalk.
  { unfold _walk_package. induction found as [|c found IH]; intros r Hr; [done|].
    cbn [fold_left]. apply IH. apply walk_keeps; try done.
    intros modname module r' Hr'. by apply process_module_listed. }
  cbn [tools_package_path]. apply (Hwalk (mkRegistry _ [] ∅ ∅ _)).
  intros n h Hn. cbn in Hn. by rewrite lookup_empty in Hn.
Qed.

Lemma strip_prefix_spec p s r : strip_prefix p s = Some r → s = p ++ r.
Proof.
  revert s. induction p as [|a p IH]; intros s; cbn [strip_prefix].
  - by intros [= ->].
  - destruct s as [|b s]; [done|]. destruct (Ascii.eqb_spec a b) as [->|]; [|done].
    intros H. cbn. by rewrite (IH _ H).
Qed.

Lemma foreign_prefix root rest :
  root ≠ "tools" →
  startswith root "tools." = false →
  strip_prefix "tools." (root ++ "." ++ rest) = None.
Proof.
  intros Hne Hsw.
  destruct (strip_prefix "tools." (root ++ "." ++ rest)) as [r|] eqn:E; [|done].
  apply strip_prefix_spec in E. exfalso.
  do 5 (destruct root as [|? root]; cbn [String.append] in E;
        [discriminate E | injection E as -> E]).
  destruct root as [|c root]; [done|].
  cbn [String.append] in E. injection E as -> E. discriminate Hsw.
Qed.

(** X27: a registry made for a package whose name is neither tools nor
    starts with tools. finds nothing, whatever the package holds. *)
Theorem foreign_package_finds_nothing found (self : DynamicToolRegistry Schema Handler) :
  tools_package_path self ≠ "tools" →
  startswith (tools_package_path self) "tools." = false →
  ∃ self', discover_and_register_tools (Some found) self = Some self'
           ∧ nothing_registered self'.
Proof.
  intros Hne Hsw. unfold discover_and_register_tools.
  eexists. split; [reflexivity|].
  cbn [tools_package_path].
  assert (∀ r : DynamicToolRegistry Schema Handler, nothing_registered r →
            nothing_registered (_walk_package (tools_package_path self) found r)) as Hwalk.
  { unfold _walk_package. induction found as [|c found IH]; intros r Hr; [done|].
    cbn [fold_left]. apply IH.
    assert (∀ short, module_name_ok (tools_package_path self ++ "." ++ short) = false) as Hbad.
    { intros short. unfold module_name_ok. by rewrite foreign_prefix. }
    destruct c as [short imported|short imported children]; cbn [walk];
      by rewrite Hbad. }
  by apply (Hwalk (mkRegistry _ [] ∅ ∅ _)).
Qed.

End Tools.

(** The module is found under the package tools. *)
Example discover_finds_tool :
  ∃ self', discover_and_register_tools (Some [ModuleFile "pbx" (Some Scenario.pbx)])
             (new_registry "tools") = Some self'
           ∧ tool_schemas self' = [mkTool "get_regions" "Retrieve regions" tt]
           ∧ tool_handlers self' !! "get_regions" = Some tt
           ∧ get_tool_handler "get_regions" self' = inr tt.
Proof. eexists. split; [reflexivity|]. repeat split; vm_compute; reflexivity. Qed.

Lemma foreign_package_finds_nothing_witness :
  ∃ self', discover_and_register_tools (Some [ModuleFile "pbx" (Some Scenario.pbx)])
             (new_registry "mytools") = Some self'
           ∧ nothing_registered self'.
Proof.
  apply (foreign_package_finds_nothing [ModuleFile "pbx" (Some Scenario.pbx)]
           (new_registry "mytools")).
  - intros H. discriminate H.
  - reflexivity.
Defined.

End RegistryFacts.
